(** * Candle validation and consistency pipeline

    A shallow embedding of the candle input services
    (CandleSecurityService and its CandleCacheService,
    CandleValidationService, CandleInputCore, CandleInputEngine,
    CandleInputStore, CandleAutocompleteService and CandleIndexService)
    together with the properties stated for them.

    Conventions.
    - A JavaScript string is a [string] (a sequence of bytes, UTF-8); the
      character-level functions work on [list ascii].  Every character the
      services single out is ASCII, so filtering and searching by byte agrees
      with the code-unit view of the source.
    - A JavaScript number is NaN, an infinity or an exact rational (module
      [JsNum]); a text that embeds a formatted number keeps the number and
      the format (module [Text]).
    - Process-wide static maps are explicit state; [Date.now()] and
      [new Date()] are arguments of the operations that read them.
    - What belongs to a library or to the engine and is not fixed by the
      sources (the uuid and datetime formats of the validation library, the
      reading of a date text) is an argument of the functions that use it;
      module [Reference] gives the instances used on concrete data.
    - A callback that returns a promise is a function to its outcome.  A
      callback that returns nothing is a function from the message it is
      called with to what the call throws, if anything, and each call is
      recorded as an event.
    - Numbers are exact rationals: neither the parse of a decimal text nor
      the arithmetic is rounded to binary64.  The statements about numbers
      are kept to comparisons, which rounding to the nearest double
      preserves. *)

From Stdlib Require Import ZArith QArith Qabs Qround Lqa List Sorted Permutation Ascii String Bool Lia.
From stdpp Require Import gmap strings list fin_maps.
Import ListNotations.

Local Open Scope string_scope.
Local Open Scope Z_scope.
Local Open Scope list_scope.

(** ** Character lists *)

Module Chars.

Definition chars : Type := list ascii.

Definition ofString : string -> chars := list_ascii_of_string.
Definition toString : chars -> string := string_of_list_ascii.

Definition code (c : ascii) : N := N_of_ascii c.

Definition isDigit (c : ascii) : bool :=
  (48 <=? code c)%N && (code c <=? 57)%N.

Definition isChar (x c : ascii) : bool := Ascii.eqb c x.

(** [s.includes(c)] for a one-character needle. *)
Definition includes (x : ascii) (s : chars) : bool := existsb (isChar x) s.

(** [s.startsWith(c)] for a one-character needle. *)
Definition startsWith (x : ascii) (s : chars) : bool :=
  match s with
  | c :: _ => isChar x c
  | [] => false
  end.

(** [(s.match(/c/g) || []).length] *)
Definition countChar (x : ascii) (s : chars) : nat :=
  List.length (List.filter (isChar x) s).

(** [s.replace(/c/g, '')] *)
Definition removeChar (x : ascii) (s : chars) : chars :=
  List.filter (fun c => negb (isChar x c)) s.

(** [s.split(c)]: the pieces between the separators; never empty. *)
Fixpoint split (sep : ascii) (s : chars) : list chars :=
  match s with
  | [] => [[]]
  | c :: s' =>
      if isChar sep c then [] :: split sep s'
      else match split sep s' with
           | p :: ps => (c :: p) :: ps
           | [] => [[c]]
           end
  end.

(** every character *)
Definition allAscii : chars := List.map ascii_of_nat (List.seq 0 256).

(** [parts.join('')] *)
Definition joinEmpty (parts : list chars) : chars := List.concat parts.

(** [s.slice(0, n)] *)
Definition slice0 (n : nat) (s : chars) : chars := firstn n s.

End Chars.

(** ** CandleSecurityService: the sanitizer *)

Module Sanitizer.
Import Chars.

(** the class [[0-9.-]] *)
Definition isNumericChar (c : ascii) : bool :=
  isDigit c || isChar "." c || isChar "-" c.

(** [value.replace(/[^0-9.-]/g, '')] *)
Definition stripNonNumeric (s : chars) : chars := List.filter isNumericChar s.

(** multiple dots: keep only the first one *)
Definition collapseDots (s : chars) : chars :=
  let parts := split "." s in
  if (2 <? List.length parts)%nat
  then List.hd [] parts ++ "."%char :: joinEmpty (List.tl parts)
  else s.

(** multiple minus signs: keep only a leading one *)
Definition collapseMinus (s : chars) : chars :=
  if (1 <? countChar "-" s)%nat then
    let hasLeadingMinus := startsWith "-" s in
    let s' := removeChar "-" s in
    if hasLeadingMinus then "-"%char :: s' else s'
  else s.

(** a minus that is not at the start is removed *)
Definition dropInnerMinus (s : chars) : chars :=
  if includes "-" s && negb (startsWith "-" s) then removeChar "-" s else s.

(** at most 8 decimal places *)
Definition limitDecimals (s : chars) : chars :=
  if includes "." s then
    match split "." s with
    | integer :: decimal :: _ => integer ++ "."%char :: slice0 8 decimal
    | _ => s
    end
  else s.

(** at most 20 characters in total *)
Definition limitLength (s : chars) : chars :=
  if (20 <? List.length s)%nat then slice0 20 s else s.

Definition sanitizeChars (s : chars) : chars :=
  limitLength (limitDecimals (dropInnerMinus (collapseMinus
    (collapseDots (stripNonNumeric s))))).

(** [CandleSecurityService.sanitizeNumericInput] on a string argument. *)
Definition sanitizeNumericInput (value : string) : string :=
  toString (sanitizeChars (ofString value)).

End Sanitizer.

(** ** JavaScript numbers

    A number is NaN, an infinity or a finite value.  Finite values are exact
    rationals: the model has the double range (overflow to an infinity,
    underflow to zero when a literal is read) but not the rounding of the
    significand to 53 bits, and it does not tell -0 from 0. *)

Module JsNum.
Import Chars.

Inductive num : Type :=
| NaN
| PInf
| NInf
| Fin (q : Q).

Definition ofZ (z : Z) : num := Fin (inject_Z z).

Definition Qltb (a b : Q) : bool := negb (Qle_bool b a).
Definition Qisneg (a : Q) : bool := Qltb a 0.
Definition Qispos (a : Q) : bool := Qltb 0 a.
Definition Qiszero (a : Q) : bool := Qeq_bool a 0.

(** [a < b] *)
Definition ltb (a b : num) : bool :=
  match a, b with
  | NaN, _ | _, NaN => false
  | PInf, _ => false
  | _, NInf => false
  | NInf, _ => true
  | _, PInf => true
  | Fin x, Fin y => Qltb x y
  end.

(** [a <= b] *)
Definition leb (a b : num) : bool :=
  match a, b with
  | NaN, _ | _, NaN => false
  | NInf, _ => true
  | _, PInf => true
  | PInf, _ => false
  | _, NInf => false
  | Fin x, Fin y => Qle_bool x y
  end.

Definition gtb (a b : num) : bool := ltb b a.
Definition geb (a b : num) : bool := leb b a.

(** [a === b] on numbers *)
Definition eqb (a b : num) : bool :=
  match a, b with
  | PInf, PInf | NInf, NInf => true
  | Fin x, Fin y => Qeq_bool x y
  | _, _ => false
  end.

Definition isNaN (a : num) : bool :=
  match a with NaN => true | _ => false end.

Definition isFinite (a : num) : bool :=
  match a with Fin _ => true | _ => false end.

(** [Number.isInteger] *)
Definition isInteger (a : num) : bool :=
  match a with
  | Fin q => Qeq_bool q (inject_Z (Qfloor q))
  | _ => false
  end.

(** truthiness of a number: neither NaN nor zero *)
Definition truthy (a : num) : bool :=
  match a with
  | NaN => false
  | Fin q => negb (Qiszero q)
  | _ => true
  end.

Definition neg (a : num) : num :=
  match a with
  | NaN => NaN
  | PInf => NInf
  | NInf => PInf
  | Fin q => Fin (Qopp q)
  end.

Definition abs (a : num) : num :=
  match a with
  | NaN => NaN
  | PInf | NInf => PInf
  | Fin q => Fin (Qabs q)
  end.

Definition add (a b : num) : num :=
  match a, b with
  | NaN, _ | _, NaN => NaN
  | PInf, NInf | NInf, PInf => NaN
  | PInf, _ | _, PInf => PInf
  | NInf, _ | _, NInf => NInf
  | Fin x, Fin y => Fin (Qplus x y)
  end.

Definition sub (a b : num) : num := add a (neg b).

(** an infinity with the sign of a non-zero rational *)
Definition infOfSign (positive : bool) : num := if positive then PInf else NInf.

Definition mul (a b : num) : num :=
  match a, b with
  | NaN, _ | _, NaN => NaN
  | Fin x, Fin y => Fin (Qmult x y)
  | Fin x, PInf | PInf, Fin x =>
      if Qiszero x then NaN else infOfSign (Qispos x)
  | Fin x, NInf | NInf, Fin x =>
      if Qiszero x then NaN else infOfSign (Qisneg x)
  | PInf, PInf | NInf, NInf => PInf
  | PInf, NInf | NInf, PInf => NInf
  end.

Definition div (a b : num) : num :=
  match a, b with
  | NaN, _ | _, NaN => NaN
  | Fin x, Fin y =>
      if Qiszero y
      then (if Qiszero x then NaN else infOfSign (Qispos x))
      else Fin (Qdiv x y)
  | Fin _, _ => Fin 0
  | PInf, Fin y => infOfSign (negb (Qisneg y))
  | NInf, Fin y => infOfSign (Qisneg y)
  | _, _ => NaN
  end.

(** [Math.max] and [Math.min] of two arguments *)
Definition max2 (a b : num) : num :=
  match a, b with
  | NaN, _ | _, NaN => NaN
  | _, _ => if ltb a b then b else a
  end.

Definition min2 (a b : num) : num :=
  match a, b with
  | NaN, _ | _, NaN => NaN
  | _, _ => if ltb b a then b else a
  end.

(** [Math.max(...xs)] and [Math.min(...xs)] *)
Definition maxOf (xs : list num) : num := fold_left max2 xs NInf.
Definition minOf (xs : list num) : num := fold_left min2 xs PInf.

(** [Math.round]: the nearest integer, halves towards plus infinity *)
Definition round (a : num) : num :=
  match a with
  | Fin q => Fin (inject_Z (Qfloor (Qplus q (1 # 2))))
  | _ => a
  end.

(** *** parseFloat *)

Definition isPrefix (p s : chars) : bool :=
  (List.length p <=? List.length s)%nat &&
  forallb (fun '(a, b) => Ascii.eqb a b) (List.combine p s).

(** the white space of the language, as UTF-8: TAB, LF, VT, FF, CR, SP,
    NBSP, the Zs class, LS, PS and the byte order mark *)
Definition whiteSpaceSeqs : list (list N) :=
  [ [9]; [10]; [11]; [12]; [13]; [32];
    [194; 160];
    [225; 154; 128];
    [226; 128; 128]; [226; 128; 129]; [226; 128; 130]; [226; 128; 131];
    [226; 128; 132]; [226; 128; 133]; [226; 128; 134]; [226; 128; 135];
    [226; 128; 136]; [226; 128; 137]; [226; 128; 138];
    [226; 128; 168]; [226; 128; 169]; [226; 128; 175];
    [226; 129; 159];
    [227; 128; 128];
    [239; 187; 191] ]%N.

Definition whiteSpacePrefix (s : chars) : option nat :=
  option_map (@List.length N)
    (List.find (fun w => isPrefix (List.map ascii_of_N w) s) whiteSpaceSeqs).

Fixpoint trimStartFuel (fuel : nat) (s : chars) : chars :=
  match fuel with
  | O => s
  | S fuel' =>
      match whiteSpacePrefix s with
      | Some n => trimStartFuel fuel' (skipn n s)
      | None => s
      end
  end.

(** every white-space sequence is non-empty, so the length is enough fuel *)
Definition trimStart (s : chars) : chars := trimStartFuel (List.length s) s.

Fixpoint spanDigits (s : chars) : chars * chars :=
  match s with
  | c :: s' =>
      if isDigit c
      then let '(ds, rest) := spanDigits s' in (c :: ds, rest)
      else ([], s)
  | [] => ([], [])
  end.

Definition digitVal (c : ascii) : Z := Z.of_N (code c) - 48.

Definition digitsValue (ds : chars) : Z :=
  fold_left (fun acc c => 10 * acc + digitVal c) ds 0.

(** the exponent part [[eE][+-]?digits], 0 when there is none *)
Definition exponentOf (s : chars) : Z :=
  match s with
  | e :: r =>
      if isChar "e" e || isChar "E" e then
        let '(negative, r') :=
          match r with
          | sg :: r'' =>
              if isChar "-" sg then (true, r'')
              else if isChar "+" sg then (false, r'')
              else (false, r)
          | [] => (false, r)
          end in
        let '(ds, _) := spanDigits r' in
        match ds with
        | [] => 0
        | _ => if negative then - digitsValue ds else digitsValue ds
        end
      else 0
  | [] => 0
  end.

(** the least magnitude that reads as an infinity, and the greatest that
    reads as zero *)
Definition overflowBound : Q := inject_Z (2 ^ 1024 - 2 ^ 970).
Definition underflowBound : Q := 1 # (2 ^ 1075).

Definition fromLiteral (q : Q) : num :=
  if Qle_bool overflowBound (Qabs q) then infOfSign (Qispos q)
  else if Qle_bool (Qabs q) underflowBound then Fin 0
  else Fin q.

Definition parseFloatChars (s : chars) : num :=
  let s1 := trimStart s in
  let '(negative, s2) :=
    match s1 with
    | sg :: r =>
        if isChar "-" sg then (true, r)
        else if isChar "+" sg then (false, r)
        else (false, s1)
    | [] => (false, s1)
    end in
  if isPrefix (ofString "Infinity") s2 then infOfSign (negb negative)
  else
    let '(ip, s3) := spanDigits s2 in
    let '(fp, s4) :=
      match s3 with
      | d :: r => if isChar "." d then spanDigits r else ([], s3)
      | [] => ([], s3)
      end in
    match ip ++ fp with
    | [] => NaN
    | ds =>
        let mantissa := inject_Z (digitsValue ds) in
        let scale := exponentOf s4 - Z.of_nat (List.length fp) in
        let magnitude := Qmult mantissa (Qpower (10 # 1) scale) in
        fromLiteral (if negative then Qopp magnitude else magnitude)
    end.

Definition parseFloat (s : string) : num := parseFloatChars (ofString s).

End JsNum.

(** ** Regular expressions

    The signatures of the security service use literal characters, escaped
    characters, [.], [\w] and the postfix operators [*] and [+] on a single
    character, all under the [i] flag.  A pattern is kept as its source text
    and compiled to a list of items.  The matcher works on bytes, so [.]
    refuses LF and CR; the multi-byte line separators are not singled out. *)

Module Regex.
Import Chars.

Inductive cls : Type :=
| Ch (c : ascii)
| AnyChar
| WordChar.

Inductive item : Type :=
| One (c : cls)
| Star (c : cls)
| Plus (c : cls).

Definition regex : Type := list item.

Definition isUpper (c : ascii) : bool := (65 <=? code c)%N && (code c <=? 90)%N.
Definition isLower (c : ascii) : bool := (97 <=? code c)%N && (code c <=? 122)%N.

Definition lowerChar (c : ascii) : ascii :=
  if isUpper c then ascii_of_N (code c + 32) else c.

Definition isWordChar (c : ascii) : bool :=
  isUpper c || isLower c || isDigit c || isChar "_" c.

Definition isLineBreak (c : ascii) : bool :=
  (code c =? 10)%N || (code c =? 13)%N.

(** one character against a class, ignoring case *)
Definition accepts (k : cls) (a : ascii) : bool :=
  match k with
  | Ch c => Ascii.eqb (lowerChar a) (lowerChar c)
  | AnyChar => negb (isLineBreak a)
  | WordChar => isWordChar a
  end.

(** the source text as atoms and postfix operators; an escaped character
    is a literal, except [\w] *)
Inductive token : Type :=
| TAtom (k : cls)
| TStar
| TPlus.

Fixpoint tokens (src : chars) : list token :=
  match src with
  | [] => []
  | c :: rest =>
      if isChar "\" c then
        match rest with
        | e :: rest' =>
            TAtom (if isChar "w" e then WordChar else Ch e) :: tokens rest'
        | [] => [TAtom (Ch c)]
        end
      else if isChar "*" c then TStar :: tokens rest
      else if isChar "+" c then TPlus :: tokens rest
      else TAtom (if isChar "." c then AnyChar else Ch c) :: tokens rest
  end.

Fixpoint items (ts : list token) : regex :=
  match ts with
  | [] => []
  | TAtom k :: TStar :: ts' => Star k :: items ts'
  | TAtom k :: TPlus :: ts' => Plus k :: items ts'
  | TAtom k :: ts' => One k :: items ts'
  | TStar :: ts' => items ts'
  | TPlus :: ts' => items ts'
  end.

Definition compile (source : string) : regex := items (tokens (ofString source)).

(** zero or more characters of a class, then the rest of the expression *)
Fixpoint matchStar (c : ascii -> bool) (k : chars -> bool) (s : chars) : bool :=
  if k s then true
  else match s with
       | a :: s' => if c a then matchStar c k s' else false
       | [] => false
       end.

(** does the expression match a prefix of [s]? *)
Fixpoint matchHere (re : regex) (s : chars) : bool :=
  match re with
  | [] => true
  | One c :: re' =>
      match s with
      | a :: s' => if accepts c a then matchHere re' s' else false
      | [] => false
      end
  | Star c :: re' => matchStar (accepts c) (matchHere re') s
  | Plus c :: re' =>
      match s with
      | a :: s' =>
          if accepts c a then matchStar (accepts c) (matchHere re') s' else false
      | [] => false
      end
  end.

(** does the expression match somewhere in [s]? *)
Fixpoint search (re : regex) (s : chars) : bool :=
  if matchHere re s then true
  else match s with
       | _ :: s' => search re s'
       | [] => false
       end.

(** a text uses a literal when one of its characters is accepted for it *)
Definition uses (c : ascii) (s : chars) : Prop :=
  exists a, In a s /\ accepts (Ch c) a = true.

(** an expression is foreign to a set of characters when one of its
    mandatory literals is accepted by no character of the set *)
Definition foreign (allowed : ascii -> bool) (re : regex) : bool :=
  existsb (fun it =>
             match it with
             | One (Ch c) =>
                 forallb (fun a => negb (allowed a && accepts (Ch c) a)) allAscii
             | _ => false
             end) re.

(** [new RegExp(source, 'i').test(s)] *)
Definition test (source : string) (s : string) : bool :=
  search (compile source) (ofString s).

End Regex.

(** ** CandleSecurityService *)

Module Form.
(** [CandleFormData] and [SanitizedCandleFormData]: five text fields *)
Record CandleFormData : Type := {
  open : string;
  high : string;
  low : string;
  close : string;
  volume : string
}.

Inductive fieldName : Type := Open | High | Low | Close | Volume.

Definition fields : list fieldName := [Open; High; Low; Close; Volume].

Definition get (field : fieldName) (data : CandleFormData) : string :=
  match field with
  | Open => open data
  | High => high data
  | Low => low data
  | Close => close data
  | Volume => volume data
  end.

Definition name (field : fieldName) : string :=
  match field with
  | Open => "open"
  | High => "high"
  | Low => "low"
  | Close => "close"
  | Volume => "volume"
  end.
End Form.

Module Security.
Import Chars JsNum.

Record SecurityCheckResult : Type := {
  passed : bool;
  reason : option string;
  threat : option string
}.

Definition pass : SecurityCheckResult :=
  {| passed := true; reason := None; threat := None |}.

Definition RATE_LIMIT_WINDOW : Z := 60000.
Definition MAX_REQUESTS_PER_WINDOW : Z := 100.

Record Window : Type := { count : Z; resetTime : Z }.

(** the static [rateLimitMap] *)
Abbreviation RateLimitMap := (gmap string Window).

Definition sanitizeNumericInput : string -> string := Sanitizer.sanitizeNumericInput.

(** [sanitizeFormData] on a form whose fields are strings, where
    [String(field || '')] is the field itself *)
Definition sanitizeFormData (data : Form.CandleFormData) : Form.CandleFormData :=
  {| Form.open := sanitizeNumericInput (Form.open data);
     Form.high := sanitizeNumericInput (Form.high data);
     Form.low := sanitizeNumericInput (Form.low data);
     Form.close := sanitizeNumericInput (Form.close data);
     Form.volume := sanitizeNumericInput (Form.volume data) |}.

Definition hexDigit (n : N) : ascii :=
  ascii_of_N (if (n <? 10)%N then 48 + n else 87 + n).

(** the escape of one character inside a JSON string *)
Definition quoteChar (c : ascii) : chars :=
  let n := code c in
  if (n =? 8)%N then ofString "\b"
  else if (n =? 9)%N then ofString "\t"
  else if (n =? 10)%N then ofString "\n"
  else if (n =? 12)%N then ofString "\f"
  else if (n =? 13)%N then ofString "\r"
  else if (n =? 34)%N then ["\"%char; c]
  else if (n =? 92)%N then ["\"%char; c]
  else if (n <? 32)%N
       then ofString "\u00" ++ [hexDigit (n / 16); hexDigit (n mod 16)]
  else [c].

Definition dquote : ascii := ascii_of_N 34.

(** [JSON.stringify] of a string *)
Definition quoteJSONString (s : string) : chars :=
  dquote :: List.concat (List.map quoteChar (ofString s)) ++ [dquote].

Definition jsonMember (field : Form.fieldName) (data : Form.CandleFormData) : chars :=
  quoteJSONString (Form.name field) ++ ":"%char :: quoteJSONString (Form.get field data).

(** [JSON.stringify(data)] for the five fields in declaration order *)
Definition jsonStringify (data : Form.CandleFormData) : chars :=
  "{"%char ::
    jsonMember Form.Open data ++ ","%char ::
    jsonMember Form.High data ++ ","%char ::
    jsonMember Form.Low data ++ ","%char ::
    jsonMember Form.Close data ++ ","%char ::
    jsonMember Form.Volume data ++ ["}"%char].

(** [toLowerCase] on the ASCII letters *)
Definition toLowerCase (s : chars) : chars := List.map Regex.lowerChar s.

Definition suspiciousPatterns : list string :=
  [ "<script";
    "javascript:";
    "on\w+=";
    "data:text\/html";
    "vbscript:";
    "<iframe";
    "<object";
    "<embed";
    "SELECT.*FROM";
    "UNION.*SELECT";
    "DROP.*TABLE";
    "INSERT.*INTO";
    "DELETE.*FROM";
    "UPDATE.*SET" ].

(** the characters of the serialization of a sanitized form, in lower
    case: the digits, the dot, the minus sign, the punctuation of the
    object and the letters of the five field names *)
Definition plain (a : ascii) : bool :=
  Sanitizer.isNumericChar a ||
  existsb (fun x => Ascii.eqb a x) (ofString "{}:,openhighlowclosevolume") ||
  Ascii.eqb a dquote.

(** the same once the character is put in lower case *)
Definition plainLower (a : ascii) : bool := plain (Regex.lowerChar a).

(** the first pattern of the list that matches, if any *)
Definition firstMatch (patterns : list string) (dataString : chars) : option string :=
  List.find (fun source => Regex.search (Regex.compile source) dataString) patterns.

Definition checkForSuspiciousPatterns (data : Form.CandleFormData) : SecurityCheckResult :=
  let dataString := toLowerCase (jsonStringify data) in
  match firstMatch suspiciousPatterns dataString with
  | Some source =>
      {| passed := false;
         reason := Some "Suspicious pattern detected";
         threat := Some source |}
  | None => pass
  end.

(** the answer to a call over the quota *)
Definition rateLimited : SecurityCheckResult :=
  {| passed := false;
     reason := Some "Rate limit exceeded";
     threat := Some "RATE_LIMIT" |}.

(** [checkRateLimit]; [now] is the reading of [Date.now()] *)
Definition checkRateLimit (identifier : string) (now : Z) (m : RateLimitMap)
  : RateLimitMap * SecurityCheckResult :=
  match m !! identifier with
  | Some window =>
      if now >? resetTime window then
        (<[identifier := {| count := 1; resetTime := now + RATE_LIMIT_WINDOW |}]> m, pass)
      else if count window >=? MAX_REQUESTS_PER_WINDOW then
        (m, rateLimited)
      else
        (<[identifier := {| count := count window + 1;
                            resetTime := resetTime window |}]> m, pass)
  | None =>
      (<[identifier := {| count := 1; resetTime := now + RATE_LIMIT_WINDOW |}]> m, pass)
  end.

Definition MAX_SAFE_INTEGER : num := ofZ (2 ^ 53 - 1).

Definition rangeFailure (field : Form.fieldName) (what code : string) : SecurityCheckResult :=
  {| passed := false;
     reason := Some ("Invalid " +:+ Form.name field +:+ " value: " +:+ what);
     threat := Some code |}.

(** the checks of one field, [None] when it passes all of them *)
Definition checkNumericRange (data : Form.CandleFormData) (field : Form.fieldName)
  : option SecurityCheckResult :=
  let value := parseFloat (Form.get field data) in
  if negb (isFinite value) then Some (rangeFailure field "not finite" "INVALID_NUMBER")
  else if ltb value (ofZ 0) then Some (rangeFailure field "negative" "NEGATIVE_VALUE")
  else if gtb value MAX_SAFE_INTEGER then Some (rangeFailure field "overflow" "NUMBER_OVERFLOW")
  else if isNaN value then Some (rangeFailure field "NaN" "NAN_VALUE")
  else None.

Fixpoint firstFailure (data : Form.CandleFormData) (fs : list Form.fieldName)
  : SecurityCheckResult :=
  match fs with
  | [] => pass
  | field :: fs' =>
      match checkNumericRange data field with
      | Some failure => failure
      | None => firstFailure data fs'
      end
  end.

Definition validateNumericRanges (data : Form.CandleFormData) : SecurityCheckResult :=
  firstFailure data Form.fields.

(** what [performSecurityCheck] returns *)
Module Outcome.
Record t : Type := {
  passed : bool;
  sanitizedData : option Form.CandleFormData;
  error : option string
}.
End Outcome.

Definition rejected (message : string) : Outcome.t :=
  {| Outcome.passed := false;
     Outcome.sanitizedData := None;
     Outcome.error := Some message |}.

(** an optional text inside a template literal *)
Definition interpolated (o : option string) : string :=
  match o with Some s => s | None => "undefined" end.

(** [performSecurityCheck]: rate limit, sanitize, signatures, ranges *)
Definition performSecurityCheck (data : Form.CandleFormData) (identifier : string)
    (now : Z) (m : RateLimitMap) : RateLimitMap * Outcome.t :=
  let '(m', rateLimitCheck) := checkRateLimit identifier now m in
  if negb (passed rateLimitCheck) then
    (m', rejected "Превышен лимит запросов. Пожалуйста, подождите.")
  else
    let sanitized := sanitizeFormData data in
    let suspiciousCheck := checkForSuspiciousPatterns sanitized in
    if negb (passed suspiciousCheck) then
      (m', rejected "Обнаружены подозрительные данные. Операция отклонена.")
    else
      let rangeCheck := validateNumericRanges sanitized in
      if negb (passed rangeCheck) then
        (m', rejected ("Некорректные числовые значения: " +:+ interpolated (reason rangeCheck)))
      else
        (m', {| Outcome.passed := true;
                Outcome.sanitizedData := Some sanitized;
                Outcome.error := None |}).

(** consecutive calls of [checkRateLimit] by one identifier, at the given
    readings of the clock: the answers in call order and the map left *)
Fixpoint callsAt (identifier : string) (times : list Z) (m : RateLimitMap)
  : list SecurityCheckResult * RateLimitMap :=
  match times with
  | [] => ([], m)
  | now :: later =>
      let '(m', answer) := checkRateLimit identifier now m in
      let '(answers, m'') := callsAt identifier later m' in
      (answer :: answers, m'')
  end.

(** a call that opens a window: the identifier has no entry, or one
    whose window is over *)
Definition opens (identifier : string) (now : Z) (m : RateLimitMap) : Prop :=
  match m !! identifier with
  | Some window => now > resetTime window
  | None => True
  end.

(** [generateIdentifier(sessionId, userId?)] *)
Definition generateIdentifier (sessionId : string) (userId : option string) : string :=
  let baseId :=
    match userId with
    | Some u => if String.eqb u "" then (if String.eqb sessionId "" then "anonymous" else sessionId) else u
    | None => if String.eqb sessionId "" then "anonymous" else sessionId
    end in
  "candle_input_" +:+ baseId.

(** [cleanupRateLimitMap] *)
Definition cleanupRateLimitMap (now : Z) (m : RateLimitMap) : RateLimitMap :=
  filter (fun kv => ¬ (now > resetTime kv.2)) m.

End Security.

(** ** Texts with formatted numbers

    A template literal that embeds [x.toFixed(d)], [x.toString()] or
    [x.toLocaleString()] is kept as its fragments: how a number is printed is
    the engine's (and the locale's) business, what is printed is the
    service's. *)

Module Text.
Import JsNum.

Inductive frag : Type :=
| Lit (s : string)
| Fixed (digits : nat) (x : num)
| Str (x : num)
| Locale (x : num).

Definition text : Type := list frag.

Definition lit (s : string) : text := [Lit s].
End Text.

(** ** Candle records *)

Module Candle.
Import JsNum.

(** Modelled from the spec: the declaration of [CandleData]
    (types/session) is not among the sources; the fields are the ones the
    services read or write and the ones the spec lists for a candle
    record.  An absent optional field is [None]. *)
Record CandleData : Type := {
  id : option string;
  session_id : string;
  candle_index : num;
  open : num;
  high : num;
  low : num;
  close : num;
  volume : num;
  candle_datetime : string;
  spread : option num;
  created_at : option string;
  prediction_direction : option string;
  prediction_probability : option num;
  prediction_confidence : option num
}.
End Candle.

(** ** Exceptions

    What a [throw] carries, and how a call ends: it returns a value or it
    throws. *)

Module Js.
(** an [Error] with its message, or anything else *)
Inductive Thrown : Type :=
| ErrorObject (message : string)
| OtherValue.

Inductive Completion (A : Type) : Type :=
| Returned (value : A)
| Threw (thrown : Thrown).
Arguments Returned {A} _.
Arguments Threw {A} _.

(** a callback that returns nothing: what a call with an argument throws,
    [None] when the call returns *)
Definition Callback (A : Type) : Type := A -> option Thrown.
End Js.

(** ** CandleValidationService *)

Module ValidationError.
Record t : Type := { field : string; message : string; code : string }.
End ValidationError.

Module ValidationWarning.
Inductive Severity : Type := low | medium | high.
Record t : Type := { field : string; message : Text.text; severity : Severity }.
End ValidationWarning.

Module Validation.
Import Chars JsNum.

Record ValidationResult (T : Type) : Type := {
  isValid : bool;
  data : option T;
  errors : list ValidationError.t;
  warnings : list ValidationWarning.t
}.
Arguments isValid {T} _.
Arguments data {T} _.
Arguments errors {T} _.
Arguments warnings {T} _.

Definition issue (path message code : string) : ValidationError.t :=
  {| ValidationError.field := path;
     ValidationError.message := message;
     ValidationError.code := code |}.

(** *** The schema combinators

    A schema maps a value to the issues it raises and tells whether the
    parse was aborted.  As in the validation library, a failed check or
    refinement leaves the value dirty and the later refinements still run;
    only a value of the wrong type aborts, and then the refinements
    around it are skipped. *)

Record Parsed : Type := { issues : list ValidationError.t; aborted : bool }.

Definition Schema (A : Type) : Type := A -> Parsed.

Definition clean : Parsed := {| issues := []; aborted := false |}.

Definition raise (path message code : string) : Parsed :=
  {| issues := [issue path message code]; aborted := false |}.

Definition abort (path message code : string) : Parsed :=
  {| issues := [issue path message code]; aborted := true |}.

(** the issues of two parses, in order *)
Definition andThen (p q : Parsed) : Parsed :=
  {| issues := issues p ++ issues q; aborted := aborted p || aborted q |}.

Definition check (holds : bool) (path message code : string) : Parsed :=
  if holds then clean else raise path message code.

(** [inner.refine(holds, { message, path })] *)
Definition refine {A : Type} (inner : Schema A) (holds : A -> bool)
    (message path : string) : Schema A :=
  fun v =>
    let p := inner v in
    if aborted p then p else andThen p (check (holds v) path message "custom").

(** [z.string().min(1, message)] at a path *)
Definition stringMin1 (path message : string) : Schema string :=
  fun val => check (1 <=? String.length val)%nat path message "too_small".

(** *** CandleFormDataSchema *)

Definition openSchema : Schema string :=
  refine (refine (refine
    (stringMin1 "open" "Цена открытия обязательна")
    (fun val => negb (isNaN (parseFloat val))) "Цена открытия должна быть числом" "open")
    (fun val => gtb (parseFloat val) (ofZ 0)) "Цена открытия должна быть положительной" "open")
    (fun val => ltb (parseFloat val) (ofZ 1000000)) "Цена открытия слишком большая" "open".

Definition highSchema : Schema string :=
  refine (refine (refine
    (stringMin1 "high" "Максимальная цена обязательна")
    (fun val => negb (isNaN (parseFloat val))) "Максимальная цена должна быть числом" "high")
    (fun val => gtb (parseFloat val) (ofZ 0)) "Максимальная цена должна быть положительной" "high")
    (fun val => ltb (parseFloat val) (ofZ 1000000)) "Максимальная цена слишком большая" "high".

Definition lowSchema : Schema string :=
  refine (refine (refine
    (stringMin1 "low" "Минимальная цена обязательна")
    (fun val => negb (isNaN (parseFloat val))) "Минимальная цена должна быть числом" "low")
    (fun val => gtb (parseFloat val) (ofZ 0)) "Минимальная цена должна быть положительной" "low")
    (fun val => ltb (parseFloat val) (ofZ 1000000)) "Минимальная цена слишком большая" "low".

Definition closeSchema : Schema string :=
  refine (refine (refine
    (stringMin1 "close" "Цена закрытия обязательна")
    (fun val => negb (isNaN (parseFloat val))) "Цена закрытия должна быть числом" "close")
    (fun val => gtb (parseFloat val) (ofZ 0)) "Цена закрытия должна быть положительной" "close")
    (fun val => ltb (parseFloat val) (ofZ 1000000)) "Цена закрытия слишком большая" "close".

Definition volumeSchema : Schema string :=
  refine (refine (refine (refine
    (stringMin1 "volume" "Объем обязателен")
    (fun val => negb (isNaN (parseFloat val))) "Объем должен быть числом" "volume")
    (fun val => gtb (parseFloat val) (ofZ 0)) "Объем должен быть больше нуля" "volume")
    (fun val => ltb (parseFloat val) (ofZ 999999999)) "Объем слишком большой" "volume")
    (fun val => isInteger (parseFloat val)) "Объем должен быть целым числом" "volume".

(** the object of the five fields, parsed in declaration order *)
Definition formObject : Schema Form.CandleFormData :=
  fun data =>
    andThen (openSchema (Form.open data))
    (andThen (highSchema (Form.high data))
    (andThen (lowSchema (Form.low data))
    (andThen (closeSchema (Form.close data))
             (volumeSchema (Form.volume data))))).

(** Business Rule 1: High >= max(Open, Close) *)
Definition rule1 (data : Form.CandleFormData) : bool :=
  let open := parseFloat (Form.open data) in
  let high := parseFloat (Form.high data) in
  let close := parseFloat (Form.close data) in
  geb high (max2 open close).

(** Business Rule 2: Low <= min(Open, Close) *)
Definition rule2 (data : Form.CandleFormData) : bool :=
  let open := parseFloat (Form.open data) in
  let low := parseFloat (Form.low data) in
  let close := parseFloat (Form.close data) in
  leb low (min2 open close).

(** Business Rule 3: High >= Low *)
Definition rule3 (data : Form.CandleFormData) : bool :=
  let high := parseFloat (Form.high data) in
  let low := parseFloat (Form.low data) in
  geb high low.

Definition spreadPercentOf (high low : num) : num :=
  let avgPrice := div (add high low) (ofZ 2) in
  mul (div (sub high low) avgPrice) (ofZ 100).

(** Business Rule 4: the spread is at most 10% *)
Definition rule4 (data : Form.CandleFormData) : bool :=
  let high := parseFloat (Form.high data) in
  let low := parseFloat (Form.low data) in
  leb (spreadPercentOf high low) (ofZ 10).

Definition CandleFormDataSchema : Schema Form.CandleFormData :=
  refine (refine (refine (refine formObject
    rule1 "Максимальная цена должна быть >= max(Open, Close)" "high")
    rule2 "Минимальная цена должна быть <= min(Open, Close)" "low")
    rule3 "Максимальная цена должна быть >= минимальной" "high")
    rule4 "Спред свечи превышает 10% - проверьте корректность данных" "high".

Definition warning (field : string) (message : Text.text)
    (severity : ValidationWarning.Severity) : ValidationWarning.t :=
  {| ValidationWarning.field := field;
     ValidationWarning.message := message;
     ValidationWarning.severity := severity |}.

Definition when {A : Type} (b : bool) (x : A) : list A := if b then [x] else [].

(** the additional warnings of a form that parsed *)
Definition formWarnings (parsed : Form.CandleFormData) : list ValidationWarning.t :=
  let high := parseFloat (Form.high parsed) in
  let low := parseFloat (Form.low parsed) in
  let volume := parseFloat (Form.volume parsed) in
  let spreadPercent := spreadPercentOf high low in
  when (ltb spreadPercent (Fin (1 # 100)))
    (warning "spread" (Text.lit "Очень маленький спред - возможно ошибка в данных")
       ValidationWarning.medium) ++
  when (ltb volume (ofZ 1000))
    (warning "volume" (Text.lit "Низкий объем торгов - проверьте корректность")
       ValidationWarning.low) ++
  when (gtb spreadPercent (ofZ 5))
    (warning "spread"
       [Text.Lit "Большой спред ("; Text.Fixed 2 spreadPercent; Text.Lit "%)"]
       ValidationWarning.high).

(** [safeParse] succeeds when no issue was raised *)
Definition success (p : Parsed) : bool :=
  match issues p with [] => true | _ => false end.

Definition validateFormData (data : Form.CandleFormData)
  : ValidationResult Form.CandleFormData :=
  let result := CandleFormDataSchema data in
  let errors := issues result in
  let warnings := if success result then formWarnings data else [] in
  {| isValid := (List.length errors =? 0)%nat;
     data := if success result then Some data else None;
     errors := errors;
     warnings := warnings |}.

(** [validateFormData] on a value that may be [undefined], which the
    object schema refuses as a whole *)
Definition validateUnknown (data : option Form.CandleFormData)
  : ValidationResult Form.CandleFormData :=
  match data with
  | Some d => validateFormData d
  | None =>
      {| isValid := false;
         data := None;
         errors := [issue "" "Required" "invalid_type"];
         warnings := [] |}
  end.

(** the shape of the object of the five fields *)
Definition fieldSchema (field : string) : option (Schema string) :=
  if String.eqb field "open" then Some openSchema
  else if String.eqb field "high" then Some highSchema
  else if String.eqb field "low" then Some lowSchema
  else if String.eqb field "close" then Some closeSchema
  else if String.eqb field "volume" then Some volumeSchema
  else None.

(** a schema as the code that inspects it sees it: an object, which has
    a [shape], or the effects that a [refine] wraps around a schema, which
    have none *)
Inductive SchemaNode : Type :=
| ZodObject (shape : string -> option (Schema string))
| ZodEffects (inner : SchemaNode).

(** the property [shape]; [None] is [undefined] *)
Definition shape (node : SchemaNode) : option (string -> option (Schema string)) :=
  match node with
  | ZodObject fields => Some fields
  | ZodEffects _ => None
  end.

(** [CandleFormDataSchema] is what the last of its four [refine] calls
    returned *)
Definition CandleFormDataNode : SchemaNode :=
  ZodEffects (ZodEffects (ZodEffects (ZodEffects (ZodObject fieldSchema)))).

(** [validateField].  The read of [shape[field]] comes first and is not
    protected: on [undefined] it throws a TypeError, whose message is the
    engine's. *)
Definition validateField (field value : string)
  : Js.Completion (option ValidationError.t) :=
  match shape CandleFormDataNode with
  | None =>
      Js.Threw (Js.ErrorObject
        ("Cannot read properties of undefined (reading '" +:+ field +:+ "')"))
  | Some fields =>
      match fields field with
      | None => Js.Returned None
      | Some schema =>
          match issues (schema value) with
          | first :: _ =>
              Js.Returned
                (Some (issue field (ValidationError.message first)
                         (ValidationError.code first)))
          | [] => Js.Returned None
          end
      end
  end.

(** [validateCandleSequence]: the temporal warnings *)
Definition validateCandleSequence (currentCandle : Candle.CandleData)
    (previousCandle : option Candle.CandleData) : list ValidationWarning.t :=
  match previousCandle with
  | None => []
  | Some previous =>
      let gap := abs (sub (Candle.open currentCandle) (Candle.close previous)) in
      let avgPrice := div (add (Candle.close previous) (Candle.open currentCandle)) (ofZ 2) in
      let gapPercent := mul (div gap avgPrice) (ofZ 100) in
      let priceChange := abs (sub (Candle.close currentCandle) (Candle.close previous)) in
      let changePercent := mul (div priceChange (Candle.close previous)) (ofZ 100) in
      when (gtb gapPercent (ofZ 1))
        (warning "open"
           [Text.Lit "Большой гэп между свечами ("; Text.Fixed 2 gapPercent; Text.Lit "%)"]
           ValidationWarning.medium) ++
      when (gtb changePercent (ofZ 5))
        (warning "close"
           [Text.Lit "Большое изменение цены ("; Text.Fixed 2 changePercent; Text.Lit "%)"]
           ValidationWarning.high)
  end.

(** [validateTradingRanges] *)
Definition validateTradingRanges (open high low close volume : num)
  : list ValidationWarning.t :=
  let bodySize := abs (sub close open) in
  let wickSize := sub high low in
  when (eqb bodySize (ofZ 0) && eqb wickSize (ofZ 0))
    (warning "candle" (Text.lit "Свеча без движения - возможно ошибка данных")
       ValidationWarning.high) ++
  when (gtb wickSize (ofZ 0) && ltb (div bodySize wickSize) (Fin (5 # 100)))
    (warning "candle" (Text.lit "Длинные тени при маленьком теле - проверьте данные")
       ValidationWarning.low).

(** *** CandleDataSchema

    The two string formats are the validation library's; they are
    arguments of the schema. *)

Section DataSchema.
Variable zodUuid : string -> bool.
Variable zodDatetime : string -> bool.

Inductive numberCheck : Type :=
| IsInt
| Min (bound : Z) (inclusive : bool) (message : string)
| Max (bound : Z) (message : string)
| IsFinite.

Definition runCheck (path : string) (v : num) (c : numberCheck) : Parsed :=
  match c with
  | IsInt => check (isInteger v) path "Expected integer, received float" "invalid_type"
  | Min bound inclusive message =>
      check (if inclusive then geb v (ofZ bound) else gtb v (ofZ bound))
            path message "too_small"
  | Max bound message => check (leb v (ofZ bound)) path message "too_big"
  | IsFinite => check (isFinite v) path "Number must be finite" "not_finite"
  end.

(** [z.number()] with its checks, in the order they were added *)
Definition numberSchema (path : string) (checks : list numberCheck) : Schema num :=
  fun v =>
    if isNaN v then abort path "Expected number, received nan" "invalid_type"
    else fold_left (fun acc c => andThen acc (runCheck path v c)) checks clean.

Definition optional {A : Type} (inner : Schema A) : Schema (option A) :=
  fun o => match o with Some v => inner v | None => clean end.

Definition positive : numberCheck := Min 0 false "Number must be greater than 0".

Definition directionSchema : Schema string :=
  fun v =>
    if String.eqb v "UP" || String.eqb v "DOWN" || String.eqb v "NEUTRAL" then clean
    else abort "prediction_direction"
           ("Invalid enum value. Expected 'UP' | 'DOWN' | 'NEUTRAL', received '" +:+ v +:+ "'")
           "invalid_enum_value".

Definition dataObject : Schema Candle.CandleData :=
  fun d =>
    andThen (check (zodUuid (Candle.session_id d))
               "session_id" "Некорректный ID сессии" "invalid_string")
    (andThen (numberSchema "candle_index"
                [IsInt; Min 0 true "Индекс свечи должен быть неотрицательным"]
                (Candle.candle_index d))
    (andThen (numberSchema "open" [positive; IsFinite] (Candle.open d))
    (andThen (numberSchema "high" [positive; IsFinite] (Candle.high d))
    (andThen (numberSchema "low" [positive; IsFinite] (Candle.low d))
    (andThen (numberSchema "close" [positive; IsFinite] (Candle.close d))
    (andThen (numberSchema "volume" [positive; IsInt; IsFinite] (Candle.volume d))
    (andThen (check (zodDatetime (Candle.candle_datetime d))
                "candle_datetime" "Некорректная дата и время свечи" "invalid_string")
    (andThen (optional (numberSchema "spread"
                [Min 0 true "Number must be greater than or equal to 0"])
                (Candle.spread d))
    (andThen (optional directionSchema (Candle.prediction_direction d))
    (andThen (optional (numberSchema "prediction_probability"
                [Min 0 true "Number must be greater than or equal to 0";
                 Max 1 "Number must be less than or equal to 1"])
                (Candle.prediction_probability d))
             (optional (numberSchema "prediction_confidence"
                [Min 0 true "Number must be greater than or equal to 0";
                 Max 100 "Number must be less than or equal to 100"])
                (Candle.prediction_confidence d)))))))))))).

Definition highIsMax (d : Candle.CandleData) : bool :=
  geb (Candle.high d) (max2 (Candle.open d) (Candle.close d)) &&
  geb (Candle.high d) (Candle.low d).

Definition lowIsMin (d : Candle.CandleData) : bool :=
  leb (Candle.low d) (min2 (Candle.open d) (Candle.close d)) &&
  leb (Candle.low d) (Candle.high d).

Definition CandleDataSchema : Schema Candle.CandleData :=
  refine (refine dataObject
    highIsMax "Нарушение правил OHLC: High должен быть максимальным" "")
    lowIsMin "Нарушение правил OHLC: Low должен быть минимальным" "".

Definition validateCandleData (d : Candle.CandleData)
  : ValidationResult Candle.CandleData :=
  let result := CandleDataSchema d in
  {| isValid := (List.length (issues result) =? 0)%nat;
     data := if success result then Some d else None;
     errors := issues result;
     warnings := [] |}.
End DataSchema.

End Validation.

(** ** CandleInputCore

    The core holds the session, the two callbacks of its configuration and
    the two history arrays.  An array used as a stack has its top at the end:
    [push] appends and [pop] removes the last element.

    [onSave] returns a promise; the model gives its outcome, resolved or
    rejected with the thrown value (a synchronous throw inside the [try]
    ends in the same handler).  [onError] and [onSuccess] return nothing,
    and like any function they may throw: the model gives what a call
    throws, as a function of the message it is called with, and records
    every call as an event, in call order, whether it returns or throws.
    An operation that can let an exception out ends in a [Js.Completion].
    The static rate-limit map is threaded through the operations that read
    it. *)

Module Session.
(** Modelled from the spec: the declaration of [TradingSession]
    (types/session) is not among the sources; the services read its
    identifier and its name. *)
Record TradingSession : Type := { id : string; session_name : string }.
End Session.

Module Stack.
Definition push {A : Type} (x : A) (l : list A) : list A := l ++ [x].

(** [l.pop()]: the last element and what is left, [None] on an empty array *)
Fixpoint pop {A : Type} (l : list A) : option (list A * A) :=
  match l with
  | [] => None
  | x :: l' =>
      match pop l' with
      | Some (rest, top) => Some (x :: rest, top)
      | None => Some ([], x)
      end
  end.
End Stack.

Module Core.
Import JsNum Validation.

Inductive Event : Type :=
| ErrorReported (message : string)
| SuccessReported (message : string).

Module SaveCandleResult.
Record t : Type := {
  success : bool;
  candle : option Candle.CandleData;
  errors : option (list string)
}.
End SaveCandleResult.

Module UndoRedoResult.
Record t : Type := {
  success : bool;
  candle : option Candle.CandleData;
  error : option string
}.
End UndoRedoResult.

Record CandleInputCore : Type := {
  session : Session.TradingSession;
  onSave : option (Candle.CandleData -> option Js.Thrown);
  onError : option (Js.Callback string);
  undoStack : list Candle.CandleData;
  redoStack : list Candle.CandleData
}.

(** the constructor *)
Definition create (session : Session.TradingSession)
    (onSave : option (Candle.CandleData -> option Js.Thrown))
    (onError : option (Js.Callback string))
  : CandleInputCore :=
  {| session := session; onSave := onSave; onError := onError;
     undoStack := []; redoStack := [] |}.

Definition withStacks (c : CandleInputCore) (undo redo : list Candle.CandleData)
  : CandleInputCore :=
  {| session := session c; onSave := onSave c; onError := onError c;
     undoStack := undo; redoStack := redo |}.

(** what a call of an optional callback throws; nothing when there is no
    callback or when the call returns *)
Definition thrownBy (callback : option (Js.Callback string)) (message : string)
  : option Js.Thrown :=
  match callback with
  | Some call => call message
  | None => None
  end.

(** [if (callback) callback(message)]: the call made, if any, and what
    it throws *)
Definition notify (callback : option (Js.Callback string)) (event : string -> Event)
    (message : string) : list Event * option Js.Thrown :=
  (match callback with
   | Some _ => [event message]
   | None => []
   end,
   thrownBy callback message).

(** a call of the optional [onError] *)
Definition report (c : CandleInputCore) (message : string)
  : list Event * option Js.Thrown :=
  notify (onError c) ErrorReported message.

Definition securityError (message : option string) : ValidationResult Form.CandleFormData :=
  {| Validation.isValid := false;
     Validation.data := None;
     Validation.errors := [issue "security"
                 (match message with
                  | Some m => if String.eqb m "" then "Security check failed" else m
                  | None => "Security check failed"
                  end)
                 "SECURITY_ERROR"];
     Validation.warnings := [] |}.

(** [validate]: the security check first, then the form schema on the
    sanitized data *)
Definition validate (c : CandleInputCore) (now : Z) (limits : Security.RateLimitMap)
    (data : Form.CandleFormData)
  : Security.RateLimitMap * ValidationResult Form.CandleFormData :=
  let identifier := Security.generateIdentifier (Session.id (session c)) None in
  let '(limits', securityCheck) :=
    Security.performSecurityCheck data identifier now limits in
  if negb (Security.Outcome.passed securityCheck) then
    (limits', securityError (Security.Outcome.error securityCheck))
  else
    (limits', validateUnknown (Security.Outcome.sanitizedData securityCheck)).

Definition sanitize (data : Form.CandleFormData) : Form.CandleFormData :=
  Security.sanitizeFormData data.

(** [formDataToCandleData]; [createdAt] is [new Date().toISOString()] *)
Definition formDataToCandleData (c : CandleInputCore) (createdAt : string)
    (formData : Form.CandleFormData) (candleIndex : num) (candleDateTime : string)
  : Candle.CandleData :=
  let open := parseFloat (Form.open formData) in
  let high := parseFloat (Form.high formData) in
  let low := parseFloat (Form.low formData) in
  let close := parseFloat (Form.close formData) in
  let volume := parseFloat (Form.volume formData) in
  let spread := sub high low in
  {| Candle.id := None;
     Candle.session_id := Session.id (session c);
     Candle.candle_index := candleIndex;
     Candle.open := open;
     Candle.high := high;
     Candle.low := low;
     Candle.close := close;
     Candle.volume := volume;
     Candle.candle_datetime := candleDateTime;
     Candle.spread := Some spread;
     Candle.created_at := Some createdAt;
     Candle.prediction_direction := None;
     Candle.prediction_probability := None;
     Candle.prediction_confidence := None |}.

Definition failed (messages : list string) : SaveCandleResult.t :=
  {| SaveCandleResult.success := false;
     SaveCandleResult.candle := None;
     SaveCandleResult.errors := Some messages |}.

Definition saved (candleData : Candle.CandleData) : SaveCandleResult.t :=
  {| SaveCandleResult.success := true;
     SaveCandleResult.candle := Some candleData;
     SaveCandleResult.errors := None |}.

(** the message of the handler of [save] *)
Definition errorMessageOf (thrown : Js.Thrown) : string :=
  match thrown with
  | Js.ErrorObject message => message
  | Js.OtherValue => "Ошибка сохранения свечи"
  end.

Record Saved : Type := {
  core : CandleInputCore;
  limits : Security.RateLimitMap;
  events : list Event;
  outcome : Js.Completion SaveCandleResult.t
}.

(** the call returned a result that says success *)
Definition succeeded (r : Saved) : bool :=
  match outcome r with
  | Js.Returned result => SaveCandleResult.success result
  | Js.Threw _ => false
  end.

(** the handler of [save]: the message of what was thrown goes to
    [onError] and into the result.  The call of [onError] is made in the
    handler itself, so what it throws leaves [save]. *)
Definition handler (c : CandleInputCore) (limits : Security.RateLimitMap)
    (before : list Event) (thrown : Js.Thrown) : Saved :=
  let errorMessage := errorMessageOf thrown in
  let '(calls, completion) := report c errorMessage in
  {| core := c; limits := limits; events := before ++ calls;
     outcome :=
       match completion with
       | None => Js.Returned (failed [errorMessage])
       | Some escaping => Js.Threw escaping
       end |}.

Section Save.
Variable zodUuid : string -> bool.
Variable zodDatetime : string -> bool.

(** [save].  Step 4, the temporal validation against the previous
    candle, only writes to the log and is not part of the outcome.  The
    first call of [onError] is inside the [try]: what it throws is
    caught by the handler like a rejection of [onSave]. *)
Definition save (c : CandleInputCore) (now : Z) (createdAt : string)
    (limits : Security.RateLimitMap)
    (formData : Form.CandleFormData) (candleIndex : num) (candleDateTime : string)
    (previousCandle : option Candle.CandleData) : Saved :=
  let '(limits', validationResult) := validate c now limits formData in
  if negb (isValid validationResult) then
    let errorMessages := List.map ValidationError.message (Validation.errors validationResult) in
    let '(calls, completion) := report c (String.concat ", " errorMessages) in
    match completion with
    | Some thrown => handler c limits' calls thrown
    | None =>
        {| core := c; limits := limits'; events := calls;
           outcome := Js.Returned (failed errorMessages) |}
    end
  else
    let sanitizedData := sanitize formData in
    let candleData := formDataToCandleData c createdAt sanitizedData candleIndex candleDateTime in
    let dataValidation := validateCandleData zodUuid zodDatetime candleData in
    if negb (isValid dataValidation) then
      {| core := c; limits := limits'; events := [];
         outcome :=
           Js.Returned
             (failed (List.map ValidationError.message (Validation.errors dataValidation))) |}
    else
      match
        match onSave c with
        | Some callback => callback candleData
        | None => None
        end
      with
      | Some thrown => handler c limits' [] thrown
      | None =>
          {| core := withStacks c (Stack.push candleData (undoStack c)) [];
             limits := limits'; events := [];
             outcome := Js.Returned (saved candleData) |}
      end.
End Save.

(** the record [save] builds from the form and hands to [onSave] *)
Definition built (c : CandleInputCore) (createdAt : string)
    (formData : Form.CandleFormData) (candleIndex : num)
    (candleDateTime : string) : Candle.CandleData :=
  formDataToCandleData c createdAt (sanitize formData) candleIndex candleDateTime.

(** the outcome of the persistence step on a record: what the callback
    rejects with, [None] when it resolves or when there is no callback *)
Definition persisted (c : CandleInputCore) (candleData : Candle.CandleData)
  : option Js.Thrown :=
  match onSave c with
  | Some callback => callback candleData
  | None => None
  end.

(** the result of a history operation that moved a record *)
Definition moved (record : Candle.CandleData) : UndoRedoResult.t :=
  {| UndoRedoResult.success := true;
     UndoRedoResult.candle := Some record;
     UndoRedoResult.error := None |}.

(** the result of a history operation on an empty stack *)
Definition nothingTo (message : string) : UndoRedoResult.t :=
  {| UndoRedoResult.success := false;
     UndoRedoResult.candle := None;
     UndoRedoResult.error := Some message |}.

(** [undo] *)
Definition undo (c : CandleInputCore) : CandleInputCore * UndoRedoResult.t :=
  match Stack.pop (undoStack c) with
  | None =>
      (c, nothingTo "Нет операций для отмены")
  | Some (rest, lastCandle) =>
      (withStacks c rest (Stack.push lastCandle (redoStack c)),
       moved lastCandle)
  end.

(** [redo] *)
Definition redo (c : CandleInputCore) : CandleInputCore * UndoRedoResult.t :=
  match Stack.pop (redoStack c) with
  | None =>
      (c, nothingTo "Нет операций для повтора")
  | Some (rest, lastUndo) =>
      (withStacks c (Stack.push lastUndo (undoStack c)) rest,
       moved lastUndo)
  end.

Definition canUndo (c : CandleInputCore) : bool := (0 <? List.length (undoStack c))%nat.
Definition canRedo (c : CandleInputCore) : bool := (0 <? List.length (redoStack c))%nat.

Definition clearHistory (c : CandleInputCore) : CandleInputCore := withStacks c [] [].

Definition updateSession (c : CandleInputCore) (s : Session.TradingSession)
  : CandleInputCore :=
  {| session := s; onSave := onSave c; onError := onError c;
     undoStack := undoStack c; redoStack := redoStack c |}.

(** *** An editing session

    The requests a caller makes of one core, served in order, and what
    each was answered. *)

Inductive Request : Type :=
| Commit (now : Z) (createdAt : string) (formData : Form.CandleFormData)
    (candleIndex : num) (candleDateTime : string)
    (previousCandle : option Candle.CandleData)
| Undo
| Redo.

Inductive Answer : Type :=
| Committed (ok : bool)
| Undone (ok : bool)
| Redone (ok : bool).

(** the answers show an undo that succeeded and no commit that succeeded
    after it *)
Definition undoPending (answers : list Answer) : Prop :=
  exists before after,
    answers = before ++ Undone true :: after /\
    ~ In (Committed true) after.

Section Serve.
Variable zodUuid : string -> bool.
Variable zodDatetime : string -> bool.

Definition serve (state : CandleInputCore * Security.RateLimitMap) (request : Request)
  : CandleInputCore * Security.RateLimitMap * Answer :=
  let '(c, limits) := state in
  match request with
  | Commit now createdAt formData candleIndex candleDateTime previousCandle =>
      let r := save zodUuid zodDatetime c now createdAt limits
                 formData candleIndex candleDateTime previousCandle in
      (core r, Core.limits r, Committed (succeeded r))
  | Undo => let '(c', r) := undo c in (c', limits, Undone (UndoRedoResult.success r))
  | Redo => let '(c', r) := redo c in (c', limits, Redone (UndoRedoResult.success r))
  end.

Fixpoint run (state : CandleInputCore * Security.RateLimitMap)
    (requests : list Request)
  : CandleInputCore * Security.RateLimitMap * list Answer :=
  match requests with
  | [] => (state, [])
  | request :: later =>
      let '(state', answer) := serve state request in
      let '(final, answers) := run state' later in
      (final, answer :: answers)
  end.
End Serve.

End Core.

(** ** CandleInputEngine *)

Module Engine.
Import JsNum.

Record CandleInputEngine : Type := {
  core : Core.CandleInputCore;
  onError : option (Js.Callback string);
  onSuccess : option (Js.Callback string);
  operationCount : Z;
  lastOperation : option string
}.

(** the constructor: the core gets the session and the two callbacks *)
Definition create (session : Session.TradingSession)
    (onCandleSaved : option (Candle.CandleData -> option Js.Thrown))
    (onError onSuccess : option (Js.Callback string)) : CandleInputEngine :=
  {| core := Core.create session onCandleSaved onError;
     onError := onError; onSuccess := onSuccess;
     operationCount := 0; lastOperation := None |}.

Definition began (e : CandleInputEngine) (operation : string) (c : Core.CandleInputCore)
  : CandleInputEngine :=
  {| core := c; onError := onError e; onSuccess := onSuccess e;
     operationCount := operationCount e + 1; lastOperation := Some operation |}.

Definition reportSuccess (e : CandleInputEngine) (message : string)
  : list Core.Event * option Js.Thrown :=
  Core.notify (onSuccess e) Core.SuccessReported message.

Definition reportError (e : CandleInputEngine) (message : string)
  : list Core.Event * option Js.Thrown :=
  Core.notify (onError e) Core.ErrorReported message.

Record Saved : Type := {
  engine : CandleInputEngine;
  limits : Security.RateLimitMap;
  events : list Core.Event;
  outcome : Js.Completion Core.SaveCandleResult.t
}.

(** the handler of [saveCandle]: [onError] is called with the fixed
    message and the result is the critical error.  As in the core, the
    call is made in the handler itself, so what it throws leaves
    [saveCandle]. *)
Definition caught (e : CandleInputEngine) (limits : Security.RateLimitMap)
    (before : list Core.Event) : Saved :=
  let '(calls, completion) := reportError e "Ошибка сохранения свечи" in
  {| engine := e; limits := limits; events := before ++ calls;
     outcome :=
       match completion with
       | None => Js.Returned (Core.failed ["Критическая ошибка при сохранении"])
       | Some escaping => Js.Threw escaping
       end |}.

Section Save.
Variable zodUuid : string -> bool.
Variable zodDatetime : string -> bool.

(** [saveCandle]: the core's [save], then the success callback; what
    either throws is caught by the handler *)
Definition saveCandle (e : CandleInputEngine) (now : Z) (createdAt : string)
    (limits : Security.RateLimitMap)
    (formData : Form.CandleFormData) (candleIndex : num) (candleDateTime : string)
    (previousCandle : option Candle.CandleData) : Saved :=
  let r := Core.save zodUuid zodDatetime (core e) now createdAt limits
             formData candleIndex candleDateTime previousCandle in
  let e' := began e "save" (Core.core r) in
  match Core.outcome r with
  | Js.Threw _ => caught e' (Core.limits r) (Core.events r)
  | Js.Returned result =>
      if Core.SaveCandleResult.success result then
        let '(calls, completion) := reportSuccess e "Свеча успешно сохранена" in
        match completion with
        | Some _ => caught e' (Core.limits r) (Core.events r ++ calls)
        | None =>
            {| engine := e'; limits := Core.limits r;
               events := Core.events r ++ calls;
               outcome := Js.Returned result |}
        end
      else
        {| engine := e'; limits := Core.limits r; events := Core.events r;
           outcome := Js.Returned result |}
  end.
End Save.

Definition orElse (o : option string) (d : string) : string :=
  match o with
  | Some s => if String.eqb s "" then d else s
  | None => d
  end.

(** the result of the handlers of [undo] and [redo] *)
Definition critical (message : string) : Core.UndoRedoResult.t :=
  {| Core.UndoRedoResult.success := false;
     Core.UndoRedoResult.candle := None;
     Core.UndoRedoResult.error := Some message |}.

(** the notification after a history operation, and the result: the
    core's, or the handler's when the callback throws *)
Definition notified (e : CandleInputEngine) (r : Core.UndoRedoResult.t)
    (done fallback failure : string) : list Core.Event * Core.UndoRedoResult.t :=
  let '(calls, completion) :=
    if Core.UndoRedoResult.success r then reportSuccess e done
    else reportError e (orElse (Core.UndoRedoResult.error r) fallback) in
  (calls,
   match completion with
   | None => r
   | Some _ => critical failure
   end).

(** [undo] *)
Definition undo (e : CandleInputEngine)
  : CandleInputEngine * list Core.Event * Core.UndoRedoResult.t :=
  let '(c, r) := Core.undo (core e) in
  let '(calls, result) :=
    notified e r "Операция отменена" "Ошибка отмены" "Критическая ошибка при отмене" in
  (began e "undo" c, calls, result).

(** [redo] *)
Definition redo (e : CandleInputEngine)
  : CandleInputEngine * list Core.Event * Core.UndoRedoResult.t :=
  let '(c, r) := Core.redo (core e) in
  let '(calls, result) :=
    notified e r "Операция повторена" "Ошибка повтора" "Критическая ошибка при повторе" in
  (began e "redo" c, calls, result).

Definition clearHistory (e : CandleInputEngine) : CandleInputEngine :=
  {| core := Core.clearHistory (core e); onError := onError e; onSuccess := onSuccess e;
     operationCount := 0; lastOperation := None |}.

End Engine.

(** ** CandleInputStore: the operation history *)

Module Store.

Inductive OperationType : Type := add | remove | update.

Record CandleOperation : Type := {
  type : OperationType;
  candle : Candle.CandleData;
  timestamp : Z;
  sessionId : string
}.

Record History : Type := {
  operationHistory : list CandleOperation;
  currentOperationIndex : Z
}.

Definition initialState : History :=
  {| operationHistory := []; currentOperationIndex := -1 |}.

(** [l.slice(0, stop)] *)
Definition sliceTo {A : Type} (stop : Z) (l : list A) : list A :=
  if stop <? 0
  then firstn (Z.to_nat (Z.max (Z.of_nat (List.length l) + stop) 0)) l
  else firstn (Z.to_nat stop) l.

(** [l.shift()] *)
Definition shift {A : Type} (l : list A) : list A := List.tl l.

(** [recordOperation] *)
Definition recordOperation (operation : CandleOperation) (state : History) : History :=
  let newHistory :=
    sliceTo (currentOperationIndex state + 1) (operationHistory state) ++ [operation] in
  let newHistory :=
    if (50 <? List.length newHistory)%nat then shift newHistory else newHistory in
  {| operationHistory := newHistory;
     currentOperationIndex := Z.of_nat (List.length newHistory) - 1 |}.

Definition canUndo (state : History) : bool := currentOperationIndex state >=? 0.

Definition canRedo (state : History) : bool :=
  currentOperationIndex state <? Z.of_nat (List.length (operationHistory state)) - 1.

End Store.

(** ** CandleAutocompleteService *)

Module Autocomplete.
Import JsNum Text.

(** [confidence] is one of the integer literals of the service *)
Record AutocompleteOption : Type := {
  value : text;
  label : text;
  confidence : Z;
  reason : text
}.

(** the form under edition: any field may be absent *)
Record PartialForm : Type := {
  open : option string;
  high : option string;
  low : option string;
  close : option string;
  volume : option string
}.

(** [field ? parseFloat(field) : null] *)
Definition parsed (field : option string) : option num :=
  match field with
  | Some s => if String.eqb s "" then None else Some (parseFloat s)
  | None => None
  end.

(** truthiness of [number | null] *)
Definition given (x : option num) : bool :=
  match x with Some v => truthy v | None => false end.

(** [x || 0] *)
Definition orZero (x : option num) : num :=
  match x with
  | Some v => if truthy v then v else ofZ 0
  | None => ofZ 0
  end.

(** the value of a field known to be given *)
Definition the (x : option num) : num :=
  match x with Some v => v | None => NaN end.

(** [l.slice(-n)] *)
Definition lastN {A : Type} (n : nat) (l : list A) : list A :=
  skipn (List.length l - n) l.

Definition sum (xs : list num) : num := fold_left add xs (ofZ 0).

(** [l.sort(compare)] for a consistent comparator, [after a b] standing
    for [compare(a, b) > 0]: the stable sort *)
Fixpoint insertSorted {A : Type} (after : A -> A -> bool) (x : A) (l : list A) : list A :=
  match l with
  | [] => [x]
  | y :: l' => if after x y then y :: insertSorted after x l' else x :: l
  end.

Definition sort {A : Type} (after : A -> A -> bool) (l : list A) : list A :=
  List.fold_right (insertSorted after) [] l.

(** [(a, b) => b.confidence - a.confidence] is positive *)
Definition lessConfident (a b : AutocompleteOption) : bool :=
  confidence b - confidence a >? 0.

(** the order of a ranked list: no candidate before a more confident one *)
Definition descending (a b : AutocompleteOption) : Prop :=
  confidence a >= confidence b.

(** [(a, b) => a - b] is positive *)
Definition greater (a b : num) : bool := gtb (sub a b) (ofZ 0).

Definition toFixed5 (x : num) : text := [Fixed 5 x].

Definition labelled (x : num) (note : string) : text := [Fixed 5 x; Lit note].

(** [getSuggestionsForOpen] *)

(** the gaps [previousCandles[i].open - previousCandles[i - 1].close] for
    [i] from 1 below [Math.min(previousCandles.length, 10)] *)
Fixpoint gapsBetween (l : list Candle.CandleData) : list num :=
  match l with
  | a :: ((b :: _) as rest) => sub (Candle.open b) (Candle.close a) :: gapsBetween rest
  | _ => []
  end.

Definition gapsOf (previousCandles : list Candle.CandleData) : list num :=
  gapsBetween (firstn 10 previousCandles).

Definition getSuggestionsForOpen (previousCandles : list Candle.CandleData)
  : list AutocompleteOption :=
  match List.last (List.map Some previousCandles) None with
  | None => []
  | Some lastCandle =>
      {| value := toFixed5 (Candle.close lastCandle);
         label := labelled (Candle.close lastCandle) " (Закрытие предыдущей)";
         confidence := 90;
         reason := lit "Открытие обычно равно закрытию предыдущей свечи" |} ::
      (if (3 <=? List.length previousCandles)%nat then
         let gaps := gapsOf previousCandles in
         let avgGap := div (sum gaps) (ofZ (Z.of_nat (List.length gaps))) in
         if gtb (abs avgGap) (Fin (1 # 100000)) then
           let openWithGap := add (Candle.close lastCandle) avgGap in
           [ {| value := toFixed5 openWithGap;
                label := labelled openWithGap " (С учетом среднего гэпа)";
                confidence := 60;
                reason := [Lit "Средний гэп: ";
                           Lit (if gtb avgGap (ofZ 0) then "+" else "");
                           Fixed 5 avgGap] |} ]
         else []
       else [])
  end.

(** the average of [high - low] over the last 20 candles *)
Definition avgRangeOf (previousCandles : list Candle.CandleData) : num :=
  div (fold_left (fun sum c => add sum (sub (Candle.high c) (Candle.low c)))
         (lastN 20 previousCandles) (ofZ 0))
      (ofZ 20).

(** [getSuggestionsForHigh] *)
Definition getSuggestionsForHigh (formData : PartialForm)
    (previousCandles : list Candle.CandleData) : list AutocompleteOption :=
  let open := parsed (open formData) in
  let low := parsed (low formData) in
  let close := parsed (close formData) in
  let minHigh := maxOf [orZero open; orZero low; orZero close] in
  (if gtb minHigh (ofZ 0) then
     [ {| value := toFixed5 minHigh;
          label := labelled minHigh " (Минимально допустимое)";
          confidence := 80;
          reason := lit "High должен быть >= Open, Low, Close" |} ]
   else []) ++
  (if (20 <=? List.length previousCandles)%nat then
     let avgRange := avgRangeOf previousCandles in
     if given open && given low then
       let suggestedHigh := add (maxOf [the open; the low]) avgRange in
       [ {| value := toFixed5 suggestedHigh;
            label := labelled suggestedHigh " (На основе среднего диапазона)";
            confidence := 70;
            reason := [Lit "Средний диапазон: "; Fixed 5 avgRange] |} ]
     else []
   else []).

(** the fields that are not [null] *)
Definition present (xs : list (option num)) : list num :=
  List.concat (List.map (fun x => match x with Some v => [v] | None => [] end) xs).

(** [getSuggestionsForLow] *)
Definition getSuggestionsForLow (formData : PartialForm)
    (previousCandles : list Candle.CandleData) : list AutocompleteOption :=
  let open := parsed (open formData) in
  let high := parsed (high formData) in
  let close := parsed (close formData) in
  let maxLow := minOf (present [open; high; close]) in
  (if gtb maxLow (ofZ 0) then
     [ {| value := toFixed5 maxLow;
          label := labelled maxLow " (Максимально допустимое)";
          confidence := 80;
          reason := lit "Low должен быть <= Open, High, Close" |} ]
   else []) ++
  (if (20 <=? List.length previousCandles)%nat && given high then
     let avgRange := avgRangeOf previousCandles in
     let suggestedLow := sub (the high) avgRange in
     [ {| value := toFixed5 suggestedLow;
          label := labelled suggestedLow " (На основе среднего диапазона)";
          confidence := 70;
          reason := [Lit "Средний диапазон: "; Fixed 5 avgRange] |} ]
   else []).

(** the suggestions of [getSuggestionsForClose] in the order they are
    pushed, before the final sort *)
Definition closeCandidates (formData : PartialForm)
    (previousCandles : list Candle.CandleData) : list AutocompleteOption :=
  let open := parsed (open formData) in
  let high := parsed (high formData) in
  let low := parsed (low formData) in
  (if given open && given high && given low then
     let bullishClose :=
       add (the open) (mul (sub (the high) (the low)) (Fin (7 # 10))) in
     let bearishClose :=
       sub (the open) (mul (sub (the high) (the low)) (Fin (7 # 10))) in
     [ {| value := toFixed5 (the open);
          label := labelled (the open) " (Доджи)";
          confidence := 50;
          reason := lit "Close = Open (нейтральная свеча)" |};
       {| value := toFixed5 bullishClose;
          label := labelled bullishClose " (Бычья свеча)";
          confidence := 60;
          reason := lit "Закрытие около максимума" |};
       {| value := toFixed5 bearishClose;
          label := labelled bearishClose " (Медвежья свеча)";
          confidence := 60;
          reason := lit "Закрытие около минимума" |} ]
   else []) ++
  (if (5 <=? List.length previousCandles)%nat then
     let last5 := lastN 5 previousCandles in
     let bullishCount :=
       List.length (List.filter (fun c => gtb (Candle.close c) (Candle.open c)) last5) in
     if given open && given high && given low then
       if (4 <=? bullishCount)%nat then
         let trendClose :=
           add (the open) (mul (sub (the high) (the open)) (Fin (8 # 10))) in
         [ {| value := toFixed5 trendClose;
              label := labelled trendClose " (Продолжение тренда)";
              confidence := 75;
              reason := lit "Сильный восходящий тренд" |} ]
       else if (bullishCount <=? 1)%nat then
         let trendClose :=
           sub (the open) (mul (sub (the open) (the low)) (Fin (8 # 10))) in
         [ {| value := toFixed5 trendClose;
              label := labelled trendClose " (Продолжение тренда)";
              confidence := 75;
              reason := lit "Сильный нисходящий тренд" |} ]
       else []
     else []
   else []).

(** [getSuggestionsForClose] *)
Definition getSuggestionsForClose (formData : PartialForm)
    (previousCandles : list Candle.CandleData) : list AutocompleteOption :=
  sort lessConfident (closeCandidates formData previousCandles).

(** [volumes[Math.floor(volumes.length / 2)]] *)
Definition middle (volumes : list num) : num :=
  List.nth (List.length volumes / 2) volumes NaN.

(** the suggestions of [getSuggestionsForVolume] in the order they are
    pushed, before the final sort *)
Definition volumeCandidates (previousCandles : list Candle.CandleData)
  : list AutocompleteOption :=
  match List.last (List.map Some previousCandles) None with
  | None => []
  | Some lastCandle =>
      {| value := [Str (Candle.volume lastCandle)];
         label := [Locale (Candle.volume lastCandle); Lit " (Предыдущий объем)"];
         confidence := 70;
         reason := lit "Объем предыдущей свечи" |} ::
      (if (20 <=? List.length previousCandles)%nat then
         let avgVolume :=
           round (div (fold_left (fun sum c => add sum (Candle.volume c))
                         (lastN 20 previousCandles) (ofZ 0))
                      (ofZ 20)) in
         [ {| value := [Str avgVolume];
              label := [Locale avgVolume; Lit " (Средний объем)"];
              confidence := 85;
              reason := lit "Средний объем за 20 свечей" |} ]
       else []) ++
      (if (10 <=? List.length previousCandles)%nat then
         let volumes := sort greater (List.map Candle.volume (lastN 10 previousCandles)) in
         let medianVolume := middle volumes in
         [ {| value := [Str medianVolume];
              label := [Locale medianVolume; Lit " (Медианный объем)"];
              confidence := 80;
              reason := lit "Медианный объем за 10 свечей" |} ]
       else [])
  end.

(** [getSuggestionsForVolume] *)
Definition getSuggestionsForVolume (previousCandles : list Candle.CandleData)
  : list AutocompleteOption :=
  sort lessConfident (volumeCandidates previousCandles).

(** [getSuggestions]: the dispatch on the field.  No branch throws, so
    the handler that returns the empty list is never entered. *)
Definition getSuggestions (field : Form.fieldName) (formData : PartialForm)
    (previousCandles : list Candle.CandleData) : list AutocompleteOption :=
  match field with
  | Form.Open => getSuggestionsForOpen previousCandles
  | Form.High => getSuggestionsForHigh formData previousCandles
  | Form.Low => getSuggestionsForLow formData previousCandles
  | Form.Close => getSuggestionsForClose formData previousCandles
  | Form.Volume => getSuggestionsForVolume previousCandles
  end.

(** the suggestions of a field in the order the service pushes them *)
Definition pushed (field : Form.fieldName) (formData : PartialForm)
    (previousCandles : list Candle.CandleData) : list AutocompleteOption :=
  match field with
  | Form.Open => getSuggestionsForOpen previousCandles
  | Form.High => getSuggestionsForHigh formData previousCandles
  | Form.Low => getSuggestionsForLow formData previousCandles
  | Form.Close => closeCandidates formData previousCandles
  | Form.Volume => volumeCandidates previousCandles
  end.

End Autocomplete.

(** ** CandleIndexService

    The three maps of the static [indices].  The key of [byTimestamp] is
    [new Date(candle_datetime).getTime()], a number or NaN ([None]); a map
    treats NaN as one key.  How a date text is read is the engine's, so the
    reading is an argument. *)

Module Index.

Record CandleIndex : Type := {
  byId : gmap string Candle.CandleData;
  bySessionId : gmap string (list Candle.CandleData);
  byTimestamp : gmap (option Z) Candle.CandleData
}.

(** [clearIndices] *)
Definition clearIndices : CandleIndex :=
  {| byId := ∅; bySessionId := ∅; byTimestamp := ∅ |}.

(** the identifier when it is truthy *)
Definition idOf (candle : Candle.CandleData) : option string :=
  match Candle.id candle with
  | Some i => if String.eqb i "" then None else Some i
  | None => None
  end.

(** [c.id === candleId] *)
Definition hasId (candleId : string) (c : Candle.CandleData) : bool :=
  match Candle.id c with
  | Some i => String.eqb i candleId
  | None => false
  end.

(** [l.findIndex(pred)] then [l.splice(index, 1)] when an index is found *)
Fixpoint removeFirst {A : Type} (pred : A -> bool) (l : list A) : list A :=
  match l with
  | [] => []
  | x :: l' => if pred x then l' else x :: removeFirst pred l'
  end.

Section WithDates.
Variable getTime : string -> option Z.

(** the three updates [buildIndices] and [addCandle] both make for one
    candle *)
Definition indexCandle (indices : CandleIndex) (candle : Candle.CandleData)
  : CandleIndex :=
  let byId' :=
    match idOf candle with
    | Some i => <[i := candle]> (byId indices)
    | None => byId indices
    end in
  let bucket :=
    match bySessionId indices !! Candle.session_id candle with
    | Some candles => candles
    | None => []
    end in
  let bySessionId' :=
    <[Candle.session_id candle := bucket ++ [candle]]> (bySessionId indices) in
  let timestamp := getTime (Candle.candle_datetime candle) in
  {| byId := byId';
     bySessionId := bySessionId';
     byTimestamp := <[timestamp := candle]> (byTimestamp indices) |}.

(** [buildIndices]: clear, then index every candle in order *)
Definition buildIndices (candles : list Candle.CandleData) : CandleIndex :=
  fold_left indexCandle candles clearIndices.

(** [addCandle] *)
Definition addCandle (candle : Candle.CandleData) (indices : CandleIndex)
  : CandleIndex :=
  indexCandle indices candle.

(** [removeCandle] *)
Definition removeCandle (candleId : string) (indices : CandleIndex) : CandleIndex :=
  match byId indices !! candleId with
  | None => indices
  | Some candle =>
      let bySessionId' :=
        match bySessionId indices !! Candle.session_id candle with
        | Some sessionCandles =>
            <[Candle.session_id candle := removeFirst (hasId candleId) sessionCandles]>
              (bySessionId indices)
        | None => bySessionId indices
        end in
      let timestamp := getTime (Candle.candle_datetime candle) in
      {| byId := delete candleId (byId indices);
         bySessionId := bySessionId';
         byTimestamp := delete timestamp (byTimestamp indices) |}
  end.

(** [getCandleById], [getCandlesBySessionId], [getCandleByTimestamp] *)
Definition getCandleById (id : string) (indices : CandleIndex)
  : option Candle.CandleData := byId indices !! id.

Definition getCandlesBySessionId (sessionId : string) (indices : CandleIndex)
  : list Candle.CandleData :=
  match bySessionId indices !! sessionId with
  | Some candles => candles
  | None => []
  end.

Definition getCandleByTimestamp (timestamp : option Z) (indices : CandleIndex)
  : option Candle.CandleData := byTimestamp indices !! timestamp.

(** [getStatistics] *)
Definition getStatistics (indices : CandleIndex) : nat * nat * nat :=
  (size (byId indices), size (bySessionId indices), size (byTimestamp indices)).

(** the operations of incremental maintenance *)
Inductive Operation : Type :=
| addOne (candle : Candle.CandleData)
| removeOne (candleId : string).

Definition apply (indices : CandleIndex) (operation : Operation) : CandleIndex :=
  match operation with
  | addOne candle => addCandle candle indices
  | removeOne candleId => removeCandle candleId indices
  end.

(** the record with a given identifier, a truthy one *)
Definition isRecord (candleId : string) (c : Candle.CandleData) : bool :=
  match idOf c with
  | Some i => String.eqb i candleId
  | None => false
  end.

(** the record set the operations describe: an added record joins the
    set, a removed identifier takes its record out *)
Definition applyToRecords (records : list Candle.CandleData) (operation : Operation)
  : list Candle.CandleData :=
  match operation with
  | addOne candle => records ++ [candle]
  | removeOne candleId => removeFirst (isRecord candleId) records
  end.

(** the records of a session, in order *)
Definition ofSession (sessionId : string) (records : list Candle.CandleData)
  : list Candle.CandleData :=
  List.filter (fun c => String.eqb (Candle.session_id c) sessionId) records.

Definition timestampOf (c : Candle.CandleData) : option Z :=
  getTime (Candle.candle_datetime c).

(** the identifiers of a record set, those that are truthy, are
    pairwise distinct *)
Definition distinctIds (records : list Candle.CandleData) : Prop :=
  NoDup (omap idOf records).

(** the instants of a record set are pairwise distinct *)
Definition distinctInstants (records : list Candle.CandleData) : Prop :=
  NoDup (List.map timestampOf records).

(** a condition holds of the record set before and after every
    operation *)
Fixpoint throughout (condition : list Candle.CandleData -> Prop)
    (records : list Candle.CandleData) (operations : list Operation) : Prop :=
  condition records /\
  match operations with
  | [] => True
  | operation :: later => throughout condition (applyToRecords records operation) later
  end.

(** an entry of [byTimestamp] that a rebuild of the records has too *)
Definition instantsWithin (indices : CandleIndex) (records : list Candle.CandleData)
  : Prop :=
  forall timestamp candle,
    byTimestamp indices !! timestamp = Some candle ->
    byTimestamp (buildIndices records) !! timestamp = Some candle.

(** incrementally kept indices agree with the rebuild of a record set:
    the same [byId], for every session the same list of records, and no
    entry of [byTimestamp] that the rebuild has not *)
Definition agrees (indices : CandleIndex) (records : list Candle.CandleData) : Prop :=
  byId indices = byId (buildIndices records) /\
  (forall s, getCandlesBySessionId s indices = ofSession s records) /\
  instantsWithin indices records.
End WithDates.

End Index.

(** ** CandleSecurityService: escaping, and what the limiter keeps *)

Module Html.
Import Chars.

(** the replacement table of [escapeHtml] *)
Definition entity (c : ascii) : option string :=
  if isChar "&" c then Some "&amp;"
  else if isChar "<" c then Some "&lt;"
  else if isChar ">" c then Some "&gt;"
  else if Ascii.eqb c Security.dquote then Some "&quot;"
  else if isChar "'" c then Some "&#x27;"
  else if isChar "/" c then Some "&#x2F;"
  else None.

(** what one character of the class of [escapeHtml] is replaced with; any
    other character stays *)
Definition escapeChar (c : ascii) : chars :=
  match entity c with
  | Some replacement => ofString replacement
  | None => [c]
  end.

(** [escapeHtml] on a string argument *)
Definition escapeHtml (unsafe : string) : string :=
  toString (List.concat (List.map escapeChar (ofString unsafe))).

(** the characters that open or close a tag or an attribute value *)
Definition isMarkup (c : ascii) : bool :=
  isChar "<" c || isChar ">" c || Ascii.eqb c Security.dquote ||
  isChar "'" c || isChar "/" c.

(** the six characters of the class of [escapeHtml] *)
Definition isSpecial (c : ascii) : bool :=
  match entity c with Some _ => true | None => false end.
End Html.

Module Quota.
Import Security.

(** every window of the map has counted at least one call and at most the
    quota *)
Definition withinQuota (m : RateLimitMap) : Prop :=
  map_Forall (fun _ window => 1 <= count window <= MAX_REQUESTS_PER_WINDOW) m.

(** what [cleanupRateLimitMap] leaves of one entry *)
Definition kept (now : Z) (entry : option Window) : option Window :=
  match entry with
  | Some window => if now >? resetTime window then None else Some window
  | None => None
  end.
End Quota.

(** ** CandleCacheService

    The static [validationCache] is a [Map]: its keys are distinct and it
    iterates in insertion order, which is the order [evictLRU] breaks ties
    in.  It is kept as the list of its entries, oldest insertion first;
    [Date.now()] is an argument. *)

Module Cache.

Record CacheEntry (T : Type) : Type := {
  value : T;
  timestamp : Z;
  accessCount : Z
}.
Arguments value {T} _.
Arguments timestamp {T} _.
Arguments accessCount {T} _.

Definition maxSize : nat := 100.
Definition ttl : Z := 5 * 60 * 1000.

(** [generateKey] *)
Definition generateKey (data : Form.CandleFormData) : string :=
  Form.open data +:+ "|" +:+ Form.high data +:+ "|" +:+ Form.low data +:+ "|" +:+
  Form.close data +:+ "|" +:+ Form.volume data.

(** a field without the separator of the key *)
Definition barFree (s : string) : bool :=
  negb (Chars.includes "|" (Chars.ofString s)).

Section Entries.
Context {T : Type}.

Definition Entries : Type := list (string * CacheEntry T).

(** [Map.prototype.get] *)
Fixpoint mapGet (key : string) (cache : Entries) : option (CacheEntry T) :=
  match cache with
  | [] => None
  | (k, entry) :: rest => if String.eqb k key then Some entry else mapGet key rest
  end.

(** [Map.prototype.set]: a key that is present keeps its place *)
Fixpoint mapSet (key : string) (entry : CacheEntry T) (cache : Entries) : Entries :=
  match cache with
  | [] => [(key, entry)]
  | (k, old) :: rest =>
      if String.eqb k key then (k, entry) :: rest
      else (k, old) :: mapSet key entry rest
  end.

(** [Map.prototype.delete] *)
Definition mapDelete (key : string) (cache : Entries) : Entries :=
  List.filter (fun kv => negb (String.eqb (fst kv) key)) cache.

(** [getValidation]: the cache left and the value returned, [None] for
    [null] *)
Definition getValidation (data : Form.CandleFormData) (now : Z) (cache : Entries)
  : Entries * option T :=
  let key := generateKey data in
  match mapGet key cache with
  | None => (cache, None)
  | Some entry =>
      if now - timestamp entry >? ttl then (mapDelete key cache, None)
      else
        (mapSet key {| value := value entry;
                       timestamp := now;
                       accessCount := accessCount entry + 1 |} cache,
         Some (value entry))
  end.

Definition score (entry : CacheEntry T) : Z :=
  accessCount entry * 1000 + timestamp entry.

(** one turn of the loop of [evictLRU].  The candidate is [None] while
    [lruKey] is [null], when both [lruTimestamp] and [lruAccessCount]
    are [Infinity] and every score is below [currentScore]. *)
Definition lruStep (lru : option (string * Z * Z)) (kv : string * CacheEntry T)
  : option (string * Z * Z) :=
  let '(key, entry) := kv in
  let below :=
    match lru with
    | None => true
    | Some (_, lruTimestamp, lruAccessCount) =>
        score entry <? lruAccessCount * 1000 + lruTimestamp
    end in
  if below then Some (key, timestamp entry, accessCount entry) else lru.

(** [evictLRU] *)
Definition evictLRU (cache : Entries) : Entries :=
  match fold_left lruStep cache None with
  | Some (lruKey, _, _) =>
      if String.eqb lruKey "" then cache else mapDelete lruKey cache
  | None => cache
  end.

(** [setValidation] *)
Definition setValidation (data : Form.CandleFormData) (result : T) (now : Z)
    (cache : Entries) : Entries :=
  let key := generateKey data in
  let cache' := if (maxSize <=? List.length cache)%nat then evictLRU cache else cache in
  mapSet key {| value := result; timestamp := now; accessCount := 1 |} cache'.

(** [clear] *)
Definition clear : Entries := [].

(** the calls a client makes of the cache *)
Inductive Operation : Type :=
| Keep (data : Form.CandleFormData) (result : T) (now : Z)
| Fetch (data : Form.CandleFormData) (now : Z).

Definition apply (cache : Entries) (operation : Operation) : Entries :=
  match operation with
  | Keep data result now => setValidation data result now cache
  | Fetch data now => fst (getValidation data now cache)
  end.

(** the keys of a map are distinct, and the ones of this cache are never
    empty *)
Definition wellFormed (cache : Entries) : Prop :=
  NoDup (List.map fst cache) /\ Forall (fun kv => fst kv <> "") cache.
End Entries.

End Cache.

(** ** CandleInputCore: the history as one line of records *)

Module Timeline.
(** the records of the history in commit order: the ones that can be
    undone, then the undone ones, the next to redo first *)
Definition timeline (c : Core.CandleInputCore) : list Candle.CandleData :=
  Core.undoStack c ++ List.rev (Core.redoStack c).
End Timeline.

(** ** CandleInputStore: the candles

    The fields of the store that [addCandle] and [removeCandle] read or
    write.  [addCandle] fills the open field of the form with the printed
    close of the candle, so the fields of the form are texts;
    [Date.now()] is an argument. *)

Module StoreCandles.

(** the form of the store: five texts *)
Record FormText : Type := {
  open : Text.text;
  high : Text.text;
  low : Text.text;
  close : Text.text;
  volume : Text.text
}.

Record State : Type := {
  formData : FormText;
  candles : list Candle.CandleData;
  lastSavedCandle : option Candle.CandleData;
  history : Store.History
}.

Definition initialFormData : FormText :=
  {| open := Text.lit ""; high := Text.lit ""; low := Text.lit "";
     close := Text.lit ""; volume := Text.lit "" |}.

Definition initialState : State :=
  {| formData := initialFormData;
     candles := [];
     lastSavedCandle := None;
     history := Store.initialState |}.

(** [addCandle] *)
Definition addCandle (candle : Candle.CandleData) (now : Z) (state : State) : State :=
  {| formData :=
       {| open := [Text.Str (Candle.close candle)];
          high := high initialFormData;
          low := low initialFormData;
          close := close initialFormData;
          volume := volume initialFormData |};
     candles := candles state ++ [candle];
     lastSavedCandle := Some candle;
     history :=
       Store.recordOperation
         {| Store.type := Store.add;
            Store.candle := candle;
            Store.timestamp := now;
            Store.sessionId := Candle.session_id candle |}
         (history state) |}.

(** [removeCandle] *)
Definition removeCandle (candleId : string) (now : Z) (state : State) : State :=
  match List.find (Index.hasId candleId) (candles state) with
  | None => state
  | Some candle =>
      {| formData := formData state;
         candles := List.filter (fun c => negb (Index.hasId candleId c)) (candles state);
         lastSavedCandle := lastSavedCandle state;
         history :=
           Store.recordOperation
             {| Store.type := Store.remove;
                Store.candle := candle;
                Store.timestamp := now;
                Store.sessionId := Candle.session_id candle |}
             (history state) |}
  end.

End StoreCandles.

(** ** CandleAutocompleteService: filling the whole form *)

Module AutoFill.
Import JsNum Text.

(** the five numbers of the generated candle, before they are printed *)
Record Proposal : Type := {
  open : num;
  high : num;
  low : num;
  close : num;
  volume : num
}.

Definition proposal (previousCandles : list Candle.CandleData) : option Proposal :=
  match List.last (List.map Some previousCandles) None with
  | None => None
  | Some lastCandle =>
      let avgRange :=
        if (20 <=? List.length previousCandles)%nat
        then Autocomplete.avgRangeOf previousCandles
        else sub (Candle.high lastCandle) (Candle.low lastCandle) in
      let avgVolume :=
        if (20 <=? List.length previousCandles)%nat
        then round (div (fold_left (fun sum c => add sum (Candle.volume c))
                           (Autocomplete.lastN 20 previousCandles) (ofZ 0))
                        (ofZ 20))
        else Candle.volume lastCandle in
      let last5 := Autocomplete.lastN 5 previousCandles in
      let bullishCount :=
        List.length (List.filter (fun c => gtb (Candle.close c) (Candle.open c)) last5) in
      let isBullish := (3 <=? bullishCount)%nat in
      let open := Candle.close lastCandle in
      let high := add open (mul avgRange (Fin (7 # 10))) in
      let low := sub open (mul avgRange (Fin (3 # 10))) in
      let close :=
        if isBullish then add open (mul avgRange (Fin (5 # 10)))
        else sub open (mul avgRange (Fin (5 # 10))) in
      Some {| open := open;
              high := maxOf [open; high; close];
              low := minOf [open; low; close];
              close := close;
              volume := avgVolume |}
  end.

(** the record of five texts [autoFillAllFields] returns *)
Record Filled : Type := {
  openText : text;
  highText : text;
  lowText : text;
  closeText : text;
  volumeText : text
}.

(** [autoFillAllFields]; [None] for [null].  Nothing in the body throws,
    so its handler is never entered. *)
Definition autoFillAllFields (previousCandles : list Candle.CandleData)
  : option Filled :=
  match proposal previousCandles with
  | None => None
  | Some p =>
      Some {| openText := [Fixed 5 (open p)];
              highText := [Fixed 5 (high p)];
              lowText := [Fixed 5 (low p)];
              closeText := [Fixed 5 (close p)];
              volumeText := [Str (volume p)] |}
  end.

End AutoFill.

(** ** CandleIndexService: the queries over a session

    [Array.prototype.sort] sorts the array it is called on, and the array
    [getCandlesBySessionId] returns is the one the index holds: the query
    for the latest candles returns the index it leaves as well.  The sort
    is the stable one; the order it gives is fixed by the language when the
    candle indices are finite numbers, which makes the comparator
    consistent. *)

Module IndexQuery.
Import JsNum Index.

(** [l.slice(0, count)] for a number [count] *)
Definition sliceCount {A : Type} (count : num) (l : list A) : list A :=
  match count with
  | NaN | NInf => []
  | PInf => l
  | Fin q => Store.sliceTo (Z.quot (Qnum q) (Zpos (Qden q))) l
  end.

(** [(a, b) => b.candle_index - a.candle_index] is positive *)
Definition lowerIndex (a b : Candle.CandleData) : bool :=
  gtb (sub (Candle.candle_index b) (Candle.candle_index a)) (ofZ 0).

(** no candle before one with a greater index *)
Definition indexDescending (a b : Candle.CandleData) : Prop :=
  leb (Candle.candle_index b) (Candle.candle_index a) = true.

(** [getLatestCandles] *)
Definition getLatestCandles (sessionId : string) (count : num) (indices : CandleIndex)
  : CandleIndex * list Candle.CandleData :=
  match bySessionId indices !! sessionId with
  | Some sessionCandles =>
      let sorted := Autocomplete.sort lowerIndex sessionCandles in
      ({| byId := byId indices;
          bySessionId := <[sessionId := sorted]> (bySessionId indices);
          byTimestamp := byTimestamp indices |},
       sliceCount count sorted)
  | None => (indices, sliceCount count (Autocomplete.sort lowerIndex []))
  end.

(** [getCandlesByIndexRange] *)
Definition inIndexRange (startIndex endIndex : num) (candle : Candle.CandleData) : bool :=
  geb (Candle.candle_index candle) startIndex &&
  leb (Candle.candle_index candle) endIndex.

Section WithDates.
Variable getTime : string -> option Z.

Definition getCandlesByIndexRange (sessionId : string) (startIndex endIndex : num)
    (indices : CandleIndex) : list Candle.CandleData :=
  List.filter (inIndexRange startIndex endIndex)
    (getCandlesBySessionId sessionId indices).

(** the test of [getCandlesInRange]; a date that cannot be read gives
    NaN, which compares false *)
Definition inTimeRange (startTimestamp endTimestamp : option Z)
    (candle : Candle.CandleData) : bool :=
  match getTime (Candle.candle_datetime candle), startTimestamp, endTimestamp with
  | Some timestamp, Some start, Some stop => (start <=? timestamp) && (timestamp <=? stop)
  | _, _, _ => false
  end.

(** [getCandlesInRange]; the two dates are given by their [getTime()] *)
Definition getCandlesInRange (sessionId : string)
    (startTimestamp endTimestamp : option Z) (indices : CandleIndex)
  : list Candle.CandleData :=
  List.filter (inTimeRange startTimestamp endTimestamp)
    (getCandlesBySessionId sessionId indices).
End WithDates.

End IndexQuery.

(** ** Reference formats and sample data

    Instances of what the services take from outside, for the places where
    a statement is checked on concrete data: the two string formats of the
    validation library in the shape its version 3 gives them (the digits
    are not checked for the range of a month, a day or an hour), and the
    reading of a UTC date-time.  The theorems take the formats and the
    reading as arguments; the instances are applied to the sample texts
    only. *)

Module Reference.
Import Chars.

Definition isHex (c : ascii) : bool :=
  isDigit c ||
  ((97 <=? code c)%N && (code c <=? 102)%N) ||
  ((65 <=? code c)%N && (code c <=? 70)%N).

(** a text against a template, one class for each character *)
Fixpoint fits (template : list (ascii -> bool)) (s : chars) : bool :=
  match template, s with
  | [], [] => true
  | k :: template', c :: s' => k c && fits template' s'
  | _, _ => false
  end.

Definition hex (n : nat) : list (ascii -> bool) := List.repeat isHex n.
Definition digits (n : nat) : list (ascii -> bool) := List.repeat isDigit n.
Definition just (x : ascii) : list (ascii -> bool) := [isChar x].

(** 8-4-4-4-12 hexadecimal digits *)
Definition zodUuid (s : string) : bool :=
  fits (hex 8 ++ just "-" ++ hex 4 ++ just "-" ++ hex 4 ++ just "-" ++ hex 4 ++
        just "-" ++ hex 12)
       (ofString s).

(** [YYYY-MM-DDTHH:MM:SS], an optional fraction, [Z] *)
Definition zodDatetime (s : string) : bool :=
  let cs := ofString s in
  let head := firstn 19 cs in
  let rest := skipn 19 cs in
  fits (digits 4 ++ just "-" ++ digits 2 ++ just "-" ++ digits 2 ++ just "T" ++
        digits 2 ++ just ":" ++ digits 2 ++ just ":" ++ digits 2) head &&
  match rest with
  | [z] => isChar "Z" z
  | dot :: fraction =>
      isChar "." dot &&
      match Stack.pop fraction with
      | Some (ds, z) => isChar "Z" z && (1 <=? List.length ds)%nat && forallb isDigit ds
      | None => false
      end
  | [] => false
  end.

(** a date-time of the form [YYYY-MM-DDTHH:MM:SSZ] or
    [YYYY-MM-DDTHH:MM:SS.sssZ], in UTC, as milliseconds since the epoch;
    the other texts a date can be written as are not read ([None]) *)
Definition number (cs : chars) : Z := JsNum.digitsValue cs.

Definition daysFromCivil (y m d : Z) : Z :=
  let y' := if m <=? 2 then y - 1 else y in
  let era := y' / 400 in
  let yoe := y' - era * 400 in
  let doy := (153 * (if 2 <? m then m - 3 else m + 9) + 2) / 5 + d - 1 in
  let doe := yoe * 365 + yoe / 4 - yoe / 100 + doy in
  era * 146097 + doe - 719468.

Definition getTime (s : string) : option Z :=
  let cs := ofString s in
  let seconds :=
    digits 4 ++ just "-" ++ digits 2 ++ just "-" ++ digits 2 ++ just "T" ++
    digits 2 ++ just ":" ++ digits 2 ++ just ":" ++ digits 2 in
  let part (from len : nat) := number (firstn len (skipn from cs)) in
  let days := daysFromCivil (part 0%nat 4%nat) (part 5%nat 2%nat) (part 8%nat 2%nat) in
  let whole :=
    (((days * 24 + part 11%nat 2%nat) * 60 + part 14%nat 2%nat) * 60
     + part 17%nat 2%nat) * 1000 in
  if fits (seconds ++ just "Z") cs then Some whole
  else if fits (seconds ++ just "." ++ digits 3 ++ just "Z") cs
  then Some (whole + part 20%nat 3%nat)
  else None.
End Reference.

Module Samples.

Definition session : Session.TradingSession :=
  {| Session.id := "123e4567-e89b-12d3-a456-426614174000";
     Session.session_name := "EURUSD M5" |}.

Definition formA : Form.CandleFormData :=
  {| Form.open := "1.0850"; Form.high := "1.0870"; Form.low := "1.0840";
     Form.close := "1.0860"; Form.volume := "1000000" |}.

Definition formB : Form.CandleFormData :=
  {| Form.open := "1.0860"; Form.high := "1.0890"; Form.low := "1.0855";
     Form.close := "1.0880"; Form.volume := "1200000" |}.

Definition formC : Form.CandleFormData :=
  {| Form.open := "1.0860"; Form.high := "1.0865"; Form.low := "1.0830";
     Form.close := "1.0835"; Form.volume := "900000" |}.

(** the second scenario of the structural validator: [high] below
    [open] and [close] *)
Definition formLowHigh : Form.CandleFormData :=
  {| Form.open := "1.0850"; Form.high := "1.0800"; Form.low := "1.0840";
     Form.close := "1.0860"; Form.volume := "1000000" |}.

Definition scriptTag : string := "<script>alert(1)</script>".

Definition formScript : Form.CandleFormData :=
  {| Form.open := scriptTag; Form.high := "1"; Form.low := "1";
     Form.close := "1"; Form.volume := "1000" |}.

Definition datetime : string := "2024-01-01T00:00:00Z".
Definition createdAt : string := "2024-01-01T00:00:05.000Z".

(** the candles the core builds from the sample forms *)
Definition candleOf (form : Form.CandleFormData) (index : Z) : Candle.CandleData :=
  Core.formDataToCandleData (Core.create session None None) createdAt
    (Core.sanitize form) (JsNum.ofZ index) datetime.

Definition candleA : Candle.CandleData := candleOf formA 0.
Definition candleB : Candle.CandleData := candleOf formB 1.
Definition candleC : Candle.CandleData := candleOf formC 1.

(** a form under edition with the open price only *)
Definition partialOpen : Autocomplete.PartialForm :=
  {| Autocomplete.open := Some "1.5";
     Autocomplete.high := None;
     Autocomplete.low := None;
     Autocomplete.close := None;
     Autocomplete.volume := None |}.

(** an error or success callback that returns, as a toast does *)
Definition toast : Js.Callback string := fun _ => None.

(** a callback that throws whatever it is called with *)
Definition brokenToast : Js.Callback string :=
  fun _ => Some (Js.ErrorObject "toast failed").

(** a persistence callback that always fails *)
Definition storageDown (candle : Candle.CandleData) : option Js.Thrown :=
  Some (Js.ErrorObject "storage unavailable").

(** [n] commits of the first form, one per second, with indices from 0 *)
Definition commits (n : nat) : list Core.Request :=
  List.map (fun i => Core.Commit (1000 * Z.of_nat i) createdAt formA
                       (JsNum.ofZ (Z.of_nat i)) datetime None)
           (List.seq 0 n).

(** stored candles: with an identifier and their own instant *)
Definition stored (id : string) (sessionId : string) (time : string)
    (form : Form.CandleFormData) : Candle.CandleData :=
  let c := candleOf form 0 in
  {| Candle.id := Some id;
     Candle.session_id := sessionId;
     Candle.candle_index := Candle.candle_index c;
     Candle.open := Candle.open c;
     Candle.high := Candle.high c;
     Candle.low := Candle.low c;
     Candle.close := Candle.close c;
     Candle.volume := Candle.volume c;
     Candle.candle_datetime := time;
     Candle.spread := Candle.spread c;
     Candle.created_at := Candle.created_at c;
     Candle.prediction_direction := None;
     Candle.prediction_probability := None;
     Candle.prediction_confidence := None |}.

Definition storedA : Candle.CandleData :=
  stored "a" "s1" "2024-01-01T00:00:00Z" formA.
Definition storedB : Candle.CandleData :=
  stored "b" "s1" "2024-01-01T00:05:00Z" formB.
Definition storedC : Candle.CandleData :=
  stored "c" "s2" "2024-01-01T00:10:00Z" formC.

End Samples.
Module SanitizerFacts.
Import Chars Sanitizer.

Lemma countChar_nil x : countChar x [] = 0%nat.
Proof. reflexivity. Qed.

Lemma countChar_cons x c s :
  countChar x (c :: s) = ((if isChar x c then 1 else 0) + countChar x s)%nat.
Proof. unfold countChar. simpl. destruct (isChar x c); reflexivity. Qed.

Lemma countChar_app x s t :
  countChar x (s ++ t) = (countChar x s + countChar x t)%nat.
Proof. unfold countChar. rewrite List.filter_app, List.length_app. reflexivity. Qed.

Lemma countChar_firstn x n s : (countChar x (firstn n s) <= countChar x s)%nat.
Proof.
  revert n. induction s as [|c s IH]; intros [|n]; simpl; try lia.
  - rewrite countChar_cons. unfold countChar at 1. simpl. lia.
  - rewrite !countChar_cons. specialize (IH n). lia.
Qed.

Lemma countChar_removeChar_same x s : countChar x (removeChar x s) = 0%nat.
Proof.
  induction s as [|c s IH]; [reflexivity|].
  unfold removeChar in *. simpl. destruct (isChar x c) eqn:E; simpl; [exact IH|].
  rewrite countChar_cons, E. exact IH.
Qed.

Lemma countChar_removeChar_le x y s :
  (countChar x (removeChar y s) <= countChar x s)%nat.
Proof.
  induction s as [|c s IH]; [reflexivity|].
  unfold removeChar in *. simpl. destruct (isChar y c); simpl;
    rewrite ?countChar_cons; lia.
Qed.

Lemma removeChar_none x s : countChar x s = 0%nat -> removeChar x s = s.
Proof.
  induction s as [|c s IH]; [reflexivity|].
  rewrite countChar_cons. unfold removeChar in *. simpl.
  destruct (isChar x c); simpl; [lia|]. intros H. f_equal. apply IH. exact H.
Qed.

Lemma includes_count x s : includes x s = (0 <? countChar x s)%nat.
Proof.
  induction s as [|c s IH]; [reflexivity|].
  unfold includes in *. simpl. rewrite countChar_cons, IH.
  destruct (isChar x c); simpl; [reflexivity|].
  reflexivity.
Qed.

Lemma isChar_eq x c : isChar x c = true -> c = x.
Proof. unfold isChar. apply Ascii.eqb_eq. Qed.

(** *** split *)

Lemma split_length sep s : List.length (split sep s) = S (countChar sep s).
Proof.
  induction s as [|c s IH]; [reflexivity|].
  simpl. rewrite countChar_cons. destruct (isChar sep c); simpl.
  - rewrite IH. reflexivity.
  - destruct (split sep s) as [|p ps]; simpl in *; lia.
Qed.

Lemma split_none sep s : countChar sep s = 0%nat -> split sep s = [s].
Proof.
  induction s as [|c s IH]; [reflexivity|].
  rewrite countChar_cons. simpl. destruct (isChar sep c); [lia|].
  simpl. intros H. rewrite (IH H). reflexivity.
Qed.

Lemma split_at sep i r :
  countChar sep i = 0%nat -> split sep (i ++ sep :: r) = i :: split sep r.
Proof.
  induction i as [|c i IH]; simpl.
  - intros _. unfold isChar. rewrite Ascii.eqb_refl. reflexivity.
  - rewrite countChar_cons. destruct (isChar sep c); [lia|]. simpl. intros H.
    rewrite (IH H). reflexivity.
Qed.

Lemma first_sep sep s :
  (0 < countChar sep s)%nat ->
  exists i r, s = i ++ sep :: r /\ countChar sep i = 0%nat.
Proof.
  induction s as [|c s IH]; [rewrite countChar_nil; lia|].
  rewrite countChar_cons. destruct (isChar sep c) eqn:E.
  - intros _. exists [], s. apply isChar_eq in E. subst c. split; reflexivity.
  - simpl. intros H. destruct (IH H) as (i & r & -> & Hi).
    exists (c :: i), r. split; [reflexivity|]. rewrite countChar_cons, E. exact Hi.
Qed.

Lemma first_sep_unique sep i r i' r' :
  countChar sep i = 0%nat -> countChar sep i' = 0%nat ->
  i ++ sep :: r = i' ++ sep :: r' -> i = i' /\ r = r'.
Proof.
  revert i'. induction i as [|c i IH]; intros [|c' i']; simpl;
    rewrite ?countChar_cons; intros Hi Hi' Heq.
  - inversion Heq. split; reflexivity.
  - inversion Heq; subst c'. unfold isChar in Hi'. rewrite Ascii.eqb_refl in Hi'. lia.
  - inversion Heq; subst c. unfold isChar in Hi. rewrite Ascii.eqb_refl in Hi. lia.
  - inversion Heq; subst c'.
    destruct (isChar sep c); [lia|]. simpl in *.
    destruct (IH i' Hi Hi' H1) as [-> ->]. split; reflexivity.
Qed.

Lemma concat_split sep s : joinEmpty (split sep s) = removeChar sep s.
Proof.
  induction s as [|c s IH]; [reflexivity|].
  unfold joinEmpty, removeChar in *. simpl. destruct (isChar sep c); simpl; [exact IH|].
  destruct (split sep s) as [|p ps]; simpl in *; rewrite <- IH; reflexivity.
Qed.

(** *** the canonical form *)

Record canonical (s : chars) : Prop := {
  c_numeric : forallb isNumericChar s = true;
  c_dot : (countChar "." s <= 1)%nat;
  c_minus : countChar "-" (List.tl s) = 0%nat;
  c_decimals : forall i r, s = i ++ "."%char :: r -> countChar "." i = 0%nat ->
                           (List.length r <= 8)%nat;
  c_length : (List.length s <= 20)%nat
}.

Lemma collapseDots_eq s :
  collapseDots s =
    if (1 <? countChar "." s)%nat
    then match split "." s with
         | i :: parts => i ++ "."%char :: joinEmpty parts
         | [] => s
         end
    else s.
Proof.
  unfold collapseDots. rewrite split_length.
  destruct (countChar "." s) as [|[|n]]; simpl; try reflexivity.
  destruct (split "." s) eqn:E; [|reflexivity].
  pose proof (split_length "." s) as H. rewrite E in H. discriminate.
Qed.

Lemma collapseDots_spec s :
  (countChar "." s <= 1 /\ collapseDots s = s)%nat \/
  exists i r, s = i ++ "."%char :: r /\ countChar "." i = 0%nat /\
              collapseDots s = i ++ "."%char :: removeChar "." r.
Proof.
  rewrite collapseDots_eq.
  destruct (1 <? countChar "." s)%nat eqn:E.
  - right. apply Nat.ltb_lt in E.
    destruct (first_sep "." s) as (i & r & -> & Hi); [lia|].
    exists i, r. rewrite (split_at _ _ _ Hi), concat_split. auto.
  - left. apply Nat.ltb_ge in E. auto.
Qed.

Lemma limitDecimals_spec s :
  (countChar "." s <= 1)%nat ->
  (countChar "." s = 0%nat /\ limitDecimals s = s) \/
  exists i r, s = i ++ "."%char :: r /\ countChar "." i = 0%nat /\
              countChar "." r = 0%nat /\
              limitDecimals s = i ++ "."%char :: firstn 8 r.
Proof.
  intros Hdot. unfold limitDecimals. rewrite includes_count.
  destruct (0 <? countChar "." s)%nat eqn:E.
  - right. apply Nat.ltb_lt in E.
    destruct (first_sep "." s E) as (i & r & -> & Hi).
    assert (Hr : countChar "." r = 0%nat).
    { rewrite countChar_app, countChar_cons in Hdot. unfold isChar in Hdot.
      rewrite Ascii.eqb_refl in Hdot. lia. }
    exists i, r. rewrite (split_at _ _ _ Hi), (split_none _ _ Hr). auto.
  - left. apply Nat.ltb_ge in E. split; [lia | reflexivity].
Qed.

Lemma forallb_firstn {A} (f : A -> bool) n l :
  forallb f l = true -> forallb f (firstn n l) = true.
Proof.
  revert n. induction l as [|x l IH]; intros [|n]; simpl; auto.
  intros H. apply andb_true_iff in H as [-> H]. simpl. auto.
Qed.

Lemma forallb_filter_id {A} (f : A -> bool) l :
  forallb f l = true -> List.filter f l = l.
Proof.
  induction l as [|x l IH]; simpl; auto.
  intros H. apply andb_true_iff in H as [-> H]. f_equal. auto.
Qed.

Lemma forallb_filter_sub {A} (f g : A -> bool) l :
  forallb f l = true -> forallb f (List.filter g l) = true.
Proof.
  induction l as [|x l IH]; simpl; auto.
  intros H. apply andb_true_iff in H as [Hx H].
  destruct (g x); simpl; rewrite ?Hx; auto.
Qed.

Lemma forallb_filter_self {A} (f : A -> bool) l :
  forallb f (List.filter f l) = true.
Proof.
  induction l as [|x l IH]; simpl; auto.
  destruct (f x) eqn:E; simpl; rewrite ?E; auto.
Qed.

(** every stage keeps the characters numeric *)
Lemma numeric_collapseDots s :
  forallb isNumericChar s = true -> forallb isNumericChar (collapseDots s) = true.
Proof.
  intros H. destruct (collapseDots_spec s) as [[_ ->]|(i & r & -> & _ & ->)]; [exact H|].
  rewrite forallb_app in *. apply andb_true_iff in H as [Hi Hr].
  change (forallb isNumericChar ("."%char :: r)) with (forallb isNumericChar r) in Hr.
  cbn [forallb]. change (isNumericChar ".") with true.
  rewrite Hi. simpl. apply forallb_filter_sub. exact Hr.
Qed.

Lemma numeric_collapseMinus s :
  forallb isNumericChar s = true -> forallb isNumericChar (collapseMinus s) = true.
Proof.
  intros H. unfold collapseMinus.
  destruct (1 <? countChar "-" s)%nat; [|exact H].
  destruct (startsWith "-" s); simpl; apply forallb_filter_sub; exact H.
Qed.

Lemma numeric_dropInnerMinus s :
  forallb isNumericChar s = true -> forallb isNumericChar (dropInnerMinus s) = true.
Proof.
  intros H. unfold dropInnerMinus.
  destruct (includes "-" s && negb (startsWith "-" s)); [|exact H].
  apply forallb_filter_sub. exact H.
Qed.

Lemma numeric_limitDecimals s :
  (countChar "." s <= 1)%nat ->
  forallb isNumericChar s = true -> forallb isNumericChar (limitDecimals s) = true.
Proof.
  intros Hd H.
  destruct (limitDecimals_spec s Hd) as [[_ ->]|(i & r & -> & _ & _ & ->)]; [exact H|].
  rewrite forallb_app in *. apply andb_true_iff in H as [Hi Hr].
  change (forallb isNumericChar ("."%char :: r)) with (forallb isNumericChar r) in Hr.
  cbn [forallb]. change (isNumericChar ".") with true.
  rewrite Hi. simpl. apply forallb_firstn. exact Hr.
Qed.

(** at most one dot from the second stage on *)
Lemma dot_collapseDots s : (countChar "." (collapseDots s) <= 1)%nat.
Proof.
  destruct (collapseDots_spec s) as [[H ->]|(i & r & -> & Hi & ->)]; [exact H|].
  rewrite countChar_app, countChar_cons, countChar_removeChar_same, Hi. simpl. lia.
Qed.

Lemma dot_collapseMinus s :
  (countChar "." s <= 1)%nat -> (countChar "." (collapseMinus s) <= 1)%nat.
Proof.
  intros H. unfold collapseMinus.
  destruct (1 <? countChar "-" s)%nat; [|exact H].
  pose proof (countChar_removeChar_le "." "-" s).
  destruct (startsWith "-" s); [rewrite countChar_cons; simpl|]; lia.
Qed.

Lemma dot_dropInnerMinus s :
  (countChar "." s <= 1)%nat -> (countChar "." (dropInnerMinus s) <= 1)%nat.
Proof.
  intros H. unfold dropInnerMinus.
  destruct (includes "-" s && negb (startsWith "-" s)); [|exact H].
  pose proof (countChar_removeChar_le "." "-" s). lia.
Qed.

Lemma dot_limitDecimals s :
  (countChar "." s <= 1)%nat -> (countChar "." (limitDecimals s) <= 1)%nat.
Proof.
  intros Hd.
  destruct (limitDecimals_spec s Hd) as [[_ ->]|(i & r & -> & Hi & Hr & ->)]; [exact Hd|].
  rewrite countChar_app, countChar_cons, Hi. simpl.
  pose proof (countChar_firstn "." 8 r). lia.
Qed.

(** a minus sign only in front from the fourth stage on *)
Lemma minus_dropInnerMinus s :
  (countChar "-" (collapseMinus s) <= 1)%nat ->
  countChar "-" (List.tl (dropInnerMinus (collapseMinus s))) = 0%nat.
Proof.
  set (t := collapseMinus s). intros H. unfold dropInnerMinus.
  rewrite includes_count.
  destruct t as [|c t']; [reflexivity|].
  rewrite countChar_cons in H. unfold startsWith. rewrite countChar_cons.
  destruct (isChar "-" c) eqn:E; simpl.
  - lia.
  - destruct (0 <? countChar "-" t')%nat eqn:E'; simpl.
    + assert (Hrm : countChar "-" (removeChar "-" (c :: t')) = 0%nat)
        by apply countChar_removeChar_same.
      unfold removeChar in *. simpl in *. rewrite E in *. simpl in *.
      rewrite countChar_cons, E in Hrm. simpl in Hrm. exact Hrm.
    + apply Nat.ltb_ge in E'. lia.
Qed.

Lemma minus_collapseMinus s : (countChar "-" (collapseMinus s) <= 1)%nat.
Proof.
  unfold collapseMinus. destruct (1 <? countChar "-" s)%nat eqn:E.
  - destruct (startsWith "-" s); rewrite ?countChar_cons, countChar_removeChar_same;
      simpl; lia.
  - apply Nat.ltb_ge in E. exact E.
Qed.

Lemma tl_app_cons {A} (i : list A) x r :
  List.tl (i ++ x :: r) = List.tl (i ++ [x]) ++ r.
Proof. destruct i; simpl; [reflexivity|]. rewrite <- List.app_assoc. reflexivity. Qed.

Lemma minus_limitDecimals s :
  (countChar "." s <= 1)%nat ->
  countChar "-" (List.tl s) = 0%nat ->
  countChar "-" (List.tl (limitDecimals s)) = 0%nat.
Proof.
  intros Hd H.
  destruct (limitDecimals_spec s Hd) as [[_ ->]|(i & r & -> & _ & _ & ->)]; [exact H|].
  rewrite tl_app_cons, countChar_app in *.
  pose proof (countChar_firstn "-" 8 r). lia.
Qed.

Lemma tl_firstn {A} n (l : list A) : List.tl (firstn (S n) l) = firstn n (List.tl l).
Proof. destruct l; simpl; [destruct n|]; reflexivity. Qed.

Lemma decimals_limitDecimals s :
  (countChar "." s <= 1)%nat ->
  forall i r, limitDecimals s = i ++ "."%char :: r -> countChar "." i = 0%nat ->
              (List.length r <= 8)%nat.
Proof.
  intros Hd i r Heq Hi.
  destruct (limitDecimals_spec s Hd) as [[H0 E]|(i' & r' & -> & Hi' & _ & E)];
    rewrite E in Heq.
  - subst s. rewrite countChar_app, countChar_cons in H0. unfold isChar in H0.
    rewrite Ascii.eqb_refl in H0. lia.
  - destruct (first_sep_unique _ _ _ _ _ Hi' Hi Heq) as [_ <-].
    rewrite List.length_firstn. lia.
Qed.

Lemma sanitizeChars_canonical s : canonical (sanitizeChars s).
Proof.
  unfold sanitizeChars.
  set (s1 := stripNonNumeric s).
  set (s2 := collapseDots s1).
  set (s3 := collapseMinus s2).
  set (s4 := dropInnerMinus s3).
  set (s5 := limitDecimals s4).
  assert (N1 : forallb isNumericChar s1 = true) by apply forallb_filter_self.
  assert (N2 := numeric_collapseDots _ N1). fold s2 in N2.
  assert (N3 := numeric_collapseMinus _ N2). fold s3 in N3.
  assert (N4 := numeric_dropInnerMinus _ N3). fold s4 in N4.
  assert (D2 := dot_collapseDots s1). fold s2 in D2.
  assert (D3 := dot_collapseMinus _ D2). fold s3 in D3.
  assert (D4 := dot_dropInnerMinus _ D3). fold s4 in D4.
  assert (D5 := dot_limitDecimals _ D4). fold s5 in D5.
  assert (N5 := numeric_limitDecimals _ D4 N4). fold s5 in N5.
  assert (M4 := minus_dropInnerMinus s2 (minus_collapseMinus s2)).
  fold s3 in M4. fold s4 in M4.
  assert (M5 := minus_limitDecimals _ D4 M4). fold s5 in M5.
  assert (F5 := decimals_limitDecimals _ D4). fold s5 in F5.
  unfold limitLength. destruct (20 <? List.length s5)%nat eqn:E.
  - unfold slice0. constructor.
    + apply forallb_firstn. exact N5.
    + pose proof (countChar_firstn "." 20 s5). lia.
    + rewrite (tl_firstn 19). pose proof (countChar_firstn "-" 19 (List.tl s5)). lia.
    + intros i r Heq Hi.
      pose proof (List.firstn_skipn 20 s5) as Hs. rewrite Heq in Hs.
      rewrite <- List.app_assoc in Hs. simpl in Hs. symmetry in Hs.
      specialize (F5 i _ Hs Hi). rewrite List.length_app in F5. lia.
    + rewrite List.length_firstn. lia.
  - apply Nat.ltb_ge in E. constructor; auto.
Qed.

Lemma canonical_fixed s : canonical s -> sanitizeChars s = s.
Proof.
  intros [N D M F L]. unfold sanitizeChars.
  assert (E1 : stripNonNumeric s = s) by (apply forallb_filter_id; exact N).
  rewrite E1.
  assert (E2 : collapseDots s = s).
  { destruct (collapseDots_spec s) as [[_ H]|(i & r & Hs & Hi & _)]; [exact H|].
    subst s. rewrite countChar_app, countChar_cons in D.
    clear -D Hi. unfold collapseDots. rewrite split_length.
    rewrite countChar_app, countChar_cons.
    unfold isChar in *. rewrite Ascii.eqb_refl in *.
    replace (countChar "." r) with 0%nat by lia. rewrite Hi. reflexivity. }
  rewrite E2.
  assert (Hm : (countChar "-" s <= 1)%nat).
  { destruct s as [|c s']; [rewrite countChar_nil; lia|].
    rewrite countChar_cons. simpl in M. destruct (isChar "-" c); lia. }
  assert (E3 : collapseMinus s = s).
  { unfold collapseMinus. apply Nat.ltb_ge in Hm. rewrite Hm. reflexivity. }
  rewrite E3.
  assert (E4 : dropInnerMinus s = s).
  { unfold dropInnerMinus. rewrite includes_count.
    destruct s as [|c s']; [reflexivity|].
    rewrite countChar_cons. simpl in *. destruct (isChar "-" c); simpl.
    - rewrite ?andb_false_r. reflexivity.
    - rewrite M. reflexivity. }
  rewrite E4.
  assert (E5 : limitDecimals s = s).
  { destruct (limitDecimals_spec s D) as [[_ H]|(i & r & Hs & Hi & Hr & H)]; [exact H|].
    specialize (F i r Hs Hi).
    rewrite H, List.firstn_all2 by lia. symmetry. exact Hs. }
  rewrite E5.
  unfold limitLength. apply Nat.ltb_ge in L. rewrite L. reflexivity.
Qed.

Lemma sanitizeChars_idempotent s : sanitizeChars (sanitizeChars s) = sanitizeChars s.
Proof. apply canonical_fixed, sanitizeChars_canonical. Qed.

End SanitizerFacts.

(** C7. The sanitizer is idempotent: for every input string [x], sanitizing
    the sanitized [x] gives the sanitized [x] again, where sanitizing applies,
    in this order, the stripping of the non-numeric characters, the collapse
    of several dots, the collapse of several minus signs, the removal of a
    minus sign that is not in front, the truncation to 8 decimal places and
    the truncation to 20 characters. *)
Theorem sanitize_idempotent (x : string) :
  Sanitizer.sanitizeNumericInput (Sanitizer.sanitizeNumericInput x)
  = Sanitizer.sanitizeNumericInput x.
Proof.
  unfold Sanitizer.sanitizeNumericInput, Chars.ofString, Chars.toString.
  rewrite list_ascii_of_string_of_list_ascii.
  rewrite SanitizerFacts.sanitizeChars_idempotent. reflexivity.
Qed.

(** * Signatures and sanitized input *)

Module RegexFacts.
Import Chars Regex.

Lemma allAscii_complete (a : ascii) : In a allAscii.
Proof.
  unfold allAscii. rewrite <- (ascii_nat_embedding a).
  apply List.in_map, List.in_seq. pose proof (nat_ascii_bounded a). lia.
Qed.

Lemma forall_ascii (P : ascii -> bool) :
  forallb P allAscii = true -> forall a, P a = true.
Proof.
  intros H a. rewrite List.forallb_forall in H. apply H, allAscii_complete.
Qed.

(** a match of a prefix is a match of the whole *)
Lemma matchStar_app c (k k' : chars -> bool) t :
  (forall s, k s = true -> k' (s ++ t) = true) ->
  forall s, matchStar c k s = true -> matchStar c k' (s ++ t) = true.
Proof.
  intros Hk. induction s as [|a s IH]; cbn [matchStar List.app]; intros H.
  - destruct (k []) eqn:E; [|discriminate].
    apply Hk in E. cbn [List.app] in E.
    destruct t as [|b t]; cbn [matchStar]; rewrite E; reflexivity.
  - destruct (k (a :: s)) eqn:E.
    + apply Hk in E. cbn [List.app] in E. rewrite E. reflexivity.
    + destruct (c a); [|discriminate].
      rewrite (IH H). destruct (k' (a :: s ++ t)); reflexivity.
Qed.

Lemma matchHere_app re t : forall s,
  matchHere re s = true -> matchHere re (s ++ t) = true.
Proof.
  induction re as [|[k|k|k] re IH]; intros s H; cbn [matchHere] in *.
  - reflexivity.
  - destruct s as [|a s]; [discriminate|]. cbn [List.app].
    destruct (accepts k a); [auto|discriminate].
  - apply (matchStar_app _ _ _ t IH), H.
  - destruct s as [|a s]; [discriminate|]. cbn [List.app].
    destruct (accepts k a); [|discriminate].
    apply (matchStar_app _ _ _ t IH), H.
Qed.

Lemma search_app_r re t : forall s, search re s = true -> search re (s ++ t) = true.
Proof.
  induction s as [|a s IH]; cbn [search]; intros H.
  - destruct (matchHere re []) eqn:E; [|discriminate].
    apply (matchHere_app re t) in E. cbn [List.app] in *.
    destruct t; cbn [search]; rewrite E; reflexivity.
  - cbn [List.app search]. destruct (matchHere re (a :: s)) eqn:E.
    + apply (matchHere_app re t) in E. cbn [List.app] in E. rewrite E. reflexivity.
    + rewrite (IH H). destruct (matchHere re (a :: s ++ t)); reflexivity.
Qed.

Lemma search_app_l re p : forall s, search re s = true -> search re (p ++ s) = true.
Proof.
  intros s H. induction p as [|a p IH]; [exact H|].
  cbn [List.app search]. rewrite IH. destruct (matchHere re (a :: p ++ s)); reflexivity.
Qed.

Lemma search_cons re a s : search re s = true -> search re (a :: s) = true.
Proof. apply (search_app_l re [a]). Qed.

Lemma search_inside re p s q : search re s = true -> search re (p ++ s ++ q) = true.
Proof. intros H. apply search_app_l, search_app_r, H. Qed.

(** a match uses a character for each mandatory literal *)
Lemma matchStar_uses c (k : chars -> bool) (P : chars -> Prop) :
  (forall p s, P s -> P (p ++ s)) ->
  (forall s, k s = true -> P s) ->
  forall s, matchStar c k s = true -> P s.
Proof.
  intros Hp Hk. induction s as [|a s IH]; cbn [matchStar]; intros H.
  - destruct (k []) eqn:E; [auto|discriminate].
  - destruct (k (a :: s)) eqn:E; [auto|].
    destruct (c a); [|discriminate].
    apply (Hp [a] s), IH, H.
Qed.

Lemma uses_app c p s : uses c s -> uses c (p ++ s).
Proof. intros (a & Ha & Hc). exists a. split; [apply List.in_or_app; auto|exact Hc]. Qed.

Lemma matchHere_uses c re : In (One (Ch c)) re ->
  forall s, matchHere re s = true -> uses c s.
Proof.
  induction re as [|it re IH]; [intros []|].
  intros [->|Hin] s H.
  - cbn [matchHere] in H. destruct s as [|a s]; [discriminate|].
    destruct (accepts (Ch c) a) eqn:E; [|discriminate].
    exists a. split; [left; reflexivity|exact E].
  - specialize (IH Hin). destruct it as [k|k|k]; cbn [matchHere] in H.
    + destruct s as [|a s]; [discriminate|].
      destruct (accepts k a); [|discriminate].
      apply (uses_app c [a] s), IH, H.
    + revert s H. apply matchStar_uses; [apply uses_app|exact IH].
    + destruct s as [|a s]; [discriminate|].
      destruct (accepts k a); [|discriminate].
      apply (uses_app c [a] s). revert s H.
      apply matchStar_uses; [apply uses_app|exact IH].
Qed.

Lemma search_uses c re : In (One (Ch c)) re ->
  forall s, search re s = true -> uses c s.
Proof.
  intros Hin. induction s as [|a s IH]; cbn [search]; intros H.
  - destruct (matchHere re []) eqn:E; [|discriminate].
    apply (matchHere_uses c re Hin), E.
  - destruct (matchHere re (a :: s)) eqn:E.
    + apply (matchHere_uses c re Hin), E.
    + apply (uses_app c [a] s), IH, H.
Qed.

(** an expression foreign to the characters of a text does not match it *)
Lemma foreign_no_match allowed re s :
  foreign allowed re = true -> forallb allowed s = true -> search re s = false.
Proof.
  unfold foreign. intros Hf Hs.
  apply List.existsb_exists in Hf as (it & Hin & Hit).
  destruct it as [[c| |]| |]; try discriminate.
  destruct (search re s) eqn:E; [|reflexivity].
  destruct (search_uses c re Hin s E) as (a & Ha & Hc).
  rewrite List.forallb_forall in Hs. specialize (Hs a Ha).
  pose proof (forall_ascii _ Hit a) as Hno. cbv beta in Hno.
  rewrite Hs, Hc in Hno. discriminate.
Qed.
End RegexFacts.

Module SecurityFacts.
Import Chars Security.

Lemma forallb_map {A B : Type} (f : B -> bool) (g : A -> B) (l : list A) :
  forallb f (List.map g l) = forallb (fun x => f (g x)) l.
Proof. induction l as [|x l IH]; simpl; [reflexivity|]. rewrite IH. reflexivity. Qed.

Lemma forallb_concat {A : Type} (f : A -> bool) (ls : list (list A)) :
  (forall l, In l ls -> forallb f l = true) -> forallb f (List.concat ls) = true.
Proof.
  induction ls as [|l ls IH]; intros H; simpl; [reflexivity|].
  rewrite forallb_app, (H l) by (left; reflexivity).
  apply IH. intros l' Hl'. apply H. right. exact Hl'.
Qed.

Lemma find_nothing {A : Type} (f : A -> bool) (l : list A) :
  (forall x, In x l -> f x = false) -> List.find f l = None.
Proof.
  induction l as [|x l IH]; intros H; simpl; [reflexivity|].
  rewrite (H x) by (left; reflexivity). apply IH. intros y Hy. apply H. right. exact Hy.
Qed.

Lemma quoteChar_numeric (c : ascii) :
  Sanitizer.isNumericChar c = true -> forallb plainLower (quoteChar c) = true.
Proof.
  intros H.
  pose proof (RegexFacts.forall_ascii
                (fun c => implb (Sanitizer.isNumericChar c)
                            (forallb plainLower (quoteChar c)))) as Hall.
  specialize (Hall ltac:(vm_compute; reflexivity) c). cbv beta in Hall.
  rewrite H in Hall. exact Hall.
Qed.

Lemma quote_sanitized (value : string) :
  forallb plainLower (quoteJSONString (sanitizeNumericInput value)) = true.
Proof.
  unfold quoteJSONString, sanitizeNumericInput, Sanitizer.sanitizeNumericInput,
    ofString, toString.
  rewrite list_ascii_of_string_of_list_ascii.
  cbn [forallb]. rewrite forallb_app.
  apply andb_true_iff. split; [reflexivity|].
  apply andb_true_iff. split; [|reflexivity].
  apply forallb_concat. intros l Hl. apply List.in_map_iff in Hl as (c & <- & Hc).
  apply quoteChar_numeric.
  pose proof (SanitizerFacts.c_numeric _
                (SanitizerFacts.sanitizeChars_canonical (list_ascii_of_string value))) as Hn.
  rewrite List.forallb_forall in Hn. apply Hn, Hc.
Qed.

Lemma member_sanitized field data :
  forallb plainLower (jsonMember field (sanitizeFormData data)) = true.
Proof.
  unfold jsonMember. rewrite forallb_app. cbn [forallb].
  apply andb_true_iff. split; [destruct field; vm_compute; reflexivity|].
  apply andb_true_iff. split; [reflexivity|].
  destruct field; apply quote_sanitized.
Qed.

Lemma json_sanitized_plain data :
  forallb plain (toLowerCase (jsonStringify (sanitizeFormData data))) = true.
Proof.
  unfold toLowerCase. rewrite forallb_map. fold plainLower.
  unfold jsonStringify. cbn [forallb].
  repeat (rewrite forallb_app; cbn [forallb]).
  rewrite !member_sanitized. reflexivity.
Qed.

Lemma patterns_foreign :
  forallb (fun source => Regex.foreign plain (Regex.compile source))
          suspiciousPatterns = true.
Proof. vm_compute. reflexivity. Qed.

(** the signature screen never fires on a sanitized form *)
Lemma sanitized_not_suspicious data :
  checkForSuspiciousPatterns (sanitizeFormData data) = pass.
Proof.
  unfold checkForSuspiciousPatterns.
  assert (H : firstMatch suspiciousPatterns
                (toLowerCase (jsonStringify (sanitizeFormData data))) = None).
  { unfold firstMatch. apply find_nothing. intros source Hin.
    pose proof patterns_foreign as Hf. rewrite List.forallb_forall in Hf.
    apply (RegexFacts.foreign_no_match plain); [apply Hf, Hin|].
    apply json_sanitized_plain. }
  rewrite H. reflexivity.
Qed.

(** a match inside the serialization of a field is a match inside the
    serialization of the form *)
Ltac skip_member :=
  apply RegexFacts.search_app_l; apply RegexFacts.search_cons.

Ltac in_member H :=
  apply RegexFacts.search_app_r; apply RegexFacts.search_app_l;
  apply RegexFacts.search_cons; exact H.

Lemma search_json_field re field data :
  Regex.search re (toLowerCase (quoteJSONString (Form.get field data))) = true ->
  Regex.search re (toLowerCase (jsonStringify data)) = true.
Proof.
  intros H. unfold jsonStringify, jsonMember, toLowerCase in *.
  repeat (rewrite List.map_app || rewrite List.map_cons).
  apply RegexFacts.search_cons.
  destruct field; cbn [Form.get] in H;
    [ | skip_member | do 2 skip_member | do 3 skip_member | do 4 skip_member ];
    in_member H.
Qed.

(** on the raw fields the screen finds the script tag, whatever the rest *)
Lemma raw_script_is_suspicious field data :
  Form.get field data = Samples.scriptTag ->
  checkForSuspiciousPatterns data =
    {| passed := false;
       reason := Some "Suspicious pattern detected";
       threat := Some "<script" |}.
Proof.
  intros Hf. unfold checkForSuspiciousPatterns, firstMatch, suspiciousPatterns.
  cbn [List.find].
  rewrite (search_json_field _ field data); [reflexivity|].
  rewrite Hf. vm_compute. reflexivity.
Qed.

(** so the pipeline never answers with the rejection for suspicious data *)
Lemma signature_rejection_unreachable data identifier now (m : gmap string Window) :
  Outcome.error (performSecurityCheck data identifier now m).2 <>
    Some "Обнаружены подозрительные данные. Операция отклонена.".
Proof.
  unfold performSecurityCheck.
  destruct (checkRateLimit identifier now m) as [m' rate].
  destruct (negb (passed rate)); [cbn; discriminate|].
  rewrite sanitized_not_suspicious. cbn [passed pass negb].
  destruct (negb (passed (validateNumericRanges _))) eqn:E; cbn [snd Outcome.error rejected].
  - intros H. inversion H.
  - discriminate.
Qed.

Lemma sanitize_script :
  sanitizeNumericInput Samples.scriptTag = "1".
Proof. vm_compute. reflexivity. Qed.

Lemma sanitized_field field data :
  Form.get field (sanitizeFormData data) = sanitizeNumericInput (Form.get field data).
Proof. destruct field; reflexivity. Qed.
End SecurityFacts.

(** C1, as the code has it.  For every invocation in which one of the five
    field values is the script tag, the sanitizer, which runs before the
    signature screen, rewrites that value to "1".  The screen would reject
    the raw fields with the script-tag signature as the threat, but it is
    applied to the sanitized fields and never rejects those: unless the rate
    limit or the numeric check of the sanitized fields rejects the
    invocation, the structural validator runs on the sanitized fields and
    its outcome is the outcome of the validation. *)
Theorem script_tag_is_sanitized_away (c : Core.CandleInputCore) (now : Z)
    (limits : gmap string Security.Window) (data : Form.CandleFormData)
    (field : Form.fieldName) :
  Form.get field data = Samples.scriptTag ->
  let sanitized := Security.sanitizeFormData data in
  let identifier := Security.generateIdentifier (Session.id (Core.session c)) None in
  Form.get field sanitized = "1" /\
  Security.checkForSuspiciousPatterns data =
    {| Security.passed := false;
       Security.reason := Some "Suspicious pattern detected";
       Security.threat := Some "<script" |} /\
  Security.checkForSuspiciousPatterns sanitized = Security.pass /\
  (Security.passed (Security.checkRateLimit identifier now limits).2 = true ->
   Security.passed (Security.validateNumericRanges sanitized) = true ->
   Security.Outcome.passed (Security.performSecurityCheck data identifier now limits).2 = true /\
   (Core.validate c now limits data).2 = Validation.validateFormData sanitized).
Proof.
  intros Hf. cbv zeta. split; [|split; [|split]].
  - rewrite SecurityFacts.sanitized_field, Hf. apply SecurityFacts.sanitize_script.
  - apply (SecurityFacts.raw_script_is_suspicious field data Hf).
  - apply SecurityFacts.sanitized_not_suspicious.
  - intros Hrate Hrange. unfold Core.validate, Security.performSecurityCheck.
    destruct (Security.checkRateLimit _ now limits) as [limits' rate].
    cbn [snd] in Hrate. rewrite Hrate, SecurityFacts.sanitized_not_suspicious, Hrange.
    cbn. split; reflexivity.
Qed.

Lemma script_tag_is_sanitized_away_witness :
  let c := Core.create Samples.session None None in
  Form.get Form.Open (Security.sanitizeFormData Samples.formScript) = "1" /\
  (Core.validate c 0 ∅ Samples.formScript).2 =
    Validation.validateFormData (Security.sanitizeFormData Samples.formScript).
Proof.
  destruct (script_tag_is_sanitized_away (Core.create Samples.session None None) 0 ∅
              Samples.formScript Form.Open eq_refl) as (H1 & _ & _ & H4).
  split; [exact H1|].
  apply H4; vm_compute; reflexivity.
Defined.

(** C1 as stated fails: with the script tag as the open price and
    well-formed other fields, the security check passes (it saw "1") and the
    structural validator ran and accepted the sanitized form. *)
Lemma script_tag_not_rejected :
  let c := Core.create Samples.session None None in
  let identifier := Security.generateIdentifier (Session.id Samples.session) None in
  Security.Outcome.passed (Security.performSecurityCheck Samples.formScript identifier 0 ∅).2 = true /\
  (Core.validate c 0 ∅ Samples.formScript).2 =
    Validation.validateFormData (Security.sanitizeFormData Samples.formScript) /\
  Validation.isValid (Core.validate c 0 ∅ Samples.formScript).2 = true.
Proof. vm_compute. repeat split. Qed.

(** * The rate limit *)

Module RateLimitFacts.
Import Security.

Lemma checkRateLimit_opens identifier now (m : gmap string Window) :
  opens identifier now m ->
  checkRateLimit identifier now m =
    (<[identifier := {| count := 1; resetTime := now + RATE_LIMIT_WINDOW |}]> m, pass).
Proof.
  unfold opens, checkRateLimit. destruct (m !! identifier) as [w|]; [|reflexivity].
  intros H. apply Z.gtb_gt in H. rewrite H. reflexivity.
Qed.

Lemma checkRateLimit_counts identifier now (m : gmap string Window) k limit :
  m !! identifier = Some {| count := k; resetTime := limit |} ->
  now <= limit -> k < MAX_REQUESTS_PER_WINDOW ->
  checkRateLimit identifier now m =
    (<[identifier := {| count := k + 1; resetTime := limit |}]> m, pass).
Proof.
  intros Hm Hnow Hk. unfold checkRateLimit. rewrite Hm. simpl.
  destruct (now >? limit) eqn:E; [apply Z.gtb_gt in E; lia|].
  destruct (k >=? MAX_REQUESTS_PER_WINDOW) eqn:E'; [apply Z.geb_le in E'; lia|].
  reflexivity.
Qed.

Lemma checkRateLimit_full identifier now (m : gmap string Window) k limit :
  m !! identifier = Some {| count := k; resetTime := limit |} ->
  now <= limit -> MAX_REQUESTS_PER_WINDOW <= k ->
  checkRateLimit identifier now m = (m, rateLimited).
Proof.
  intros Hm Hnow Hk. unfold checkRateLimit. rewrite Hm. simpl.
  destruct (now >? limit) eqn:E; [apply Z.gtb_gt in E; lia|].
  destruct (k >=? MAX_REQUESTS_PER_WINDOW) eqn:E'; [reflexivity|].
  rewrite Z.geb_leb in E'. apply Z.leb_gt in E'. lia.
Qed.

(** the calls of other identifiers leave a window alone *)
Lemma checkRateLimit_other identifier other now (m : gmap string Window) :
  identifier <> other ->
  (checkRateLimit other now m).1 !! identifier = m !! identifier.
Proof.
  intros Hne. unfold checkRateLimit.
  destruct (m !! other) as [w|]; simpl.
  - destruct (now >? resetTime w); simpl; [by rewrite lookup_insert_ne|].
    destruct (count w >=? MAX_REQUESTS_PER_WINDOW); simpl; [done|].
    by rewrite lookup_insert_ne.
  - by rewrite lookup_insert_ne.
Qed.

Lemma callsAt_app identifier ts us (m : gmap string Window) :
  callsAt identifier (ts ++ us) m =
    let '(answers, m') := callsAt identifier ts m in
    let '(answers', m'') := callsAt identifier us m' in
    (answers ++ answers', m'').
Proof.
  revert m. induction ts as [|t ts IH]; intros m; simpl.
  - destruct (callsAt identifier us m); reflexivity.
  - destruct (checkRateLimit identifier t m) as [m1 a]. rewrite IH.
    destruct (callsAt identifier ts m1) as [as1 m2].
    destruct (callsAt identifier us m2) as [as2 m3]. reflexivity.
Qed.

(** inside a window every call passes and counts, up to the quota *)
Lemma callsAt_counts identifier ts : forall (m : gmap string Window) k limit,
  m !! identifier = Some {| count := k; resetTime := limit |} ->
  Forall (fun t => t <= limit) ts ->
  k + Z.of_nat (List.length ts) <= MAX_REQUESTS_PER_WINDOW ->
  exists m',
    callsAt identifier ts m = (List.repeat pass (List.length ts), m') /\
    m' !! identifier =
      Some {| count := k + Z.of_nat (List.length ts); resetTime := limit |}.
Proof.
  induction ts as [|t ts IH]; intros m k limit Hm Hts Hk.
  - exists m. simpl. rewrite Z.add_0_r. auto.
  - inversion Hts as [|? ? Ht Hts']; subst.
    cbn [List.length] in *. rewrite Nat2Z.inj_succ in *.
    cbn [callsAt]. rewrite (checkRateLimit_counts _ _ _ k limit Hm Ht) by lia.
    destruct (IH (<[identifier := {| count := k + 1; resetTime := limit |}]> m)
                (k + 1) limit) as (m' & Hrun & Hm'); [apply lookup_insert_eq|exact Hts'|lia|].
    exists m'. rewrite Hrun. split; [reflexivity|].
    rewrite Hm'. do 2 f_equal. lia.
Qed.
End RateLimitFacts.

(** C6. For every identifier, with the quota of 100 calls in a window of
    60000 ms: when a call at [t0] opens a window (no entry for the identifier,
    or an expired one) and 100 more calls follow no later than [t0 + 60000],
    the first 100 calls pass, the 100th among them, the 101st is rejected
    with the reason of the rate limit, and a call after [t0 + 60000] passes
    and leaves the counter at 1 in a new window. *)
Theorem rate_limit_boundary (identifier : string) (m : gmap string Security.Window)
    (t0 : Z) (ts : list Z) (t101 tnext : Z) :
  Security.opens identifier t0 m ->
  List.length ts = 99%nat ->
  Forall (fun t => t <= t0 + Security.RATE_LIMIT_WINDOW) (ts ++ [t101]) ->
  tnext > t0 + Security.RATE_LIMIT_WINDOW ->
  exists m',
    Security.callsAt identifier (t0 :: ts ++ [t101; tnext]) m =
      (List.repeat Security.pass 100 ++ [Security.rateLimited; Security.pass], m') /\
    m' !! identifier =
      Some {| Security.count := 1;
              Security.resetTime := tnext + Security.RATE_LIMIT_WINDOW |}.
Proof.
  intros Hopen Hlen Hts Hnext.
  apply Forall_app in Hts as [Hts H101]. inversion H101 as [|? ? Ht101 _]; subst.
  cbn [Security.callsAt]. rewrite (RateLimitFacts.checkRateLimit_opens _ _ _ Hopen).
  set (limit := t0 + Security.RATE_LIMIT_WINDOW) in *.
  set (m1 := <[identifier := {| Security.count := 1; Security.resetTime := limit |}]> m).
  destruct (RateLimitFacts.callsAt_counts identifier ts m1 1 limit)
    as (m2 & Hrun & Hm2); [apply lookup_insert_eq|exact Hts|
      rewrite Hlen; unfold Security.MAX_REQUESTS_PER_WINDOW; lia|].
  rewrite RateLimitFacts.callsAt_app, Hrun. rewrite Hlen in *.
  cbn [Security.callsAt].
  rewrite (RateLimitFacts.checkRateLimit_full _ _ _ _ _ Hm2 Ht101)
    by (unfold Security.MAX_REQUESTS_PER_WINDOW; lia).
  rewrite RateLimitFacts.checkRateLimit_opens
    by (unfold Security.opens; rewrite Hm2; simpl; lia).
  eexists. split; [reflexivity|]. apply lookup_insert_eq.
Qed.

Lemma rate_limit_boundary_witness :
  exists m',
    Security.callsAt "candle_input_anonymous"
      (0 :: List.repeat 1 99 ++ [60000; 60001]) ∅ =
      (List.repeat Security.pass 100 ++ [Security.rateLimited; Security.pass], m') /\
    m' !! "candle_input_anonymous" =
      Some {| Security.count := 1; Security.resetTime := 60001 + 60000 |}.
Proof.
  apply (rate_limit_boundary "candle_input_anonymous" ∅ 0 (List.repeat 1 99) 60000 60001).
  - exact I.
  - reflexivity.
  - apply List.Forall_forall. intros t Ht. apply List.in_app_or in Ht as [Ht|[<-|[]]].
    + apply List.repeat_spec in Ht. subst t. vm_compute. discriminate.
    + vm_compute. discriminate.
  - vm_compute. reflexivity.
Defined.

(** * The structural validator on the two scenarios *)

(** C3, as the code has it.  The form open 1.0850, high 1.0870, low 1.0840,
    close 1.0860, volume 1000000 is valid, with no error and no warning.
    With high 1.0800 the form is invalid with exactly two errors, both on
    field [high]: the first says that high >= max(open, close) is violated,
    the second that high >= low is. *)
Theorem structural_scenarios :
  Validation.validateFormData Samples.formA =
    {| Validation.isValid := true;
       Validation.data := Some Samples.formA;
       Validation.errors := [];
       Validation.warnings := [] |} /\
  Validation.validateFormData Samples.formLowHigh =
    {| Validation.isValid := false;
       Validation.data := None;
       Validation.errors :=
         [ Validation.issue "high"
             "Максимальная цена должна быть >= max(Open, Close)" "custom";
           Validation.issue "high"
             "Максимальная цена должна быть >= минимальной" "custom" ];
       Validation.warnings := [] |}.
Proof. split; vm_compute; reflexivity. Qed.

(** C3 as stated fails on its second scenario: the errors of the form with
    high 1.0800 are not a single error. *)
Lemma structural_low_high_not_one_error :
  ~ exists e, Validation.errors (Validation.validateFormData Samples.formLowHigh) = [e].
Proof. intros [e H]. vm_compute in H. discriminate H. Qed.

(** * The history: undo and redo *)

Module StackFacts.
Import Stack.

Lemma pop_push {A : Type} (l : list A) (x : A) : pop (push x l) = Some (l, x).
Proof.
  unfold push. induction l as [|y l IH]; [reflexivity|].
  simpl. rewrite IH. reflexivity.
Qed.

Lemma pop_some {A : Type} (l rest : list A) (x : A) :
  pop l = Some (rest, x) -> l = push x rest.
Proof.
  unfold push. revert rest. induction l as [|y l IH]; intros rest H; [discriminate|].
  simpl in H. destruct (pop l) as [[r t]|] eqn:E.
  - inversion H; subst. simpl. f_equal. apply IH. reflexivity.
  - inversion H; subst. destruct l as [|z l]; [reflexivity|].
    simpl in E. destruct (pop l) as [[? ?]|]; discriminate.
Qed.

Lemma pop_none {A : Type} (l : list A) : pop l = None -> l = [].
Proof.
  destruct l as [|y l]; [reflexivity|]. simpl.
  destruct (pop l) as [[? ?]|]; discriminate.
Qed.

Lemma pop_nonempty {A : Type} (l : list A) :
  l <> [] -> exists rest x, pop l = Some (rest, x).
Proof.
  intros H. destruct (pop l) as [[rest x]|] eqn:E; [eauto|].
  apply pop_none in E. contradiction.
Qed.
End StackFacts.

Module HistoryFacts.
Import Core.

Lemma withStacks_same c : withStacks c (undoStack c) (redoStack c) = c.
Proof. destruct c; reflexivity. Qed.

Lemma undo_pops c rest x :
  Stack.pop (undoStack c) = Some (rest, x) ->
  undo c = (withStacks c rest (Stack.push x (redoStack c)),
            moved x).
Proof. intros H. unfold undo. rewrite H. reflexivity. Qed.

Lemma redo_pops c rest x :
  Stack.pop (redoStack c) = Some (rest, x) ->
  redo c = (withStacks c (Stack.push x (undoStack c)) rest,
            moved x).
Proof. intros H. unfold redo. rewrite H. reflexivity. Qed.

Lemma withStacks_twice c u r u' r' :
  withStacks (withStacks c u r) u' r' = withStacks c u' r'.
Proof. reflexivity. Qed.

Lemma undo_after_push c l x r :
  undo (withStacks c (Stack.push x l) r) =
    (withStacks c l (Stack.push x r),
     moved x).
Proof.
  rewrite (undo_pops _ l x) by apply StackFacts.pop_push. reflexivity.
Qed.
End HistoryFacts.

(** C10. On a history whose undo stack is not empty, [undo] followed at
    once by [redo] both succeed, both return the same candle, the one on top
    of the undo stack, and the core is left as it was before the [undo]: the
    undo stack and the redo stack have their former contents. *)
Theorem undo_then_redo_restores (c : Core.CandleInputCore) :
  Core.undoStack c <> [] ->
  let '(c1, r1) := Core.undo c in
  let '(c2, r2) := Core.redo c1 in
  Core.UndoRedoResult.success r1 = true /\ Core.UndoRedoResult.success r2 = true /\
  Core.UndoRedoResult.candle r1 = Core.UndoRedoResult.candle r2 /\
  (exists top rest, Core.UndoRedoResult.candle r1 = Some top /\ Core.undoStack c = Stack.push top rest) /\
  Core.undoStack c2 = Core.undoStack c /\
  Core.redoStack c2 = Core.redoStack c /\
  c2 = c.
Proof.
  intros Hne.
  destruct (StackFacts.pop_nonempty _ Hne) as (rest & top & Hpop).
  rewrite (HistoryFacts.undo_pops _ _ _ Hpop).
  rewrite (HistoryFacts.redo_pops _ (Core.redoStack c) top)
    by (simpl; apply StackFacts.pop_push).
  simpl. apply StackFacts.pop_some in Hpop.
  rewrite <- Hpop.
  repeat split; try reflexivity.
  - exists top, rest. split; [reflexivity | exact Hpop].
  - destruct c; reflexivity.
Qed.

Lemma undo_then_redo_restores_witness :
  let c := Core.withStacks (Core.create Samples.session None None)
             [Samples.candleA; Samples.candleB] [] in
  Core.undoStack c <> [] /\
  (let '(c1, r1) := Core.undo c in
   let '(c2, r2) := Core.redo c1 in
   Core.UndoRedoResult.success r1 = true /\ Core.UndoRedoResult.success r2 = true /\
   Core.UndoRedoResult.candle r1 = Core.UndoRedoResult.candle r2 /\
   (exists top rest, Core.UndoRedoResult.candle r1 = Some top /\ Core.undoStack c = Stack.push top rest) /\
   Core.undoStack c2 = Core.undoStack c /\
   Core.redoStack c2 = Core.redoStack c /\
   c2 = c).
Proof.
  split.
  - discriminate.
  - apply (undo_then_redo_restores
             (Core.withStacks (Core.create Samples.session None None)
                [Samples.candleA; Samples.candleB] [])).
    discriminate.
Defined.

(** * Saving: persistence failures and the history *)

Module SaveFacts.
Import Core.

Section WithFormats.
Variable zodUuid : string -> bool.
Variable zodDatetime : string -> bool.

(** the handler leaves the core as it is, and never returns success *)
Lemma handler_core c limits before thrown :
  core (handler c limits before thrown) = c /\
  succeeded (handler c limits before thrown) = false.
Proof.
  unfold handler, succeeded. destruct (report c _) as [calls [escaping|]]; auto.
Qed.

(** what the handler ends with: the message as data when the call of
    [onError] returns, and what that call throws when it throws *)
Lemma handler_outcome c limits before thrown :
  outcome (handler c limits before thrown) =
    match thrownBy (onError c) (errorMessageOf thrown) with
    | None => Js.Returned (failed [errorMessageOf thrown])
    | Some escaping => Js.Threw escaping
    end.
Proof. unfold handler, report, notify. destruct (thrownBy _ _); reflexivity. Qed.

Lemma handler_events c limits before thrown :
  events (handler c limits before thrown) =
    before ++ fst (report c (errorMessageOf thrown)).
Proof. unfold handler. destruct (report c _) as [calls [escaping|]]; reflexivity. Qed.

Lemma save_failure_keeps c now createdAt limits formData candleIndex
    candleDateTime previousCandle :
  let r := save zodUuid zodDatetime c now createdAt limits formData
             candleIndex candleDateTime previousCandle in
  succeeded r = false -> core r = c.
Proof.
  cbv zeta. unfold save.
  destruct (validate c now limits formData) as [limits' v].
  destruct (negb (Validation.isValid v)).
  - destruct (report c _) as [calls [thrown|]]; [|reflexivity].
    intros _. apply handler_core.
  - destruct (negb (Validation.isValid _)); [reflexivity|].
    destruct (match onSave c with Some _ => _ | None => _ end);
      [intros _; apply handler_core|].
    discriminate.
Qed.

Lemma save_success_pushes c now createdAt limits formData candleIndex
    candleDateTime previousCandle :
  let r := save zodUuid zodDatetime c now createdAt limits formData
             candleIndex candleDateTime previousCandle in
  let candleData := built c createdAt formData candleIndex candleDateTime in
  succeeded r = true ->
  persisted c candleData = None /\
  outcome r = Js.Returned (saved candleData) /\
  events r = [] /\
  core r = withStacks c (Stack.push candleData (undoStack c)) [].
Proof.
  cbv zeta. unfold save, persisted, built.
  destruct (validate c now limits formData) as [limits' v].
  destruct (negb (Validation.isValid v)).
  - destruct (report c _) as [calls [thrown|]]; [|discriminate].
    intros H. rewrite (proj2 (handler_core _ _ _ _)) in H. discriminate.
  - destruct (negb (Validation.isValid _)); [discriminate|].
    destruct (match onSave c with Some _ => _ | None => _ end).
    + intros H. rewrite (proj2 (handler_core _ _ _ _)) in H. discriminate.
    + auto.
Qed.

Lemma save_rejected c now createdAt limits formData candleIndex
    candleDateTime previousCandle thrown :
  let r := save zodUuid zodDatetime c now createdAt limits formData
             candleIndex candleDateTime previousCandle in
  let candleData := built c createdAt formData candleIndex candleDateTime in
  Validation.isValid (validate c now limits formData).2 = true ->
  Validation.isValid (Validation.validateCandleData zodUuid zodDatetime candleData) = true ->
  persisted c candleData = Some thrown ->
  r = handler c (validate c now limits formData).1 [] thrown.
Proof.
  cbv zeta. unfold save, persisted, built.
  destruct (validate c now limits formData) as [limits' v]. cbn [fst snd].
  intros -> ->. cbn [negb]. intros ->. reflexivity.
Qed.

(** the history after a save: untouched, or the record pushed once the
    validations passed and the callback resolved *)
Lemma save_history c now createdAt limits formData candleIndex
    candleDateTime previousCandle :
  let r := save zodUuid zodDatetime c now createdAt limits formData
             candleIndex candleDateTime previousCandle in
  let candleData := built c createdAt formData candleIndex candleDateTime in
  (succeeded r = false /\ core r = c) \/
  (succeeded r = true /\
   Validation.isValid (validate c now limits formData).2 = true /\
   Validation.isValid
     (Validation.validateCandleData zodUuid zodDatetime candleData) = true /\
   persisted c candleData = None /\
   core r = withStacks c (Stack.push candleData (undoStack c)) []).
Proof.
  cbv zeta. unfold save, persisted, built.
  destruct (validate c now limits formData) as [limits' v]. cbn [snd].
  destruct (Validation.isValid v); cbn [negb].
  - destruct (Validation.isValid _); cbn [negb]; [|left; auto].
    destruct (match onSave c with Some _ => _ | None => _ end).
    + left. destruct (handler_core c limits' [] t). auto.
    + right. auto.
  - left. destruct (report c _) as [calls [thrown|]]; [|auto].
    destruct (handler_core c limits' calls thrown). auto.
Qed.
(** when [save] returns success *)
Lemma save_succeeds c now createdAt limits formData candleIndex
    candleDateTime previousCandle :
  let r := save zodUuid zodDatetime c now createdAt limits formData
             candleIndex candleDateTime previousCandle in
  let candleData := built c createdAt formData candleIndex candleDateTime in
  succeeded r = true <->
  Validation.isValid (validate c now limits formData).2 = true /\
  Validation.isValid
    (Validation.validateCandleData zodUuid zodDatetime candleData) = true /\
  persisted c candleData = None.
Proof.
  cbv zeta.
  pose proof (save_history c now createdAt limits formData candleIndex
                candleDateTime previousCandle) as H. cbv zeta in H.
  split.
  - intros S. destruct H as [[F _]|(_ & V & D & P & _)]; [congruence|auto].
  - intros (V & D & P). unfold save. unfold persisted, built in *.
    destruct (validate c now limits formData) as [limits' v]. cbn [snd] in V.
    rewrite V, D. cbn [negb].
    destruct (match onSave c with Some _ => _ | None => _ end); [discriminate|].
    reflexivity.
Qed.

(** *** the engine around the core *)

Lemma caught_outcome e limits before :
  Engine.outcome (Engine.caught e limits before) =
    match thrownBy (Engine.onError e) "Ошибка сохранения свечи" with
    | None => Js.Returned (failed ["Критическая ошибка при сохранении"])
    | Some escaping => Js.Threw escaping
    end.
Proof.
  unfold Engine.caught, Engine.reportError, notify.
  destruct (thrownBy _ _); reflexivity.
Qed.

Lemma caught_engine e limits before :
  Engine.engine (Engine.caught e limits before) = e.
Proof.
  unfold Engine.caught. destruct (Engine.reportError e _) as [calls [escaping|]];
    reflexivity.
Qed.

(** the engine holds the core as [save] left it, however the call
    ends *)
Lemma saveCandle_core e now createdAt limits formData candleIndex
    candleDateTime previousCandle :
  Engine.core
    (Engine.engine
       (Engine.saveCandle zodUuid zodDatetime e now createdAt limits formData
          candleIndex candleDateTime previousCandle)) =
  core (save zodUuid zodDatetime (Engine.core e) now createdAt limits formData
          candleIndex candleDateTime previousCandle).
Proof.
  unfold Engine.saveCandle.
  destruct (outcome _) as [result|escaping].
  - destruct (SaveCandleResult.success result); [|reflexivity].
    destruct (Engine.reportSuccess e _) as [calls [thrown|]]; [|reflexivity].
    rewrite caught_engine. reflexivity.
  - rewrite caught_engine. reflexivity.
Qed.
End WithFormats.
End SaveFacts.

Section Persistence.
Variable zodUuid : string -> bool.
Variable zodDatetime : string -> bool.

(** C4, as the code has it.  For every save through the engine: when
    the form passes validation, the built record passes the record
    validation and the persistence callback rejects (with [thrown]),
    neither stack changes, whatever the callbacks do.  When there is no
    error callback, or the error callback returns on the message of the
    error, the call returns [success = false] with that message as its
    only error: a result, not an exception.  When the error callback
    throws there, the engine calls it again with its fixed message: the
    call returns the engine's critical error when this second call
    returns, and an exception leaves [saveCandle] only as what this
    second call throws.  In every case the stacks are either as they
    were, or the validations passed, the callback resolved on the record
    (or there is none) and the record was pushed, clearing the redo
    stack; and a call that returns success has pushed the record it
    returns. *)
Theorem failed_persistence_is_data (e : Engine.CandleInputEngine)
    (now : Z) (createdAt : string) (limits : gmap string Security.Window)
    (formData : Form.CandleFormData) (candleIndex : JsNum.num)
    (candleDateTime : string) (previousCandle : option Candle.CandleData) :
  let c := Engine.core e in
  let candleData := Core.built c createdAt formData candleIndex candleDateTime in
  let r := Engine.saveCandle zodUuid zodDatetime e now createdAt limits formData
             candleIndex candleDateTime previousCandle in
  let c' := Engine.core (Engine.engine r) in
  (forall thrown,
     Validation.isValid (Core.validate c now limits formData).2 = true ->
     Validation.isValid
       (Validation.validateCandleData zodUuid zodDatetime candleData) = true ->
     Core.persisted c candleData = Some thrown ->
     (Core.undoStack c' = Core.undoStack c /\ Core.redoStack c' = Core.redoStack c) /\
     (Core.thrownBy (Core.onError c) (Core.errorMessageOf thrown) = None ->
      Engine.outcome r = Js.Returned (Core.failed [Core.errorMessageOf thrown])) /\
     (Core.thrownBy (Core.onError c) (Core.errorMessageOf thrown) <> None ->
      Core.thrownBy (Engine.onError e) "Ошибка сохранения свечи" = None ->
      Engine.outcome r =
        Js.Returned (Core.failed ["Критическая ошибка при сохранении"])) /\
     (forall escaping,
        Engine.outcome r = Js.Threw escaping ->
        Core.thrownBy (Core.onError c) (Core.errorMessageOf thrown) <> None /\
        Core.thrownBy (Engine.onError e) "Ошибка сохранения свечи" = Some escaping)) /\
  ((Core.undoStack c' = Core.undoStack c /\ Core.redoStack c' = Core.redoStack c) \/
   (Validation.isValid (Core.validate c now limits formData).2 = true /\
    Validation.isValid
      (Validation.validateCandleData zodUuid zodDatetime candleData) = true /\
    Core.persisted c candleData = None /\
    Core.undoStack c' = Stack.push candleData (Core.undoStack c) /\
    Core.redoStack c' = [])) /\
  (forall result,
     Engine.outcome r = Js.Returned result ->
     Core.SaveCandleResult.success result = true ->
     Core.persisted c candleData = None /\
     result = Core.saved candleData /\
     Core.undoStack c' = Stack.push candleData (Core.undoStack c) /\
     Core.redoStack c' = []).
Proof.
  cbv zeta. split; [|split].
  - intros thrown Hv Hd Hp.
    rewrite SaveFacts.saveCandle_core.
    pose proof (SaveFacts.save_rejected zodUuid zodDatetime (Engine.core e) now createdAt
                  limits formData candleIndex candleDateTime previousCandle thrown
                  Hv Hd Hp) as Hr.
    unfold Engine.saveCandle. rewrite Hr, SaveFacts.handler_outcome.
    rewrite (proj1 (SaveFacts.handler_core _ _ _ _)).
    split; [auto|].
    destruct (Core.thrownBy (Core.onError (Engine.core e)) (Core.errorMessageOf thrown))
      as [first|].
    + rewrite SaveFacts.caught_outcome. cbn [Engine.onError Engine.began].
      split; [discriminate|]. split.
      * intros _ ->. reflexivity.
      * intros escaping. destruct (Core.thrownBy (Engine.onError e) _);
          [|discriminate].
        intros H. inversion H. split; [discriminate|reflexivity].
    + cbn [Core.failed Core.SaveCandleResult.success Engine.outcome].
      split; [reflexivity|]. split; [congruence|]. discriminate.
  - rewrite SaveFacts.saveCandle_core.
    destruct (SaveFacts.save_history zodUuid zodDatetime (Engine.core e) now createdAt
                limits formData candleIndex candleDateTime previousCandle)
      as [[_ Hc]|(_ & Hv & Hd & Hp & Hc)]; rewrite Hc.
    + left. auto.
    + right. auto.
  - intros result. rewrite SaveFacts.saveCandle_core. unfold Engine.saveCandle.
    pose proof (SaveFacts.save_success_pushes zodUuid zodDatetime (Engine.core e) now
                  createdAt limits formData candleIndex candleDateTime previousCandle)
      as Hs. cbv zeta in Hs. unfold Core.succeeded in Hs.
    destruct (Core.outcome _) as [inner|escaping].
    + destruct (Core.SaveCandleResult.success inner) eqn:S.
      * destruct (Hs eq_refl) as (Hp & Hr & _ & Hc). inversion Hr; subst inner.
        rewrite Hc.
        destruct (Engine.reportSuccess e _) as [calls [thrown|]].
        -- rewrite SaveFacts.caught_outcome.
           destruct (Core.thrownBy _ _); [discriminate|].
           intros H. inversion H; subst result. discriminate.
        -- cbn [Engine.outcome].
           intros H _. inversion H; subst result. auto.
      * cbn [Engine.outcome]. intros H. inversion H; subst result. congruence.
    + rewrite SaveFacts.caught_outcome.
      destruct (Core.thrownBy _ _); [discriminate|].
      intros H. inversion H; subst result. discriminate.
Qed.

(** a run keeps the invariant of the redo stack *)
Lemma serve_pending state request answers :
  (Core.redoStack state.1 <> [] -> Core.undoPending answers) ->
  let '(state', answer) := Core.serve zodUuid zodDatetime state request in
  Core.redoStack state'.1 <> [] -> Core.undoPending (answers ++ [answer]).
Proof.
  destruct state as [c limits]. cbn [fst]. intros Inv.
  assert (Keep : forall answer,
             answer <> Core.Committed true ->
             (Core.redoStack c <> [] -> Core.undoPending (answers ++ [answer]))).
  { intros answer Hne Hredo. destruct (Inv Hredo) as (before & after & -> & Hno).
    exists before, (after ++ [answer]). split.
    - rewrite <- List.app_assoc. reflexivity.
    - intros Hin. apply List.in_app_or in Hin as [Hin|[Heq|[]]]; auto. }
  destruct request as [now createdAt formData candleIndex candleDateTime previous| |];
    cbn [Core.serve].
  - cbn [fst].
    destruct (Core.succeeded (Core.save _ _ c now _ _ _ _ _ _)) eqn:E.
    + apply SaveFacts.save_success_pushes in E as (_ & _ & _ & ->). cbn. congruence.
    + apply SaveFacts.save_failure_keeps in E. rewrite E.
      apply Keep. discriminate.
  - unfold Core.undo. destruct (Stack.pop (Core.undoStack c)) as [[rest top]|]; cbn.
    + intros _. exists answers, []. split; [reflexivity | intros []].
    + apply Keep. discriminate.
  - unfold Core.redo. destruct (Stack.pop (Core.redoStack c)) as [[rest top]|] eqn:E; cbn.
    + intros _. apply Keep; [discriminate|].
      intros H. rewrite H in E. discriminate E.
    + apply Keep. discriminate.
Qed.

Lemma run_pending requests : forall state answers,
  (Core.redoStack state.1 <> [] -> Core.undoPending answers) ->
  let '(final, new) := Core.run zodUuid zodDatetime state requests in
  Core.redoStack final.1 <> [] -> Core.undoPending (answers ++ new).
Proof.
  induction requests as [|request later IH]; intros state answers Inv; cbn [Core.run].
  - rewrite List.app_nil_r. exact Inv.
  - pose proof (serve_pending state request answers Inv) as Hstep.
    destruct (Core.serve zodUuid zodDatetime state request) as [state' answer].
    specialize (IH state' (answers ++ [answer]) Hstep).
    destruct (Core.run zodUuid zodDatetime state' later) as [final new].
    rewrite <- List.app_assoc in IH. exact IH.
Qed.

(** C5. On one session, when the commits of A, of B and, after an undo,
    of C all succeed, the redo stack is empty, the undo stack is the former
    one followed by A and C (B is in neither stack), and the next undo
    returns C.  More generally a successful commit leaves the redo stack
    empty, and in any sequence of commits, undos and redos that starts with
    an empty redo stack, the redo stack is non-empty only when a successful
    undo has been answered and no commit has succeeded since. *)
Theorem history_is_linear (c : Core.CandleInputCore)
    (limits : gmap string Security.Window) :
  (forall nowA atA formA indexA timeA prevA nowB atB formB indexB timeB prevB
          nowC atC formC indexC timeC prevC,
     let rA := Core.save zodUuid zodDatetime c nowA atA limits formA indexA timeA prevA in
     let rB := Core.save zodUuid zodDatetime (Core.core rA) nowB atB (Core.limits rA)
                 formB indexB timeB prevB in
     let cU := (Core.undo (Core.core rB)).1 in
     let u := (Core.undo (Core.core rB)).2 in
     let rC := Core.save zodUuid zodDatetime cU nowC atC (Core.limits rB)
                 formC indexC timeC prevC in
     Core.succeeded rA = true ->
     Core.succeeded rB = true ->
     Core.succeeded rC = true ->
     exists a b k,
       Core.outcome rA = Js.Returned (Core.saved a) /\
       Core.outcome rB = Js.Returned (Core.saved b) /\
       Core.UndoRedoResult.candle u = Some b /\
       Core.outcome rC = Js.Returned (Core.saved k) /\
       Core.redoStack (Core.core rC) = [] /\
       Core.undoStack (Core.core rC) = Core.undoStack c ++ [a; k] /\
       Core.UndoRedoResult.candle (Core.undo (Core.core rC)).2 = Some k) /\
  (forall now createdAt formData candleIndex candleDateTime previousCandle,
     let r := Core.save zodUuid zodDatetime c now createdAt limits formData
                candleIndex candleDateTime previousCandle in
     Core.succeeded r = true -> Core.redoStack (Core.core r) = []) /\
  (forall requests,
     Core.redoStack c = [] ->
     let '(final, answers) := Core.run zodUuid zodDatetime (c, limits) requests in
     Core.redoStack final.1 <> [] ->
     Core.undoPending answers).
Proof.
  split; [|split].
  - cbv zeta. intros nowA atA formA indexA timeA prevA nowB atB formB indexB timeB prevB
      nowC atC formC indexC timeC prevC EA EB EC.
    pose proof (SaveFacts.save_success_pushes _ _ _ _ _ _ _ _ _ _ EA) as (_ & RA & _ & CA).
    rewrite CA in *.
    pose proof (SaveFacts.save_success_pushes _ _ _ _ _ _ _ _ _ _ EB) as (_ & RB & _ & CB).
    rewrite CB in *.
    rewrite HistoryFacts.withStacks_twice, HistoryFacts.undo_after_push in *.
    cbn [fst snd] in *.
    pose proof (SaveFacts.save_success_pushes _ _ _ _ _ _ _ _ _ _ EC) as (_ & RC & _ & CC).
    rewrite RA, RB, RC, CC.
    do 3 eexists. repeat split.
    + cbn. unfold Stack.push. rewrite <- List.app_assoc. reflexivity.
    + rewrite HistoryFacts.withStacks_twice, HistoryFacts.undo_after_push. reflexivity.
  - cbv zeta. intros now createdAt formData candleIndex candleDateTime previousCandle E.
    apply SaveFacts.save_success_pushes in E as (_ & _ & _ & ->). reflexivity.
  - intros requests Hredo.
    pose proof (run_pending requests (c, limits) []) as H.
    destruct (Core.run zodUuid zodDatetime (c, limits) requests) as [final answers].
    cbn [List.app] in H. apply H. cbn [fst]. congruence.
Qed.
End Persistence.

Lemma failed_persistence_is_data_witness :
  let e := Engine.create Samples.session (Some Samples.storageDown)
             (Some Samples.toast) (Some Samples.toast) in
  let r := Engine.saveCandle Reference.zodUuid Reference.zodDatetime e 0
             Samples.createdAt ∅ Samples.formA (JsNum.ofZ 0) Samples.datetime None in
  Engine.outcome r = Js.Returned (Core.failed ["storage unavailable"]) /\
  Engine.events r = [Core.ErrorReported "storage unavailable"] /\
  Core.undoStack (Engine.core (Engine.engine r)) = [] /\
  Core.redoStack (Engine.core (Engine.engine r)) = [].
Proof.
  cbv zeta.
  destruct (proj1 (failed_persistence_is_data Reference.zodUuid Reference.zodDatetime
                     (Engine.create Samples.session (Some Samples.storageDown)
                        (Some Samples.toast) (Some Samples.toast))
                     0 Samples.createdAt ∅ Samples.formA (JsNum.ofZ 0) Samples.datetime None)
                  (Js.ErrorObject "storage unavailable"))
    as ((U & R) & D & _).
  - vm_compute. reflexivity.
  - vm_compute. reflexivity.
  - reflexivity.
  - split; [apply D; reflexivity|]. split; [vm_compute; reflexivity|].
    split; [exact U|exact R].
Defined.

(** C4 as stated fails: with a persistence callback that rejects and an
    error callback that throws, the save passes validation, the callback
    fails, and [saveCandle] does not return a result: after the two calls of
    the error callback, what the second call throws leaves it. *)
Lemma persistence_failure_can_escape :
  let e := Engine.create Samples.session (Some Samples.storageDown)
             (Some Samples.brokenToast) None in
  let r := Engine.saveCandle Reference.zodUuid Reference.zodDatetime e 0
             Samples.createdAt ∅ Samples.formA (JsNum.ofZ 0) Samples.datetime None in
  Validation.isValid (Core.validate (Engine.core e) 0 ∅ Samples.formA).2 = true /\
  Core.persisted (Engine.core e)
    (Core.built (Engine.core e) Samples.createdAt Samples.formA (JsNum.ofZ 0)
       Samples.datetime) = Some (Js.ErrorObject "storage unavailable") /\
  Engine.events r = [Core.ErrorReported "storage unavailable";
                     Core.ErrorReported "Ошибка сохранения свечи"] /\
  Engine.outcome r = Js.Threw (Js.ErrorObject "toast failed") /\
  (forall result, Engine.outcome r <> Js.Returned result).
Proof.
  cbv zeta.
  assert (H : Engine.outcome
                (Engine.saveCandle Reference.zodUuid Reference.zodDatetime
                   (Engine.create Samples.session (Some Samples.storageDown)
                      (Some Samples.brokenToast) None)
                   0 Samples.createdAt ∅ Samples.formA (JsNum.ofZ 0) Samples.datetime None)
              = Js.Threw (Js.ErrorObject "toast failed")) by (vm_compute; reflexivity).
  split; [vm_compute; reflexivity|]. split; [reflexivity|].
  split; [vm_compute; reflexivity|]. split; [exact H|].
  intros result. rewrite H. discriminate.
Qed.

Lemma history_is_linear_witness :
  let c := Core.create Samples.session None None in
  let rA := Core.save Reference.zodUuid Reference.zodDatetime c 0 Samples.createdAt ∅
              Samples.formA (JsNum.ofZ 0) Samples.datetime None in
  let rB := Core.save Reference.zodUuid Reference.zodDatetime (Core.core rA) 1000
              Samples.createdAt (Core.limits rA)
              Samples.formB (JsNum.ofZ 1) Samples.datetime None in
  let cU := (Core.undo (Core.core rB)).1 in
  let u := (Core.undo (Core.core rB)).2 in
  let rC := Core.save Reference.zodUuid Reference.zodDatetime cU 2000
              Samples.createdAt (Core.limits rB)
              Samples.formC (JsNum.ofZ 1) Samples.datetime None in
  (exists a b k,
     Core.outcome rA = Js.Returned (Core.saved a) /\
     Core.outcome rB = Js.Returned (Core.saved b) /\
     Core.UndoRedoResult.candle u = Some b /\
     Core.outcome rC = Js.Returned (Core.saved k) /\
     Core.redoStack (Core.core rC) = [] /\
     Core.undoStack (Core.core rC) = Core.undoStack c ++ [a; k] /\
     Core.UndoRedoResult.candle (Core.undo (Core.core rC)).2 = Some k) /\
  Core.undoPending
    (Core.run Reference.zodUuid Reference.zodDatetime (c, ∅)
       (Samples.commits 2 ++ [Core.Undo])).2.
Proof.
  split.
  - apply (proj1 (history_is_linear Reference.zodUuid Reference.zodDatetime
                    (Core.create Samples.session None None) ∅)
                 0 Samples.createdAt Samples.formA (JsNum.ofZ 0) Samples.datetime None
                 1000 Samples.createdAt Samples.formB (JsNum.ofZ 1) Samples.datetime None
                 2000 Samples.createdAt Samples.formC (JsNum.ofZ 1) Samples.datetime None).
    + vm_compute. reflexivity.
    + vm_compute. reflexivity.
    + vm_compute. reflexivity.
  - pose proof (proj2 (proj2 (history_is_linear Reference.zodUuid Reference.zodDatetime
                                (Core.create Samples.session None None) ∅))
                      (Samples.commits 2 ++ [Core.Undo]) eq_refl) as H.
    destruct (Core.run Reference.zodUuid Reference.zodDatetime
                (Core.create Samples.session None None, ∅)
                (Samples.commits 2 ++ [Core.Undo])) as [final answers] eqn:E.
    apply H.
    replace final with
      (Core.run Reference.zodUuid Reference.zodDatetime
         (Core.create Samples.session None None, ∅)
         (Samples.commits 2 ++ [Core.Undo])).1 by (rewrite E; reflexivity).
    vm_compute. discriminate.
Defined.

(** C2, on the code.  The undo stack of the core has no bound: after 51
    commits on a fresh core, all of them successful, it holds 51 records, the
    one committed first still at the bottom, and nothing was dropped. *)
Theorem undo_stack_grows_past_50 :
  let '(final, answers) :=
    Core.run Reference.zodUuid Reference.zodDatetime
      (Core.create Samples.session None None, ∅) (Samples.commits 51) in
  answers = List.repeat (Core.Committed true) 51 /\
  List.length (Core.undoStack final.1) = 51%nat /\
  List.nth_error (Core.undoStack final.1) 0 = Some (Samples.candleOf Samples.formA 0).
Proof. vm_compute. repeat split. Qed.

(** * The operation history of the store *)

Module StoreFacts.
Import Store.

(** the store's history is the one that is bounded: recording onto a
    history of at most 50 operations leaves at most 50, the new operation
    last and current, and a full history loses only its oldest entry *)
Lemma recordOperation_bounded operation state :
  currentOperationIndex state = Z.of_nat (List.length (operationHistory state)) - 1 ->
  (List.length (operationHistory state) <= 50)%nat ->
  let state' := recordOperation operation state in
  (List.length (operationHistory state') <= 50)%nat /\
  List.last (operationHistory state') operation = operation /\
  currentOperationIndex state' =
    Z.of_nat (List.length (operationHistory state')) - 1 /\
  (List.length (operationHistory state) = 50%nat ->
   operationHistory state' = List.tl (operationHistory state) ++ [operation]).
Proof.
  intros Hidx Hlen. cbv zeta. unfold recordOperation, sliceTo. rewrite Hidx.
  replace (Z.of_nat (List.length (operationHistory state)) - 1 + 1)
    with (Z.of_nat (List.length (operationHistory state))) by lia.
  destruct (Z.ltb_spec (Z.of_nat (List.length (operationHistory state))) 0); [lia|].
  rewrite Nat2Z.id, List.firstn_all.
  set (h := operationHistory state) in *.
  rewrite List.length_app. cbn [List.length].
  destruct (Nat.ltb_spec 50 (List.length h + 1)); cbn [operationHistory currentOperationIndex].
  - assert (Hfull : List.length h = 50%nat) by lia.
    destruct h as [|x h']; [discriminate|]. cbn [shift List.tl List.app].
    rewrite List.length_app. cbn [List.length] in *.
    repeat split; try lia.
    + apply List.last_last.
  - rewrite List.length_app. cbn [List.length].
    repeat split; try lia. apply List.last_last.
Qed.
End StoreFacts.

(** * The suggestions *)

Module SortFacts.
Import Autocomplete.

Lemma lessConfident_true a b : lessConfident a b = true -> confidence b > confidence a.
Proof. unfold lessConfident. intros H. apply Z.gtb_gt in H. lia. Qed.

Lemma lessConfident_false a b : lessConfident a b = false -> confidence a >= confidence b.
Proof.
  unfold lessConfident. intros H.
  destruct (Z.gtb_spec (confidence b - confidence a) 0); [discriminate|lia].
Qed.

Lemma insertSorted_In x y l :
  In y (insertSorted lessConfident x l) -> y = x \/ In y l.
Proof.
  induction l as [|z l IH]; simpl.
  - intros [<-|[]]. auto.
  - destruct (lessConfident x z); simpl; intros [<-|H]; auto.
    destruct (IH H); auto.
Qed.

Lemma insertSorted_sorted x l :
  StronglySorted descending l ->
  StronglySorted descending (insertSorted lessConfident x l).
Proof.
  induction 1 as [|z l Hl IH Hz]; simpl.
  - repeat constructor.
  - destruct (lessConfident x z) eqn:E.
    + constructor; [exact IH|].
      apply List.Forall_forall. intros y Hy.
      apply insertSorted_In in Hy as [->|Hy].
      * apply lessConfident_true in E. unfold descending. lia.
      * rewrite List.Forall_forall in Hz. auto.
    + constructor; [constructor; assumption|].
      apply lessConfident_false in E.
      constructor; [exact E|].
      rewrite List.Forall_forall in *. intros y Hy. specialize (Hz y Hy).
      unfold descending in *. lia.
Qed.

Lemma sort_sorted l : StronglySorted descending (sort lessConfident l).
Proof.
  induction l as [|x l IH]; simpl; [constructor|].
  apply insertSorted_sorted. exact IH.
Qed.

(** the candidates of one confidence keep their order *)
Lemma insertSorted_stable k x l :
  List.filter (fun o => confidence o =? k) (insertSorted lessConfident x l) =
  List.filter (fun o => confidence o =? k) (x :: l).
Proof.
  induction l as [|z l IH]; [reflexivity|].
  cbn [insertSorted]. destruct (lessConfident x z) eqn:E; [|reflexivity].
  apply lessConfident_true in E.
  cbn [List.filter] in *. rewrite IH.
  destruct (Z.eqb_spec (confidence x) k), (Z.eqb_spec (confidence z) k);
    try reflexivity; lia.
Qed.

Lemma sort_stable k l :
  List.filter (fun o => confidence o =? k) (sort lessConfident l) =
  List.filter (fun o => confidence o =? k) l.
Proof.
  induction l as [|x l IH]; [reflexivity|].
  cbn [sort List.fold_right]. fold (sort lessConfident l).
  rewrite insertSorted_stable. cbn [List.filter]. rewrite IH. reflexivity.
Qed.

Ltac short_list :=
  repeat match goal with
         | |- context [if ?b then _ else _] => destruct b
         end;
  cbn [List.app];
  repeat constructor; unfold descending; cbn [confidence]; lia.

Lemma open_sorted previousCandles :
  StronglySorted descending (getSuggestionsForOpen previousCandles).
Proof.
  unfold getSuggestionsForOpen.
  destruct (List.last (List.map Some previousCandles) None); [|constructor].
  short_list.
Qed.

Lemma high_sorted formData previousCandles :
  StronglySorted descending (getSuggestionsForHigh formData previousCandles).
Proof. unfold getSuggestionsForHigh. short_list. Qed.

Lemma low_sorted formData previousCandles :
  StronglySorted descending (getSuggestionsForLow formData previousCandles).
Proof. unfold getSuggestionsForLow. short_list. Qed.

Lemma last_nil_history :
  List.last (List.map Some (@nil Candle.CandleData)) None = None.
Proof. reflexivity. Qed.
End SortFacts.

(** C8, as the code has it.  For every field and every partial form the
    suggestion operation returns a list (it is a total function: nothing is
    thrown); the list is sorted by descending confidence, and the candidates
    of equal confidence are in the order in which they were pushed.  With an
    empty history the list is empty for the fields open and volume; for
    high, low and close it holds only the candidates computed from the
    entered fields (confidence 80 for high and low, 50 and 60 for close). *)
Theorem suggestions_ranked (field : Form.fieldName)
    (formData : Autocomplete.PartialForm)
    (previousCandles : list Candle.CandleData) :
  let result := Autocomplete.getSuggestions field formData previousCandles in
  StronglySorted Autocomplete.descending result /\
  (forall k,
     List.filter (fun o => Autocomplete.confidence o =? k) result =
     List.filter (fun o => Autocomplete.confidence o =? k)
       (Autocomplete.pushed field formData previousCandles)) /\
  (previousCandles = [] ->
   match field with
   | Form.Open | Form.Volume => result = []
   | Form.High | Form.Low => forall o, In o result -> Autocomplete.confidence o = 80
   | Form.Close =>
       forall o, In o result ->
                 Autocomplete.confidence o = 50 \/ Autocomplete.confidence o = 60
   end).
Proof.
  cbv zeta. split; [|split].
  - destruct field; cbn [Autocomplete.getSuggestions].
    + apply SortFacts.open_sorted.
    + apply SortFacts.high_sorted.
    + apply SortFacts.low_sorted.
    + apply SortFacts.sort_sorted.
    + apply SortFacts.sort_sorted.
  - intros k. destruct field; cbn [Autocomplete.getSuggestions Autocomplete.pushed];
      try reflexivity; apply SortFacts.sort_stable.
  - intros ->. destruct field; cbn [Autocomplete.getSuggestions].
    + reflexivity.
    + unfold Autocomplete.getSuggestionsForHigh. cbn [List.length Nat.leb].
      rewrite List.app_nil_r.
      destruct (JsNum.gtb _ _); intros o H; [destruct H as [<-|[]]; reflexivity | destruct H].
    + unfold Autocomplete.getSuggestionsForLow. cbn [List.length Nat.leb andb].
      rewrite List.app_nil_r.
      destruct (JsNum.gtb _ _); intros o H; [destruct H as [<-|[]]; reflexivity | destruct H].
    + unfold Autocomplete.getSuggestionsForClose, Autocomplete.closeCandidates.
      cbn [List.length Nat.leb]. rewrite List.app_nil_r.
      destruct (_ && _).
      * cbn. intros o [<-|[<-|[<-|[]]]]; cbn; auto.
      * intros o [].
    + reflexivity.
Qed.

Lemma suggestions_ranked_witness :
  Autocomplete.getSuggestions Form.Open Samples.partialOpen [] = [].
Proof.
  exact (proj2 (proj2 (suggestions_ranked Form.Open Samples.partialOpen [])) eq_refl).
Defined.

(** C8 as stated fails on its last part: with an empty history and an open
    price entered, the field high still gets a suggestion. *)
Lemma suggestions_without_history_not_empty :
  Autocomplete.getSuggestions Form.High Samples.partialOpen [] <> [].
Proof. vm_compute. discriminate. Qed.

(** * The index: incremental maintenance against a rebuild *)

Module IndexFacts.
Import Index.

Section WithDates.
Variable getTime : string -> option Z.

Abbreviation build := (buildIndices getTime).
Abbreviation index := (indexCandle getTime).
Abbreviation stamp := (timestampOf getTime).

Lemma build_snoc records c : build (records ++ [c]) = index (build records) c.
Proof. unfold buildIndices. rewrite List.fold_left_app. reflexivity. Qed.

(** adding is indexing: a run of additions is a rebuild *)
Lemma adds_are_rebuild candles : forall records,
  fold_left (apply getTime) (List.map addOne candles) (build records) =
  build (records ++ candles).
Proof.
  induction candles as [|c candles IH]; intros records; cbn [List.map fold_left].
  - rewrite List.app_nil_r. reflexivity.
  - cbn [apply]. unfold addCandle. rewrite <- build_snoc, IH, <- List.app_assoc.
    reflexivity.
Qed.

(** *** the three maps of a rebuild *)

Lemma byId_index indices c :
  byId (index indices c) =
    match idOf c with
    | Some i => <[i := c]> (byId indices)
    | None => byId indices
    end.
Proof. reflexivity. Qed.

Lemma byTimestamp_index indices c :
  byTimestamp (index indices c) = <[stamp c := c]> (byTimestamp indices).
Proof. reflexivity. Qed.

Lemma bucket_index indices c s :
  getCandlesBySessionId s (index indices c) =
    if String.eqb (Candle.session_id c) s
    then getCandlesBySessionId s indices ++ [c]
    else getCandlesBySessionId s indices.
Proof.
  unfold getCandlesBySessionId, indexCandle. cbn [bySessionId].
  destruct (String.eqb_spec (Candle.session_id c) s) as [->|Hne].
  - rewrite lookup_insert_eq. reflexivity.
  - rewrite lookup_insert_ne by exact Hne. reflexivity.
Qed.

Lemma bucket_build s records :
  getCandlesBySessionId s (build records) = ofSession s records.
Proof.
  induction records as [|c records IH] using List.rev_ind; [reflexivity|].
  rewrite build_snoc, bucket_index, IH. unfold ofSession.
  rewrite List.filter_app. cbn [List.filter].
  destruct (String.eqb (Candle.session_id c) s);
    [reflexivity | rewrite List.app_nil_r; reflexivity].
Qed.

(** a session of the rebuild has a bucket exactly when it has a record *)
Lemma bySession_build s records :
  bySessionId (build records) !! s =
    match ofSession s records with
    | [] => None
    | l => Some l
    end.
Proof.
  induction records as [|c records IH] using List.rev_ind; [reflexivity|].
  pose proof (bucket_build s records) as Hb. unfold getCandlesBySessionId in Hb.
  rewrite build_snoc. unfold indexCandle at 1. cbn [bySessionId].
  unfold ofSession in *. rewrite List.filter_app. cbn [List.filter].
  destruct (String.eqb_spec (Candle.session_id c) s) as [->|Hne].
  - rewrite lookup_insert_eq, Hb.
    destruct (List.filter _ records); reflexivity.
  - rewrite lookup_insert_ne by exact Hne. rewrite List.app_nil_r. exact IH.
Qed.

Lemma byId_absent i records :
  (forall x, In x records -> idOf x <> Some i) ->
  byId (build records) !! i = None.
Proof.
  induction records as [|c records IH] using List.rev_ind; intros H; [reflexivity|].
  rewrite build_snoc, byId_index.
  assert (Hc : idOf c <> Some i) by (apply H, List.in_or_app; right; left; reflexivity).
  assert (Hr : byId (build records) !! i = None).
  { apply IH. intros x Hx. apply H, List.in_or_app. left. exact Hx. }
  destruct (idOf c) as [j|]; [|exact Hr].
  rewrite lookup_insert_ne by congruence. exact Hr.
Qed.

Lemma byId_sound i c records :
  byId (build records) !! i = Some c -> In c records /\ idOf c = Some i.
Proof.
  induction records as [|d records IH] using List.rev_ind; [discriminate|].
  rewrite build_snoc, byId_index. intros H.
  assert (Hold : byId (build records) !! i = Some c ->
                 In c (records ++ [d]) /\ idOf c = Some i).
  { intros H'. destruct (IH H') as [Hin Hid]. split; [|exact Hid].
    apply List.in_or_app. left. exact Hin. }
  destruct (idOf d) as [j|] eqn:Ej; [|auto].
  destruct (decide (j = i)) as [->|Hne].
  - rewrite lookup_insert_eq in H. inversion H; subst d.
    split; [apply List.in_or_app; right; left; reflexivity | exact Ej].
  - rewrite lookup_insert_ne in H by exact Hne. auto.
Qed.

Lemma byTimestamp_absent t records :
  (forall x, In x records -> stamp x <> t) ->
  byTimestamp (build records) !! t = None.
Proof.
  induction records as [|c records IH] using List.rev_ind; intros H; [reflexivity|].
  rewrite build_snoc, byTimestamp_index.
  rewrite lookup_insert_ne
    by (apply H, List.in_or_app; right; left; reflexivity).
  apply IH. intros x Hx. apply H, List.in_or_app. left. exact Hx.
Qed.

(** *** taking one record out of a rebuild *)

Lemma byId_without i c before after :
  idOf c = Some i ->
  (forall x, In x (before ++ after) -> idOf x <> Some i) ->
  delete i (byId (build (before ++ c :: after))) = byId (build (before ++ after)).
Proof.
  intros Hc. induction after as [|d after IH] using List.rev_ind; intros H.
  - rewrite build_snoc, byId_index, Hc, List.app_nil_r in *.
    rewrite delete_insert_eq. apply delete_id, byId_absent, H.
  - assert (Hd : idOf d <> Some i).
    { apply H. apply List.in_or_app. right. apply List.in_or_app. right. left. reflexivity. }
    replace (before ++ c :: after ++ [d]) with ((before ++ c :: after) ++ [d])
      by (rewrite <- List.app_assoc; reflexivity).
    rewrite List.app_assoc, !build_snoc, !byId_index.
    assert (IH' : delete i (byId (build (before ++ c :: after))) =
                  byId (build (before ++ after))).
    { apply IH. intros x Hx. apply H. rewrite List.app_assoc.
      apply List.in_or_app. left. exact Hx. }
    destruct (idOf d) as [j|]; [|exact IH'].
    rewrite delete_insert_ne by congruence. rewrite IH'. reflexivity.
Qed.

Lemma byTimestamp_without c before after :
  (forall x, In x (before ++ after) -> stamp x <> stamp c) ->
  delete (stamp c) (byTimestamp (build (before ++ c :: after))) =
  byTimestamp (build (before ++ after)).
Proof.
  induction after as [|d after IH] using List.rev_ind; intros H.
  - rewrite build_snoc, byTimestamp_index, List.app_nil_r in *.
    rewrite delete_insert_eq. apply delete_id, byTimestamp_absent, H.
  - assert (Hd : stamp d <> stamp c).
    { apply H. apply List.in_or_app. right. apply List.in_or_app. right. left. reflexivity. }
    replace (before ++ c :: after ++ [d]) with ((before ++ c :: after) ++ [d])
      by (rewrite <- List.app_assoc; reflexivity).
    rewrite List.app_assoc, !build_snoc, !byTimestamp_index.
    rewrite delete_insert_ne by congruence. rewrite IH; [reflexivity|].
    intros x Hx. apply H. rewrite List.app_assoc.
    apply List.in_or_app. left. exact Hx.
Qed.

Lemma byTimestamp_elsewhere c before after t :
  t <> stamp c ->
  byTimestamp (build (before ++ c :: after)) !! t =
  byTimestamp (build (before ++ after)) !! t.
Proof.
  intros Ht. induction after as [|d after IH] using List.rev_ind.
  - rewrite build_snoc, byTimestamp_index, List.app_nil_r.
    apply lookup_insert_ne. congruence.
  - replace (before ++ c :: after ++ [d]) with ((before ++ c :: after) ++ [d])
      by (rewrite <- List.app_assoc; reflexivity).
    rewrite List.app_assoc, !build_snoc, !byTimestamp_index.
    destruct (decide (stamp d = t)) as [->|Hne].
    + rewrite !lookup_insert_eq. reflexivity.
    + rewrite !lookup_insert_ne by exact Hne. exact IH.
Qed.

(** *** what [removeFirst] does *)

Lemma removeFirst_none {A : Type} (p : A -> bool) (l : list A) :
  (forall x, In x l -> p x = false) -> removeFirst p l = l.
Proof.
  induction l as [|x l IH]; intros H; [reflexivity|]. cbn [removeFirst].
  rewrite (H x) by (left; reflexivity). f_equal. apply IH.
  intros y Hy. apply H. right. exact Hy.
Qed.

Lemma removeFirst_at {A : Type} (p : A -> bool) (before after : list A) (c : A) :
  (forall x, In x before -> p x = false) -> p c = true ->
  removeFirst p (before ++ c :: after) = before ++ after.
Proof.
  induction before as [|x before IH]; intros H Hc; cbn [removeFirst List.app].
  - rewrite Hc. reflexivity.
  - rewrite (H x) by (left; reflexivity). f_equal. apply IH; [|exact Hc].
    intros y Hy. apply H. right. exact Hy.
Qed.

Lemma isRecord_iff i c : isRecord i c = true <-> idOf c = Some i.
Proof.
  unfold isRecord. destruct (idOf c) as [j|]; [|split; discriminate].
  rewrite String.eqb_eq. split; congruence.
Qed.

Lemma hasId_of_record i c : idOf c = Some i -> hasId i c = true.
Proof.
  unfold idOf, hasId. destruct (Candle.id c) as [j|]; [|discriminate].
  destruct (String.eqb j ""); [discriminate|].
  intros H. inversion H. apply String.eqb_refl.
Qed.

Lemma record_of_hasId i c : i <> "" -> hasId i c = true -> idOf c = Some i.
Proof.
  unfold idOf, hasId. intros Hi. destruct (Candle.id c) as [j|]; [|discriminate].
  intros H. apply String.eqb_eq in H. subst j.
  destruct (String.eqb_spec i ""); [contradiction|reflexivity].
Qed.

Lemma idOf_not_empty c : idOf c <> Some "".
Proof.
  unfold idOf. destruct (Candle.id c) as [j|]; [|discriminate].
  destruct (String.eqb_spec j ""); [discriminate|congruence].
Qed.

(** *** distinct keys *)

Lemma ids_split before c after i :
  idOf c = Some i ->
  NoDup (omap idOf (before ++ c :: after)) ->
  forall x, In x (before ++ after) -> idOf x <> Some i.
Proof.
  intros Hc Hnd x Hx Hxi.
  rewrite omap_app in Hnd. cbn [omap list_omap] in Hnd. rewrite Hc in Hnd.
  apply NoDup_app in Hnd as (_ & Hdis & Hnd). apply NoDup_cons in Hnd as [Hni _].
  apply List.in_app_or in Hx as [Hx|Hx].
  - apply (Hdis i); [|left].
    apply list_elem_of_omap. exists x. split; [apply list_elem_of_In, Hx|exact Hxi].
  - apply Hni. apply list_elem_of_omap.
    exists x. split; [apply list_elem_of_In, Hx|exact Hxi].
Qed.

Lemma stamps_split before c after :
  NoDup (List.map stamp (before ++ c :: after)) ->
  forall x, In x (before ++ after) -> stamp x <> stamp c.
Proof.
  intros Hnd x Hx Hxi.
  rewrite List.map_app in Hnd. cbn [List.map] in Hnd.
  apply NoDup_app in Hnd as (_ & Hdis & Hnd). apply NoDup_cons in Hnd as [Hni _].
  apply List.in_app_or in Hx as [Hx|Hx].
  - apply (Hdis (stamp c)); [|left].
    rewrite <- Hxi. apply list_elem_of_In, List.in_map, Hx.
  - apply Hni. rewrite <- Hxi. apply list_elem_of_In, List.in_map, Hx.
Qed.

(** *** the invariant of incremental maintenance *)

Lemma agrees_build records : agrees getTime (build records) records.
Proof.
  split; [reflexivity|]. split; [intros s; apply bucket_build|].
  intros t c H. exact H.
Qed.

Lemma agrees_add indices records c :
  agrees getTime indices records ->
  agrees getTime (addCandle getTime c indices) (records ++ [c]).
Proof.
  intros (Hid & Hs & Hts). unfold addCandle. split; [|split].
  - rewrite build_snoc, !byId_index, Hid. reflexivity.
  - intros s. rewrite bucket_index, Hs. unfold ofSession.
    rewrite List.filter_app. cbn [List.filter].
    destruct (String.eqb (Candle.session_id c) s);
      [reflexivity | rewrite List.app_nil_r; reflexivity].
  - intros t d. rewrite build_snoc, !byTimestamp_index.
    destruct (decide (stamp c = t)) as [->|Hne].
    + rewrite !lookup_insert_eq. auto.
    + rewrite !lookup_insert_ne by exact Hne. apply Hts.
Qed.

(** the record a removal finds, and the record set without it *)
Lemma removal_found indices records i c :
  distinctIds records ->
  byId indices = byId (build records) ->
  byId indices !! i = Some c ->
  exists before after,
    records = before ++ c :: after /\
    idOf c = Some i /\
    (forall x, In x (before ++ after) -> idOf x <> Some i) /\
    removeFirst (isRecord i) records = before ++ after.
Proof.
  intros Hids Hid E. rewrite Hid in E.
  destruct (byId_sound _ _ _ E) as [Hin Hc].
  apply List.in_split in Hin as (before & after & ->).
  pose proof (ids_split _ _ _ _ Hc Hids) as Hothers.
  exists before, after. split; [reflexivity|]. split; [exact Hc|].
  split; [exact Hothers|].
  apply removeFirst_at; [|apply isRecord_iff, Hc].
  intros x Hx. destruct (isRecord i x) eqn:Ex; [|reflexivity].
  apply isRecord_iff in Ex. exfalso.
  apply (Hothers x); [apply List.in_or_app; left; exact Hx|exact Ex].
Qed.

(** a removal of an identifier no record has *)
Lemma removal_missed indices records i :
  byId indices = byId (build records) ->
  byId indices !! i = None ->
  removeFirst (isRecord i) records = records.
Proof.
  intros Hid E. rewrite Hid in E. apply removeFirst_none.
  intros x Hx. destruct (isRecord i x) eqn:Ex; [|reflexivity].
  apply isRecord_iff in Ex. exfalso.
  assert (Hsome : is_Some (byId (build records) !! i)).
  { clear -Hx Ex. induction records as [|d records IH] using List.rev_ind; [destruct Hx|].
    rewrite build_snoc, byId_index.
    apply List.in_app_or in Hx as [Hx|[->|[]]].
    - specialize (IH Hx). destruct (idOf d) as [j|]; [|exact IH].
      destruct (decide (j = i)) as [->|Hne];
        [rewrite lookup_insert_eq; eauto | rewrite lookup_insert_ne by exact Hne; exact IH].
    - rewrite Ex, lookup_insert_eq. eauto. }
  rewrite E in Hsome. destruct Hsome as [? ?]. discriminate.
Qed.

Lemma agrees_remove indices records i :
  distinctIds records ->
  agrees getTime indices records ->
  agrees getTime (removeCandle getTime i indices) (removeFirst (isRecord i) records).
Proof.
  intros Hids (Hid & Hs & Hts). unfold removeCandle.
  destruct (byId indices !! i) as [c|] eqn:E.
  - destruct (removal_found _ _ _ _ Hids Hid E)
      as (before & after & -> & Hc & Hothers & ->).
    split; [|split]; cbn [byId byTimestamp].
    + rewrite Hid. apply byId_without; assumption.
    + intros s. pose proof (Hs (Candle.session_id c)) as Hbucket.
      unfold getCandlesBySessionId in *. cbn [bySessionId].
      assert (Hi : i <> "") by (intros ->; apply (idOf_not_empty c), Hc).
      unfold ofSession in *. rewrite List.filter_app in *. cbn [List.filter] in *.
      rewrite String.eqb_refl in Hbucket.
      destruct (bySessionId indices !! Candle.session_id c) as [l|] eqn:El;
        [|destruct (List.filter _ before); discriminate Hbucket].
      subst l.
      destruct (String.eqb_spec (Candle.session_id c) s) as [->|Hne].
      * rewrite lookup_insert_eq. apply removeFirst_at; [|apply hasId_of_record, Hc].
        intros x Hx. apply List.filter_In in Hx as [Hx _].
        destruct (hasId i x) eqn:Ex; [|reflexivity].
        apply (record_of_hasId _ _ Hi) in Ex. exfalso.
        apply (Hothers x); [apply List.in_or_app; left; exact Hx|exact Ex].
      * rewrite lookup_insert_ne by exact Hne.
        specialize (Hs s). rewrite List.filter_app in Hs. cbn [List.filter] in Hs.
        destruct (String.eqb_spec (Candle.session_id c) s); [contradiction|].
        exact Hs.
    + intros t d H. cbn [byTimestamp] in H.
      change (getTime (Candle.candle_datetime c)) with (stamp c) in H.
      destruct (decide (t = stamp c)) as [->|Hne].
      * rewrite lookup_delete_eq in H. discriminate.
      * rewrite lookup_delete_ne in H by congruence.
        rewrite <- (byTimestamp_elsewhere c before after t Hne). apply Hts, H.
  - rewrite (removal_missed _ _ _ Hid E). repeat split; assumption.
Qed.

Lemma agrees_run operations : forall indices records,
  throughout distinctIds records operations ->
  agrees getTime indices records ->
  agrees getTime (fold_left (apply getTime) operations indices)
         (fold_left applyToRecords operations records).
Proof.
  induction operations as [|operation later IH]; intros indices records Hadm Hagree.
  - exact Hagree.
  - cbn [fold_left]. destruct Hadm as [Hkeys Hlater]. apply IH; [exact Hlater|].
    destruct operation as [c|i]; cbn [apply applyToRecords].
    + apply agrees_add, Hagree.
    + apply agrees_remove; assumption.
Qed.

(** *** with distinct instants, the same [byTimestamp] *)

Lemma instants_remove indices records i :
  distinctIds records -> distinctInstants getTime records ->
  byId indices = byId (build records) ->
  byTimestamp indices = byTimestamp (build records) ->
  byTimestamp (removeCandle getTime i indices) =
  byTimestamp (build (removeFirst (isRecord i) records)).
Proof.
  intros Hids Hstamps Hid Hts. unfold removeCandle.
  destruct (byId indices !! i) as [c|] eqn:E.
  - destruct (removal_found _ _ _ _ Hids Hid E)
      as (before & after & -> & Hc & Hothers & ->).
    cbn [byTimestamp]. rewrite Hts. apply byTimestamp_without.
    apply stamps_split. exact Hstamps.
  - rewrite (removal_missed _ _ _ Hid E). exact Hts.
Qed.

Lemma instants_run operations : forall indices records,
  throughout distinctIds records operations ->
  throughout (distinctInstants getTime) records operations ->
  agrees getTime indices records ->
  byTimestamp indices = byTimestamp (build records) ->
  byTimestamp (fold_left (apply getTime) operations indices) =
  byTimestamp (build (fold_left applyToRecords operations records)).
Proof.
  induction operations as [|operation later IH];
    intros indices records Hids Hstamps Hagree Hts.
  - exact Hts.
  - cbn [fold_left]. destruct Hids as [Hid Hids]. destruct Hstamps as [Hst Hstamps].
    apply IH; [exact Hids|exact Hstamps| |].
    + destruct operation as [c|i]; cbn [apply applyToRecords].
      * apply agrees_add, Hagree.
      * apply agrees_remove; assumption.
    + destruct operation as [c|i]; cbn [apply applyToRecords].
      * unfold addCandle. rewrite build_snoc, !byTimestamp_index, Hts. reflexivity.
      * apply instants_remove; [assumption|assumption|apply Hagree|exact Hts].
Qed.
End WithDates.
End IndexFacts.

(** C9, as the code has it.  Start from a rebuild of an initial record set
    and apply any sequence of addOne and removeOne operations.  When the
    records present before and after every operation have pairwise distinct
    identifiers, [byId] is identical to that of a single rebuild of the final
    record set, every session's list of records is the one the rebuild gives,
    [bySession] has the bucket of the rebuild for every session that still
    has a record (a session whose records were all removed keeps an empty
    bucket), and every entry of [byTimestamp] is an entry of the rebuild's;
    when moreover the instants of the records are pairwise distinct before
    and after every operation, [byTimestamp] is identical to the rebuild's.
    A sequence of additions alone yields exactly the indices of the rebuild,
    with no condition on the keys. *)
Theorem index_converges (getTime : string -> option Z)
    (initial : list Candle.CandleData) (operations : list Index.Operation) :
  let indices :=
    fold_left (Index.apply getTime) operations (Index.buildIndices getTime initial) in
  let final := fold_left Index.applyToRecords operations initial in
  let rebuilt := Index.buildIndices getTime final in
  (Index.throughout Index.distinctIds initial operations ->
   Index.byId indices = Index.byId rebuilt /\
   (forall s, Index.getCandlesBySessionId s indices =
              Index.getCandlesBySessionId s rebuilt) /\
   (forall s, Index.bySessionId rebuilt !! s <> None ->
              Index.bySessionId indices !! s = Index.bySessionId rebuilt !! s) /\
   (forall timestamp candle,
      Index.byTimestamp indices !! timestamp = Some candle ->
      Index.byTimestamp rebuilt !! timestamp = Some candle) /\
   (Index.throughout (Index.distinctInstants getTime) initial operations ->
    Index.byTimestamp indices = Index.byTimestamp rebuilt)) /\
  (forall candles, operations = List.map Index.addOne candles -> indices = rebuilt).
Proof.
  cbv zeta. split.
  - intros Hids.
    destruct (IndexFacts.agrees_run getTime operations _ _ Hids
                (IndexFacts.agrees_build getTime initial)) as (Hid & Hs & Hts).
    split; [exact Hid|]. split; [|split; [|split]].
    + intros s. rewrite Hs, IndexFacts.bucket_build. reflexivity.
    + intros s. rewrite IndexFacts.bySession_build. specialize (Hs s).
      unfold Index.getCandlesBySessionId in Hs.
      destruct (Index.ofSession s _) as [|x l]; [congruence|]. intros _.
      destruct (Index.bySessionId _ !! s) as [l'|]; [congruence|discriminate].
    + exact Hts.
    + intros Hstamps.
      apply IndexFacts.instants_run;
        [exact Hids|exact Hstamps|apply IndexFacts.agrees_build|reflexivity].
  - intros candles ->. rewrite IndexFacts.adds_are_rebuild. f_equal.
    generalize initial. induction candles as [|c candles IH]; intros records; cbn.
    + rewrite List.app_nil_r. reflexivity.
    + rewrite <- IH, <- List.app_assoc. reflexivity.
Qed.

Lemma index_converges_witness :
  let getTime := Reference.getTime in
  let sameInstant := Samples.stored "d" "s1" "2024-01-01T00:05:00Z" Samples.formC in
  let initial := [Samples.storedA; Samples.storedB] in
  let operations := [Index.addOne Samples.storedC; Index.removeOne "a"] in
  let colliding := [Index.addOne sameInstant; Index.removeOne "a"] in
  let indices :=
    fold_left (Index.apply getTime) operations (Index.buildIndices getTime initial) in
  let rebuilt :=
    Index.buildIndices getTime (fold_left Index.applyToRecords operations initial) in
  let indices' :=
    fold_left (Index.apply getTime) colliding (Index.buildIndices getTime initial) in
  let rebuilt' :=
    Index.buildIndices getTime (fold_left Index.applyToRecords colliding initial) in
  (Index.byId indices = Index.byId rebuilt /\
   (forall s, Index.getCandlesBySessionId s indices =
              Index.getCandlesBySessionId s rebuilt) /\
   Index.byTimestamp indices = Index.byTimestamp rebuilt) /\
  (Index.byId indices' = Index.byId rebuilt' /\
   (forall s, Index.getCandlesBySessionId s indices' =
              Index.getCandlesBySessionId s rebuilt')).
Proof.
  cbv zeta. split.
  - destruct (proj1 (index_converges Reference.getTime [Samples.storedA; Samples.storedB]
                       [Index.addOne Samples.storedC; Index.removeOne "a"]))
      as (Hid & Hs & _ & _ & Hts).
    + repeat split; apply (bool_decide_unpack _); vm_compute; exact I.
    + split; [exact Hid|]. split; [exact Hs|]. apply Hts.
      repeat split; apply (bool_decide_unpack _); vm_compute; exact I.
  - destruct (proj1 (index_converges Reference.getTime [Samples.storedA; Samples.storedB]
                       [Index.addOne
                          (Samples.stored "d" "s1" "2024-01-01T00:05:00Z" Samples.formC);
                        Index.removeOne "a"]))
      as (Hid & Hs & _).
    + repeat split; apply (bool_decide_unpack _); vm_compute; exact I.
    + split; [exact Hid|exact Hs].
Defined.

(** C9 as stated fails: after the only record of a session is removed, the
    incrementally kept [bySession] still has an entry for the session, an
    empty list, and the rebuild of the final (empty) record set has none. *)
Lemma index_keeps_empty_bucket :
  let indices :=
    fold_left (Index.apply Reference.getTime) [Index.removeOne "a"]
      (Index.buildIndices Reference.getTime [Samples.storedA]) in
  let rebuilt :=
    Index.buildIndices Reference.getTime
      (fold_left Index.applyToRecords [Index.removeOne "a"] [Samples.storedA]) in
  Index.bySessionId indices !! "s1" = Some [] /\
  Index.bySessionId rebuilt !! "s1" = None /\
  Index.bySessionId indices <> Index.bySessionId rebuilt.
Proof.
  cbv zeta.
  assert (H1 : Index.bySessionId
                 (fold_left (Index.apply Reference.getTime) [Index.removeOne "a"]
                    (Index.buildIndices Reference.getTime [Samples.storedA])) !! "s1"
               = Some []) by (vm_compute; reflexivity).
  assert (H2 : Index.bySessionId
                 (Index.buildIndices Reference.getTime
                    (fold_left Index.applyToRecords [Index.removeOne "a"]
                       [Samples.storedA])) !! "s1" = None) by (vm_compute; reflexivity).
  split; [exact H1|]. split; [exact H2|].
  intros Heq. rewrite Heq, H2 in H1. discriminate H1.
Qed.

(** two records of one instant: removing the later one empties the slot of
    the instant, which the rebuild fills with the earlier one *)
Lemma index_loses_colliding_instant :
  let earlier := Samples.stored "a" "s1" "2024-01-01T00:00:00Z" Samples.formA in
  let later := Samples.stored "b" "s1" "2024-01-01T00:00:00Z" Samples.formB in
  let indices :=
    fold_left (Index.apply Reference.getTime) [Index.removeOne "b"]
      (Index.buildIndices Reference.getTime [earlier; later]) in
  let rebuilt :=
    Index.buildIndices Reference.getTime
      (fold_left Index.applyToRecords [Index.removeOne "b"] [earlier; later]) in
  Index.byTimestamp indices !! Some 1704067200000 = None /\
  Index.byTimestamp rebuilt !! Some 1704067200000 = Some earlier.
Proof. split; vm_compute; reflexivity. Qed.

(** two records of one identifier: removing by the identifier empties the
    slot of [byId] and takes the earlier record out of the bucket, while the
    rebuild of what is left still indexes the later record *)
Lemma index_loses_shared_identifier :
  let earlier := Samples.stored "a" "s1" "2024-01-01T00:00:00Z" Samples.formA in
  let later := Samples.stored "a" "s1" "2024-01-01T00:05:00Z" Samples.formB in
  let indices :=
    fold_left (Index.apply Reference.getTime) [Index.removeOne "a"]
      (Index.buildIndices Reference.getTime [earlier; later]) in
  let rebuilt :=
    Index.buildIndices Reference.getTime
      (fold_left Index.applyToRecords [Index.removeOne "a"] [earlier; later]) in
  Index.byId indices !! "a" = None /\
  Index.byId rebuilt !! "a" = Some later.
Proof. split; vm_compute; reflexivity. Qed.

(** * The security service beyond the pipeline *)

Module ShapeFacts.
Import Chars Sanitizer.

Lemma ofString_toString (s : chars) : ofString (toString s) = s.
Proof. apply list_ascii_of_string_of_list_ascii. Qed.

Lemma toString_ofString (s : string) : toString (ofString s) = s.
Proof. apply string_of_list_ascii_of_string. Qed.

Lemma no_dot_before (i r : chars) :
  (countChar "." (i ++ "."%char :: r) <= 1)%nat -> countChar "." i = 0%nat.
Proof.
  rewrite SanitizerFacts.countChar_app, SanitizerFacts.countChar_cons.
  replace (isChar "." "."%char) with true by reflexivity. lia.
Qed.
End ShapeFacts.

(** X1. The form of a sanitized value.  Whatever the input, the value
    [sanitizeNumericInput] returns has only digits, dots and minus signs; at
    most one dot; a minus sign in the first position or nowhere; at most 8
    characters after the dot; and at most 20 characters in all. *)
Theorem sanitized_output_shape (value : string) :
  let out := Chars.ofString (Sanitizer.sanitizeNumericInput value) in
  forallb Sanitizer.isNumericChar out = true /\
  (Chars.countChar "." out <= 1)%nat /\
  Chars.countChar "-" (List.tl out) = 0%nat /\
  (forall i r, out = i ++ "."%char :: r -> (List.length r <= 8)%nat) /\
  (List.length out <= 20)%nat.
Proof.
  cbv zeta. unfold Sanitizer.sanitizeNumericInput.
  rewrite ShapeFacts.ofString_toString.
  destruct (SanitizerFacts.sanitizeChars_canonical (Chars.ofString value))
    as [N D M P L].
  repeat split; try assumption.
  intros i r E. apply (P i r E).
  apply ShapeFacts.no_dot_before with (r := r). rewrite <- E. exact D.
Qed.

Module RangeFacts.
Import JsNum Security.

Lemma finite_not_nan v : isFinite v = true -> isNaN v = false.
Proof. destruct v; simpl; congruence. Qed.

Lemma checkNumericRange_none data field :
  checkNumericRange data field = None <->
  isFinite (parseFloat (Form.get field data)) = true /\
  ltb (parseFloat (Form.get field data)) (ofZ 0) = false /\
  gtb (parseFloat (Form.get field data)) MAX_SAFE_INTEGER = false.
Proof.
  unfold checkNumericRange.
  destruct (isFinite (parseFloat (Form.get field data))) eqn:F; cbn [negb].
  - rewrite (finite_not_nan _ F).
    destruct (ltb (parseFloat (Form.get field data)) (ofZ 0));
      destruct (gtb (parseFloat (Form.get field data)) MAX_SAFE_INTEGER);
      split; intros H; try discriminate; try tauto;
      destruct H as (_ & ? & ?); discriminate.
  - split; [discriminate | intros (? & _); discriminate].
Qed.

Lemma checkNumericRange_some data field failure :
  checkNumericRange data field = Some failure ->
  passed failure = false /\
  In (threat failure)
     [Some "INVALID_NUMBER"; Some "NEGATIVE_VALUE"; Some "NUMBER_OVERFLOW"].
Proof.
  unfold checkNumericRange.
  destruct (isFinite (parseFloat (Form.get field data))) eqn:F; cbn [negb].
  - rewrite (finite_not_nan _ F).
    destruct (ltb (parseFloat (Form.get field data)) (ofZ 0));
      [|destruct (gtb (parseFloat (Form.get field data)) MAX_SAFE_INTEGER)];
      intros E; inversion E; subst; cbn; auto.
  - intros E; inversion E; subst; cbn; auto.
Qed.

Lemma firstFailure_passes data fs :
  passed (firstFailure data fs) = true <->
  forall field, In field fs -> checkNumericRange data field = None.
Proof.
  induction fs as [|f fs IH]; cbn [firstFailure].
  - split; [intros _ ? []| reflexivity].
  - destruct (checkNumericRange data f) as [failure|] eqn:E.
    + destruct (checkNumericRange_some _ _ _ E) as [P _]. rewrite P.
      split; [discriminate|].
      intros H. rewrite (H f) in E by (left; reflexivity). discriminate.
    + rewrite IH. split.
      * intros H field [<-|Hin]; [exact E | exact (H field Hin)].
      * intros H field Hin. apply H. right. exact Hin.
Qed.

Lemma firstFailure_threat data fs :
  In (threat (firstFailure data fs))
     [None; Some "INVALID_NUMBER"; Some "NEGATIVE_VALUE"; Some "NUMBER_OVERFLOW"].
Proof.
  induction fs as [|f fs IH]; cbn [firstFailure].
  - left. reflexivity.
  - destruct (checkNumericRange data f) as [failure|] eqn:E; [|exact IH].
    right. exact (proj2 (checkNumericRange_some _ _ _ E)).
Qed.

Lemma every_field (field : Form.fieldName) : In field Form.fields.
Proof. destruct field; cbn; auto 6. Qed.

(** the limits [performSecurityCheck] leaves, and what a passed check
    carries *)
Lemma performSecurityCheck_limits data identifier now (m : gmap string Window) :
  (performSecurityCheck data identifier now m).1 = (checkRateLimit identifier now m).1.
Proof.
  unfold performSecurityCheck.
  destruct (checkRateLimit identifier now m) as [m' rate]. cbn [fst].
  destruct (negb (passed rate)); [reflexivity|].
  destruct (negb (passed (checkForSuspiciousPatterns (sanitizeFormData data))));
    [reflexivity|].
  destruct (negb (passed (validateNumericRanges (sanitizeFormData data))));
    reflexivity.
Qed.

Lemma performSecurityCheck_passed data identifier now (m : gmap string Window) :
  Outcome.passed (performSecurityCheck data identifier now m).2 = true ->
  (performSecurityCheck data identifier now m).2 =
    {| Outcome.passed := true;
       Outcome.sanitizedData := Some (sanitizeFormData data);
       Outcome.error := None |}.
Proof.
  unfold performSecurityCheck.
  destruct (checkRateLimit identifier now m) as [m' rate].
  destruct (negb (passed rate)); [discriminate|].
  destruct (negb (passed (checkForSuspiciousPatterns (sanitizeFormData data))));
    [discriminate|].
  destruct (negb (passed (validateNumericRanges (sanitizeFormData data))));
    [discriminate|reflexivity].
Qed.
End RangeFacts.

(** X2. The outcome of the security check.  Whatever the outcome, the
    rate-limit map after [performSecurityCheck] is the one [checkRateLimit]
    leaves: a call that is refused for its numbers has used one call of the
    quota.  The check passes exactly when the rate limit admits the call and
    the numeric ranges of the sanitized fields are in order; a passed check
    carries the sanitized form and no error, a failed one an error and no
    data. *)
Theorem security_check_outcome (data : Form.CandleFormData) (identifier : string)
    (now : Z) (m : gmap string Security.Window) :
  (Security.performSecurityCheck data identifier now m).1 =
    (Security.checkRateLimit identifier now m).1 /\
  Security.Outcome.passed (Security.performSecurityCheck data identifier now m).2 =
    Security.passed (Security.checkRateLimit identifier now m).2 &&
    Security.passed (Security.validateNumericRanges (Security.sanitizeFormData data)) /\
  (Security.Outcome.passed (Security.performSecurityCheck data identifier now m).2 = true ->
   (Security.performSecurityCheck data identifier now m).2 =
     {| Security.Outcome.passed := true;
        Security.Outcome.sanitizedData := Some (Security.sanitizeFormData data);
        Security.Outcome.error := None |}) /\
  (Security.Outcome.passed (Security.performSecurityCheck data identifier now m).2 = false ->
   Security.Outcome.sanitizedData (Security.performSecurityCheck data identifier now m).2 = None /\
   Security.Outcome.error (Security.performSecurityCheck data identifier now m).2 <> None).
Proof.
  unfold Security.performSecurityCheck.
  destruct (Security.checkRateLimit identifier now m) as [m' rate].
  rewrite SecurityFacts.sanitized_not_suspicious.
  cbn [fst snd].
  destruct (Security.passed rate); cbn [negb andb].
  - change (Security.passed Security.pass) with true. cbn [negb].
    destruct (Security.passed
                (Security.validateNumericRanges (Security.sanitizeFormData data)));
      cbn [negb fst snd Security.Outcome.passed Security.Outcome.sanitizedData
           Security.Outcome.error Security.rejected];
      repeat split; try reflexivity; try discriminate.
  - cbn [fst snd Security.Outcome.passed Security.Outcome.sanitizedData
         Security.Outcome.error Security.rejected].
    repeat split; try reflexivity; try discriminate.
Qed.

(** X3. What the numeric check accepts and what it reports.
    [validateNumericRanges] passes exactly when each of the five fields
    parses to a finite number that is not negative and not above
    [Number.MAX_SAFE_INTEGER].  Its result names no threat, or one of
    INVALID_NUMBER, NEGATIVE_VALUE and NUMBER_OVERFLOW: the test for NaN
    comes after the test for a finite number, so NAN_VALUE is never
    reported. *)
Theorem numeric_ranges_pass_iff (data : Form.CandleFormData) :
  (Security.passed (Security.validateNumericRanges data) = true <->
   forall field : Form.fieldName,
     JsNum.isFinite (JsNum.parseFloat (Form.get field data)) = true /\
     JsNum.ltb (JsNum.parseFloat (Form.get field data)) (JsNum.ofZ 0) = false /\
     JsNum.gtb (JsNum.parseFloat (Form.get field data)) Security.MAX_SAFE_INTEGER = false) /\
  In (Security.threat (Security.validateNumericRanges data))
     [None; Some "INVALID_NUMBER"; Some "NEGATIVE_VALUE"; Some "NUMBER_OVERFLOW"] /\
  Security.threat (Security.validateNumericRanges data) <> Some "NAN_VALUE".
Proof.
  split.
  - unfold Security.validateNumericRanges. rewrite RangeFacts.firstFailure_passes.
    split.
    + intros H field. apply RangeFacts.checkNumericRange_none. apply H.
      apply RangeFacts.every_field.
    + intros H field _. apply RangeFacts.checkNumericRange_none. apply H.
  - pose proof (RangeFacts.firstFailure_threat data Form.fields) as H.
    split; [exact H|].
    unfold Security.validateNumericRanges.
    cbn [In] in H.
    destruct H as [H|[H|[H|[H|[]]]]]; rewrite <- H; discriminate.
Qed.

Module QuotaFacts.
Import Security.

(** the answer to a call and the window it leaves depend on the window of
    the caller only *)
Lemma checkRateLimit_local identifier now (m1 m2 : gmap string Window) :
  m1 !! identifier = m2 !! identifier ->
  (checkRateLimit identifier now m1).2 = (checkRateLimit identifier now m2).2 /\
  (checkRateLimit identifier now m1).1 !! identifier =
    (checkRateLimit identifier now m2).1 !! identifier.
Proof.
  intros H. unfold checkRateLimit. rewrite H.
  destruct (m2 !! identifier) as [window|] eqn:E.
  - destruct (now >? resetTime window).
    + cbn [fst snd]. rewrite !lookup_insert_eq. auto.
    + destruct (count window >=? MAX_REQUESTS_PER_WINDOW).
      * cbn [fst snd]. rewrite E, <- H. auto.
      * cbn [fst snd]. rewrite !lookup_insert_eq. auto.
  - cbn [fst snd]. rewrite !lookup_insert_eq. auto.
Qed.

Lemma callsAt_local identifier times : forall (m1 m2 : gmap string Window),
  m1 !! identifier = m2 !! identifier ->
  (callsAt identifier times m1).1 = (callsAt identifier times m2).1 /\
  (callsAt identifier times m1).2 !! identifier =
    (callsAt identifier times m2).2 !! identifier.
Proof.
  induction times as [|now later IH]; intros m1 m2 H; cbn [callsAt].
  - cbn [fst snd]. auto.
  - destruct (checkRateLimit_local identifier now m1 m2 H) as [A B].
    destruct (checkRateLimit identifier now m1) as [m1' a1].
    destruct (checkRateLimit identifier now m2) as [m2' a2].
    cbn [fst snd] in A, B. subst a2.
    destruct (IH m1' m2' B) as [C D].
    destruct (callsAt identifier later m1') as [as1 n1].
    destruct (callsAt identifier later m2') as [as2 n2].
    cbn [fst snd] in *. subst as2. auto.
Qed.

Lemma cleanup_lookup t (m : gmap string Window) k :
  cleanupRateLimitMap t m !! k = Quota.kept t (m !! k).
Proof.
  unfold cleanupRateLimitMap, Quota.kept.
  destruct (m !! k) as [window|] eqn:E.
  - destruct (t >? resetTime window) eqn:C.
    + apply map_lookup_filter_None. right. intros x Hx.
      rewrite E in Hx. inversion Hx; subst. cbn [snd].
      apply Z.gtb_gt in C. intros N. apply N. exact C.
    + apply map_lookup_filter_Some. split; [exact E|]. cbn [snd].
      intros N. apply Z.gtb_gt in N. congruence.
  - apply map_lookup_filter_None. left. exact E.
Qed.

(** the limits after [performSecurityCheck] and [validate] are the ones of
    [checkRateLimit] *)
Lemma validate_limits c now (limits : gmap string Window) data :
  (Core.validate c now limits data).1 =
    (checkRateLimit (generateIdentifier (Session.id (Core.session c)) None) now limits).1.
Proof.
  unfold Core.validate.
  pose proof (RangeFacts.performSecurityCheck_limits data
                (generateIdentifier (Session.id (Core.session c)) None) now limits)
    as A.
  destruct (performSecurityCheck data
              (generateIdentifier (Session.id (Core.session c)) None) now limits)
    as [limits' o].
  cbn [fst] in A. subst limits'.
  destruct (negb (Outcome.passed o)); reflexivity.
Qed.

Lemma generateIdentifier_of_session s :
  s <> "" -> generateIdentifier s None = "candle_input_" +:+ s.
Proof.
  intros H. unfold generateIdentifier.
  destruct (String.eqb_spec s ""); [contradiction|reflexivity].
Qed.

Lemma generateIdentifier_inj s s' :
  s <> "" -> s' <> "" ->
  generateIdentifier s None = generateIdentifier s' None -> s = s'.
Proof.
  intros H H' E.
  rewrite !generateIdentifier_of_session in E by assumption.
  exact (String.app_inj _ _ _ E).
Qed.
End QuotaFacts.

(** X4. The windows of the rate limiter are independent.  A call made
    under another identifier, at any time, changes neither the answers to
    the calls one identifier makes afterwards nor the window those calls
    leave. *)
Theorem rate_limit_isolated (identifier other : string) (now : Z) (times : list Z)
    (m : gmap string Security.Window) :
  identifier <> other ->
  (Security.callsAt identifier times (Security.checkRateLimit other now m).1).1 =
    (Security.callsAt identifier times m).1 /\
  (Security.callsAt identifier times (Security.checkRateLimit other now m).1).2 !! identifier =
    (Security.callsAt identifier times m).2 !! identifier.
Proof.
  intros H. apply QuotaFacts.callsAt_local.
  apply RateLimitFacts.checkRateLimit_other. exact H.
Qed.

Lemma rate_limit_isolated_witness :
  (Security.callsAt "candle_input_a" [0; 1; 2]
     (Security.checkRateLimit "candle_input_b" 0 ∅).1).1 =
    (Security.callsAt "candle_input_a" [0; 1; 2] ∅).1 /\
  (Security.callsAt "candle_input_a" [0; 1; 2]
     (Security.checkRateLimit "candle_input_b" 0 ∅).1).2 !! "candle_input_a" =
    (Security.callsAt "candle_input_a" [0; 1; 2] ∅).2 !! "candle_input_a".
Proof.
  apply (rate_limit_isolated "candle_input_a" "candle_input_b" 0 [0; 1; 2] ∅).
  discriminate.
Defined.

(** X5. The counter stays within the quota.  When every window of the map
    has counted between 1 and 100 calls, so has every window after a call
    of [checkRateLimit], whoever calls and whenever: the counter is never
    incremented past the quota. *)
Theorem rate_limit_count_bounded (identifier : string) (now : Z)
    (m : gmap string Security.Window) :
  Quota.withinQuota m ->
  Quota.withinQuota (Security.checkRateLimit identifier now m).1.
Proof.
  unfold Quota.withinQuota. intros H. unfold Security.checkRateLimit.
  destruct (m !! identifier) as [window|] eqn:E.
  - pose proof (map_Forall_lookup_1 _ _ _ _ H E) as B. cbn beta in B.
    destruct (now >? Security.resetTime window).
    + cbn [fst]. apply map_Forall_insert_2; [|exact H].
      cbn [Security.count]. unfold Security.MAX_REQUESTS_PER_WINDOW. lia.
    + destruct (Security.count window >=? Security.MAX_REQUESTS_PER_WINDOW) eqn:C.
      * exact H.
      * cbn [fst]. apply map_Forall_insert_2; [|exact H].
        cbn [Security.count]. rewrite Z.geb_leb in C. apply Z.leb_gt in C. lia.
  - cbn [fst]. apply map_Forall_insert_2; [|exact H].
    cbn [Security.count]. unfold Security.MAX_REQUESTS_PER_WINDOW. lia.
Qed.

Lemma rate_limit_count_bounded_witness :
  Quota.withinQuota (Security.checkRateLimit "candle_input_a" 0 ∅).1.
Proof.
  apply (rate_limit_count_bounded "candle_input_a" 0 ∅).
  unfold Quota.withinQuota. apply map_Forall_empty.
Defined.

(** X6. The periodic clean-up cannot be observed.  [cleanupRateLimitMap]
    run at time [t] removes exactly the windows that are over at [t]; for a
    call made at [t] or later, [checkRateLimit] gives the same answer and
    leaves the caller the same window whether or not the clean-up ran. *)
Theorem cleanup_is_transparent (identifier : string) (t now : Z)
    (m : gmap string Security.Window) :
  t <= now ->
  (forall k, Security.cleanupRateLimitMap t m !! k = Quota.kept t (m !! k)) /\
  (Security.checkRateLimit identifier now (Security.cleanupRateLimitMap t m)).2 =
    (Security.checkRateLimit identifier now m).2 /\
  (Security.checkRateLimit identifier now (Security.cleanupRateLimitMap t m)).1 !! identifier =
    (Security.checkRateLimit identifier now m).1 !! identifier.
Proof.
  intros Hle. split; [intros k; apply QuotaFacts.cleanup_lookup|].
  pose proof (QuotaFacts.cleanup_lookup t m identifier) as L.
  unfold Quota.kept in L.
  destruct (m !! identifier) as [window|] eqn:E.
  - destruct (t >? Security.resetTime window) eqn:C.
    + apply Z.gtb_gt in C.
      unfold Security.checkRateLimit. rewrite L, E.
      destruct (now >? Security.resetTime window) eqn:D;
        [|rewrite Z.gtb_ltb in D; apply Z.ltb_ge in D; lia].
      cbn [fst snd]. rewrite !lookup_insert_eq. auto.
    + apply QuotaFacts.checkRateLimit_local. rewrite L, E. reflexivity.
  - apply QuotaFacts.checkRateLimit_local. rewrite L, E. reflexivity.
Qed.

Lemma cleanup_is_transparent_witness :
  let m : gmap string Security.Window :=
    <["candle_input_a" := {| Security.count := 100; Security.resetTime := 60000 |}]> ∅ in
  (forall k, Security.cleanupRateLimitMap 60001 m !! k = Quota.kept 60001 (m !! k)) /\
  (Security.checkRateLimit "candle_input_a" 60002 (Security.cleanupRateLimitMap 60001 m)).2 =
    (Security.checkRateLimit "candle_input_a" 60002 m).2 /\
  (Security.checkRateLimit "candle_input_a" 60002
     (Security.cleanupRateLimitMap 60001 m)).1 !! "candle_input_a" =
    (Security.checkRateLimit "candle_input_a" 60002 m).1 !! "candle_input_a".
Proof.
  cbv zeta. apply (cleanup_is_transparent "candle_input_a" 60001 60002). lia.
Defined.

Module HtmlFacts.
Import Chars Html.

Lemma escapeChar_safe (a : ascii) :
  forallb (fun c => negb (isMarkup c)) (escapeChar a) = true.
Proof.
  revert a.
  apply (RegexFacts.forall_ascii
           (fun a => forallb (fun c => negb (isMarkup c)) (escapeChar a))).
  vm_compute. reflexivity.
Qed.

Lemma escapeChar_plain (a : ascii) : isSpecial a = false -> escapeChar a = [a].
Proof. unfold isSpecial, escapeChar. destruct (entity a); [discriminate|reflexivity]. Qed.

Lemma escapeChar_length (a : ascii) : (1 <= List.length (escapeChar a))%nat.
Proof.
  revert a.
  assert (H : forall a, (1 <=? List.length (escapeChar a))%nat = true).
  { apply (RegexFacts.forall_ascii (fun a => (1 <=? List.length (escapeChar a))%nat)).
    vm_compute. reflexivity. }
  intros a. apply Nat.leb_le. apply H.
Qed.

Lemma escaped_safe (s : chars) :
  forallb (fun c => negb (isMarkup c)) (List.concat (List.map escapeChar s)) = true.
Proof.
  induction s as [|a s IH]; [reflexivity|].
  cbn [List.map List.concat]. rewrite forallb_app, escapeChar_safe, IH. reflexivity.
Qed.

Lemma escaped_plain (s : chars) :
  forallb (fun c => negb (isSpecial c)) s = true ->
  List.concat (List.map escapeChar s) = s.
Proof.
  induction s as [|a s IH]; [reflexivity|].
  cbn [forallb List.map List.concat]. intros H.
  apply andb_true_iff in H. destruct H as [Ha Hs].
  apply negb_true_iff in Ha. rewrite (escapeChar_plain a Ha), (IH Hs). reflexivity.
Qed.

Lemma escaped_length (s : chars) :
  (List.length s <= List.length (List.concat (List.map escapeChar s)))%nat.
Proof.
  induction s as [|a s IH]; [reflexivity|].
  cbn [List.map List.concat List.length]. rewrite List.length_app.
  pose proof (escapeChar_length a). lia.
Qed.

Lemma length_ofString (s : string) : List.length (ofString s) = String.length s.
Proof.
  induction s as [|c s IH]; [reflexivity|]. cbn. f_equal. exact IH.
Qed.
End HtmlFacts.

(** X7. What [escapeHtml] leaves.  The escaped text contains none of the
    characters that open or close a tag or an attribute value (the two angle
    brackets, the two quotes, the slash); a text with none of the six
    characters of the table is returned as it is; and escaping never makes a
    text shorter. *)
Theorem escapeHtml_leaves_no_markup (unsafe : string) :
  forallb (fun c => negb (Html.isMarkup c)) (Chars.ofString (Html.escapeHtml unsafe)) = true /\
  (forallb (fun c => negb (Html.isSpecial c)) (Chars.ofString unsafe) = true ->
   Html.escapeHtml unsafe = unsafe) /\
  (String.length unsafe <= String.length (Html.escapeHtml unsafe))%nat.
Proof.
  unfold Html.escapeHtml. repeat split.
  - rewrite ShapeFacts.ofString_toString. apply HtmlFacts.escaped_safe.
  - intros H. rewrite (HtmlFacts.escaped_plain _ H). apply ShapeFacts.toString_ofString.
  - rewrite <- !HtmlFacts.length_ofString, ShapeFacts.ofString_toString.
    apply HtmlFacts.escaped_length.
Qed.

(** X8. Sessions do not share a quota.  The identifier the core validates
    under is made from its session's identifier; for two sessions with
    different, non-empty identifiers, a validation in one leaves the
    rate-limit window of the other as it was. *)
Theorem session_quotas_independent (c : Core.CandleInputCore) (other : string)
    (now : Z) (limits : gmap string Security.Window) (data : Form.CandleFormData) :
  Session.id (Core.session c) <> "" -> other <> "" ->
  Session.id (Core.session c) <> other ->
  (Core.validate c now limits data).1 !! Security.generateIdentifier other None =
    limits !! Security.generateIdentifier other None.
Proof.
  intros H H' D. rewrite QuotaFacts.validate_limits.
  apply RateLimitFacts.checkRateLimit_other.
  intros E. apply D. symmetry.
  apply QuotaFacts.generateIdentifier_inj; assumption.
Qed.

Lemma session_quotas_independent_witness :
  (Core.validate (Core.create Samples.session None None) 0 ∅ Samples.formA).1
    !! Security.generateIdentifier "223e4567-e89b-12d3-a456-426614174000" None =
  (∅ : gmap string Security.Window)
    !! Security.generateIdentifier "223e4567-e89b-12d3-a456-426614174000" None.
Proof.
  apply (session_quotas_independent (Core.create Samples.session None None)
           "223e4567-e89b-12d3-a456-426614174000" 0 ∅ Samples.formA);
    cbn; discriminate.
Defined.

(** * The validation cache *)

Module CacheFacts.
Import Cache.

Section Entries.
Context {T : Type}.
Implicit Types (cache : @Entries T) (entry : CacheEntry T).

Lemma mapGet_mapSet key entry cache :
  mapGet key (mapSet key entry cache) = Some entry.
Proof.
  induction cache as [|[k old] rest IH]; cbn [mapSet mapGet].
  - rewrite String.eqb_refl. reflexivity.
  - destruct (String.eqb k key) eqn:E; cbn [mapGet]; rewrite E; [reflexivity|exact IH].
Qed.

Lemma mapGet_mapDelete key cache : mapGet key (mapDelete key cache) = None.
Proof.
  unfold mapDelete.
  induction cache as [|[k old] rest IH]; cbn [List.filter mapGet fst]; [reflexivity|].
  destruct (String.eqb k key) eqn:E; cbn [negb mapGet]; [exact IH|].
  rewrite E. exact IH.
Qed.

Lemma length_mapSet key entry cache :
  (List.length (mapSet key entry cache) <= S (List.length cache))%nat.
Proof.
  induction cache as [|[k old] rest IH]; cbn [mapSet List.length]; [lia|].
  destruct (String.eqb k key); cbn [List.length]; lia.
Qed.

Lemma length_mapSet_present key entry old cache :
  mapGet key cache = Some old ->
  List.length (mapSet key entry cache) = List.length cache.
Proof.
  induction cache as [|[k e] rest IH]; cbn [mapSet mapGet List.length]; [discriminate|].
  destruct (String.eqb k key); cbn [List.length]; [reflexivity|].
  intros H. rewrite (IH H). reflexivity.
Qed.

Lemma length_mapDelete key cache :
  (List.length (mapDelete key cache) <= List.length cache)%nat.
Proof. unfold mapDelete. apply List.filter_length_le. Qed.

Lemma length_mapDelete_present key entry cache :
  In (key, entry) cache ->
  (List.length (mapDelete key cache) < List.length cache)%nat.
Proof.
  unfold mapDelete.
  induction cache as [|[k e] rest IH]; cbn [In List.filter fst List.length]; [intros []|].
  intros [H|H].
  - inversion H; subst. rewrite String.eqb_refl. cbn [negb].
    pose proof (List.filter_length_le
                  (fun kv : string * CacheEntry T => negb (String.eqb (fst kv) key)) rest).
    lia.
  - specialize (IH H).
    destruct (negb (String.eqb k key)); cbn [List.length]; lia.
Qed.

Lemma mapDelete_absent key cache :
  ~ In key (List.map fst cache) -> mapDelete key cache = cache.
Proof.
  unfold mapDelete.
  induction cache as [|[k e] rest IH]; cbn [List.map In List.filter fst]; [reflexivity|].
  intros H. destruct (String.eqb_spec k key) as [->|N]; [tauto|].
  cbn [negb]. rewrite IH by tauto. reflexivity.
Qed.

Lemma length_mapDelete_one key entry cache :
  NoDup (List.map fst cache) -> In (key, entry) cache ->
  List.length (mapDelete key cache) = pred (List.length cache).
Proof.
  induction cache as [|[k e] rest IH]; cbn [In List.map fst]; [intros _ []|].
  intros D H. apply NoDup_cons in D. destruct D as [Dk Drest].
  unfold mapDelete. cbn [List.filter fst List.length].
  destruct H as [H|H].
  - inversion H; subst. rewrite String.eqb_refl. cbn [negb].
    fold (mapDelete key rest). rewrite mapDelete_absent; [reflexivity|].
    intros Hin. apply Dk. apply list_elem_of_In. exact Hin.
  - destruct (String.eqb_spec k key) as [->|N].
    + exfalso. apply Dk. apply list_elem_of_In.
      apply (List.in_map fst) in H. exact H.
    + cbn [negb List.length]. fold (mapDelete key rest).
      rewrite (IH Drest H).
      destruct rest; [destruct H|reflexivity].
Qed.

Lemma keys_mapSet key entry cache :
  Forall (fun kv => fst kv <> "") cache -> key <> "" ->
  Forall (fun kv : string * CacheEntry T => fst kv <> "") (mapSet key entry cache).
Proof.
  intros H K. induction H as [|[k e] rest Hk Hrest IH]; cbn [mapSet].
  - constructor; [exact K|constructor].
  - destruct (String.eqb k key); constructor; assumption.
Qed.

Lemma keys_mapDelete key cache :
  Forall (fun kv => fst kv <> "") cache ->
  Forall (fun kv : string * CacheEntry T => fst kv <> "") (mapDelete key cache).
Proof.
  intros H. unfold mapDelete. apply List.Forall_forall. intros kv Hin.
  apply List.filter_In in Hin. destruct Hin as [Hin _].
  rewrite List.Forall_forall in H. exact (H kv Hin).
Qed.

(** the candidate the loop of [evictLRU] ends with: an entry of the
    cache of the least score, unless the candidate it started with was
    at least as low *)
Lemma lru_fold cache : forall k0 t0 a0,
  exists k t a,
    fold_left lruStep cache (Some (k0, t0, a0)) = Some (k, t, a) /\
    a * 1000 + t <= a0 * 1000 + t0 /\
    (forall key entry, In (key, entry) cache -> a * 1000 + t <= score entry) /\
    ((k, t, a) = (k0, t0, a0) \/
     exists entry, In (k, entry) cache /\ t = timestamp entry /\ a = accessCount entry).
Proof.
  induction cache as [|[k1 e1] rest IH]; intros k0 t0 a0.
  - exists k0, t0, a0. cbn [fold_left]. repeat split; [lia| |left; reflexivity].
    intros ? ? [].
  - cbn [fold_left lruStep].
    destruct (score e1 <? a0 * 1000 + t0) eqn:C.
    + apply Z.ltb_lt in C.
      destruct (IH k1 (timestamp e1) (accessCount e1)) as (k & t & a & F & B & A & O).
      exists k, t, a. fold (score e1) in B.
      split; [exact F|]. split; [lia|]. split.
      * intros key entry [H|H]; [inversion H; subst; exact B|exact (A _ _ H)].
      * right. destruct O as [O|(entry & Hin & Ht & Ha)].
        -- inversion O; subst. exists e1. split; [left; reflexivity|auto].
        -- exists entry. split; [right; exact Hin|auto].
    + apply Z.ltb_ge in C.
      destruct (IH k0 t0 a0) as (k & t & a & F & B & A & O).
      exists k, t, a.
      split; [exact F|]. split; [exact B|]. split.
      * intros key entry [H|H]; [inversion H; subst; lia|exact (A _ _ H)].
      * destruct O as [O|(entry & Hin & Ht & Ha)]; [left; exact O|].
        right. exists entry. split; [right; exact Hin|auto].
Qed.

Lemma lru_of_cache kv cache :
  exists key entry,
    fold_left lruStep (kv :: cache) None =
      Some (key, timestamp entry, accessCount entry) /\
    In (key, entry) (kv :: cache) /\
    (forall k e, In (k, e) (kv :: cache) -> score entry <= score e).
Proof.
  destruct kv as [k1 e1]. cbn [fold_left lruStep].
  destruct (lru_fold cache k1 (timestamp e1) (accessCount e1))
    as (k & t & a & F & B & A & O).
  fold (score e1) in B.
  destruct O as [O|(entry & Hin & Ht & Ha)].
  - inversion O; subst. exists k1, e1. split; [exact F|].
    split; [left; reflexivity|].
    intros k e [H|H]; [inversion H; subst; lia|].
    specialize (A _ _ H). unfold score at 1. lia.
  - subst. exists k, entry. split; [exact F|].
    split; [right; exact Hin|].
    intros k' e [H|H]; [inversion H; subst; exact B|exact (A _ _ H)].
Qed.

Lemma evictLRU_shrinks cache :
  Forall (fun kv => fst kv <> "") cache -> cache <> [] ->
  (List.length (evictLRU cache) < List.length cache)%nat /\
  Forall (fun kv : string * CacheEntry T => fst kv <> "") (evictLRU cache).
Proof.
  intros K N. destruct cache as [|kv rest]; [contradiction|].
  destruct (lru_of_cache kv rest) as (key & entry & F & Hin & _).
  unfold evictLRU. rewrite F.
  rewrite List.Forall_forall in K. pose proof (K _ Hin) as Hk. cbn [fst] in Hk.
  destruct (String.eqb_spec key ""); [contradiction|].
  split.
  - apply (length_mapDelete_present key entry). exact Hin.
  - apply keys_mapDelete. apply List.Forall_forall. exact K.
Qed.

Lemma generateKey_not_empty data : generateKey data <> "".
Proof.
  unfold generateKey. destruct (Form.open data); discriminate.
Qed.

(** what every operation keeps *)
Lemma apply_bounded cache operation :
  (List.length cache <= maxSize)%nat ->
  Forall (fun kv => fst kv <> "") cache ->
  (List.length (apply cache operation) <= maxSize)%nat /\
  Forall (fun kv : string * CacheEntry T => fst kv <> "") (apply cache operation).
Proof.
  intros L K. destruct operation as [data result now|data now]; cbn [apply].
  - unfold setValidation.
    destruct (Nat.leb_spec maxSize (List.length cache)) as [Full|Room].
    + assert (N : cache <> []).
      { intros ->. cbn in Full. unfold maxSize in Full. lia. }
      destruct (evictLRU_shrinks cache K N) as [S K'].
      split.
      * pose proof (length_mapSet (generateKey data)
                      {| value := result; timestamp := now; accessCount := 1 |}
                      (evictLRU cache)).
        lia.
      * apply keys_mapSet; [exact K'|apply generateKey_not_empty].
    + split.
      * pose proof (length_mapSet (generateKey data)
                      {| value := result; timestamp := now; accessCount := 1 |} cache).
        lia.
      * apply keys_mapSet; [exact K|apply generateKey_not_empty].
  - unfold getValidation.
    destruct (mapGet (generateKey data) cache) as [entry|] eqn:G; cbn [fst]; [|auto].
    destruct (now - timestamp entry >? ttl); cbn [fst].
    + split; [|apply keys_mapDelete; exact K].
      pose proof (length_mapDelete (generateKey data) cache). lia.
    + split; [|apply keys_mapSet; [exact K|apply generateKey_not_empty]].
      rewrite (length_mapSet_present _ _ _ _ G). exact L.
Qed.

Lemma run_bounded operations : forall cache,
  (List.length cache <= maxSize)%nat ->
  Forall (fun kv => fst kv <> "") cache ->
  (List.length (fold_left apply operations cache) <= maxSize)%nat.
Proof.
  induction operations as [|operation later IH]; intros cache L K; cbn [fold_left].
  - exact L.
  - destruct (apply_bounded cache operation L K) as [L' K']. apply IH; assumption.
Qed.
End Entries.

(** *** The key *)

Lemma app_nil (t : string) : "" +:+ t = t.
Proof. reflexivity. Qed.

Lemma app_cons (c : ascii) (s t : string) : String c s +:+ t = String c (s +:+ t).
Proof. reflexivity. Qed.

Lemma barFree_cons c s :
  barFree (String c s) = true -> c <> "|"%char /\ barFree s = true.
Proof.
  unfold barFree, Chars.includes, Chars.ofString. cbn [list_ascii_of_string existsb].
  intros H. apply negb_true_iff in H. apply orb_false_iff in H. destruct H as [A B].
  split.
  - intros ->. discriminate.
  - rewrite B. reflexivity.
Qed.

Lemma split_bar x : forall x' r r',
  barFree x = true -> barFree x' = true ->
  x +:+ "|" +:+ r = x' +:+ "|" +:+ r' -> x = x' /\ r = r'.
Proof.
  induction x as [|c x IH]; intros [|c' x'] r r' B B' E.
  - rewrite !app_nil, !app_cons, !app_nil in E. inversion E. auto.
  - apply barFree_cons in B'. destruct B' as [N _].
    rewrite app_nil, !app_cons in E. inversion E. congruence.
  - apply barFree_cons in B. destruct B as [N _].
    rewrite app_nil, !app_cons in E. inversion E. congruence.
  - apply barFree_cons in B. apply barFree_cons in B'.
    destruct B as [_ B]. destruct B' as [_ B'].
    rewrite !(app_cons _ x), !(app_cons _ x') in E. inversion E; subst.
    destruct (IH x' r r' B B' H1) as [-> ->]. auto.
Qed.

Lemma numeric_barFree (l : Chars.chars) :
  forallb Sanitizer.isNumericChar l = true -> Chars.includes "|" l = false.
Proof.
  unfold Chars.includes.
  induction l as [|c l IH]; cbn [forallb existsb]; [reflexivity|].
  intros H. apply andb_true_iff in H. destruct H as [Hc Hl].
  rewrite (IH Hl), orb_false_r.
  destruct (Chars.isChar "|" c) eqn:E; [|reflexivity].
  apply SanitizerFacts.isChar_eq in E. subst c. discriminate.
Qed.

Lemma sanitized_barFree data field :
  barFree (Form.get field (Security.sanitizeFormData data)) = true.
Proof.
  rewrite SecurityFacts.sanitized_field.
  unfold barFree, Security.sanitizeNumericInput, Sanitizer.sanitizeNumericInput.
  unfold Chars.toString, Chars.ofString.
  rewrite list_ascii_of_string_of_list_ascii.
  rewrite numeric_barFree; [reflexivity|].
  apply SanitizerFacts.c_numeric. apply SanitizerFacts.sanitizeChars_canonical.
Qed.
End CacheFacts.

(** X9. A stored result is served while it is fresh, and every hit
    renews it.  After [setValidation] stores a result for a form, whatever
    the cache held, [getValidation] for the same form returns that result
    when at most five minutes have passed since the store; the hit moves the
    entry's timestamp, so a second read at most five minutes after the first
    returns it again, however long after the store, and the entry has then
    been counted three times. *)
Theorem cache_hit_within_ttl {T : Type} (data : Form.CandleFormData) (result : T)
    (now now' now'' : Z) (cache : @Cache.Entries T) :
  now' - now <= Cache.ttl -> now'' - now' <= Cache.ttl ->
  (Cache.getValidation data now' (Cache.setValidation data result now cache)).2
    = Some result /\
  (Cache.getValidation data now''
     (Cache.getValidation data now' (Cache.setValidation data result now cache)).1).2
    = Some result /\
  Cache.mapGet (Cache.generateKey data)
    (Cache.getValidation data now''
       (Cache.getValidation data now' (Cache.setValidation data result now cache)).1).1
    = Some {| Cache.value := result; Cache.timestamp := now''; Cache.accessCount := 3 |}.
Proof.
  intros H1 H2.
  unfold Cache.setValidation.
  set (stored := Cache.mapSet _ _ _).
  assert (G : Cache.mapGet (Cache.generateKey data) stored =
              Some {| Cache.value := result; Cache.timestamp := now; Cache.accessCount := 1 |})
    by apply CacheFacts.mapGet_mapSet.
  unfold Cache.getValidation at 1 3 5. rewrite G. cbn [Cache.timestamp Cache.value Cache.accessCount].
  destruct (now' - now >? Cache.ttl) eqn:C1; [apply Z.gtb_gt in C1; lia|].
  cbn [fst snd].
  set (first := Cache.mapSet _ _ stored).
  assert (G' : Cache.mapGet (Cache.generateKey data) first =
               Some {| Cache.value := result; Cache.timestamp := now';
                       Cache.accessCount := 1 + 1 |})
    by apply CacheFacts.mapGet_mapSet.
  unfold Cache.getValidation. rewrite G'.
  cbn [Cache.timestamp Cache.value Cache.accessCount].
  destruct (now'' - now' >? Cache.ttl) eqn:C2; [apply Z.gtb_gt in C2; lia|].
  cbn [fst snd]. repeat split. apply CacheFacts.mapGet_mapSet.
Qed.

Lemma cache_hit_within_ttl_witness :
  (Cache.getValidation Samples.formA 300000
     (Cache.setValidation Samples.formA true 0 [])).2 = Some true /\
  (Cache.getValidation Samples.formA 600000
     (Cache.getValidation Samples.formA 300000
        (Cache.setValidation Samples.formA true 0 [])).1).2 = Some true /\
  Cache.mapGet (Cache.generateKey Samples.formA)
    (Cache.getValidation Samples.formA 600000
       (Cache.getValidation Samples.formA 300000
          (Cache.setValidation Samples.formA true 0 [])).1).1
    = Some {| Cache.value := true; Cache.timestamp := 600000; Cache.accessCount := 3 |}.
Proof.
  apply (cache_hit_within_ttl Samples.formA true 0 300000 600000 []);
    vm_compute; discriminate.
Defined.

(** X10. A stale result is dropped.  When more than five minutes have
    passed since [setValidation] stored a result and the entry was not read
    in between, [getValidation] returns null and deletes the entry: a later
    read, at any time, returns null and leaves the cache as it is. *)
Theorem cache_miss_after_ttl {T : Type} (data : Form.CandleFormData) (result : T)
    (now now' : Z) (cache : @Cache.Entries T) :
  now' - now > Cache.ttl ->
  (Cache.getValidation data now' (Cache.setValidation data result now cache)).2 = None /\
  Cache.mapGet (Cache.generateKey data)
    (Cache.getValidation data now' (Cache.setValidation data result now cache)).1 = None /\
  (forall t,
     Cache.getValidation data t
       (Cache.getValidation data now' (Cache.setValidation data result now cache)).1 =
     ((Cache.getValidation data now' (Cache.setValidation data result now cache)).1, None)).
Proof.
  intros H.
  unfold Cache.setValidation.
  set (stored := Cache.mapSet _ _ _).
  assert (G : Cache.mapGet (Cache.generateKey data) stored =
              Some {| Cache.value := result; Cache.timestamp := now; Cache.accessCount := 1 |})
    by apply CacheFacts.mapGet_mapSet.
  unfold Cache.getValidation at 1 2 4 5. rewrite G. cbn [Cache.timestamp].
  destruct (now' - now >? Cache.ttl) eqn:C; [|rewrite Z.gtb_ltb in C; apply Z.ltb_ge in C; lia].
  cbn [fst snd]. split; [reflexivity|].
  split; [apply CacheFacts.mapGet_mapDelete|].
  intros t. unfold Cache.getValidation. rewrite CacheFacts.mapGet_mapDelete. reflexivity.
Qed.

Lemma cache_miss_after_ttl_witness :
  (Cache.getValidation Samples.formA 300001
     (Cache.setValidation Samples.formA true 0 [])).2 = None /\
  Cache.mapGet (Cache.generateKey Samples.formA)
    (Cache.getValidation Samples.formA 300001
       (Cache.setValidation Samples.formA true 0 [])).1 = None /\
  (forall t,
     Cache.getValidation Samples.formA t
       (Cache.getValidation Samples.formA 300001
          (Cache.setValidation Samples.formA true 0 [])).1 =
     ((Cache.getValidation Samples.formA 300001
         (Cache.setValidation Samples.formA true 0 [])).1, None)).
Proof.
  apply (cache_miss_after_ttl Samples.formA true 0 300001 []). vm_compute. reflexivity.
Defined.

(** X11. The cache never holds more than 100 entries.  Starting from the
    cleared cache, after any sequence of [setValidation] and [getValidation]
    calls, with any forms, results and clock readings, the cache has at most
    [maxSize] entries. *)
Theorem cache_size_bounded {T : Type} (operations : list (@Cache.Operation T)) :
  (List.length (fold_left Cache.apply operations Cache.clear) <= Cache.maxSize)%nat.
Proof.
  apply CacheFacts.run_bounded.
  - cbn. unfold Cache.maxSize. lia.
  - constructor.
Qed.

(** X12. What [evictLRU] evicts.  On a cache that is not empty (its keys
    distinct and not empty, as those of the validation cache are) it
    deletes exactly one entry, and that entry has the least score
    [accessCount * 1000 + timestamp] of the cache. *)
Theorem cache_evicts_lowest_score {T : Type} (cache : @Cache.Entries T) :
  Cache.wellFormed cache -> cache <> [] ->
  exists key entry,
    In (key, entry) cache /\
    Cache.evictLRU cache = Cache.mapDelete key cache /\
    (forall k e, In (k, e) cache -> Cache.score entry <= Cache.score e) /\
    List.length (Cache.evictLRU cache) = pred (List.length cache) /\
    Cache.mapGet key (Cache.evictLRU cache) = None.
Proof.
  intros [D K] N. destruct cache as [|kv rest]; [contradiction|].
  destruct (CacheFacts.lru_of_cache kv rest) as (key & entry & F & Hin & Least).
  exists key, entry.
  assert (E : Cache.evictLRU (kv :: rest) = Cache.mapDelete key (kv :: rest)).
  { unfold Cache.evictLRU. rewrite F.
    rewrite List.Forall_forall in K. pose proof (K _ Hin) as Hk. cbn [fst] in Hk.
    destruct (String.eqb_spec key ""); [contradiction|reflexivity]. }
  rewrite E. repeat split; try assumption.
  - apply (CacheFacts.length_mapDelete_one key entry); assumption.
  - apply CacheFacts.mapGet_mapDelete.
Qed.

Lemma cache_evicts_lowest_score_witness :
  exists key entry,
    In (key, entry)
       [("a", {| Cache.value := true; Cache.timestamp := 5000; Cache.accessCount := 9 |});
        ("b", {| Cache.value := false; Cache.timestamp := 9000; Cache.accessCount := 1 |})] /\
    Cache.evictLRU
       [("a", {| Cache.value := true; Cache.timestamp := 5000; Cache.accessCount := 9 |});
        ("b", {| Cache.value := false; Cache.timestamp := 9000; Cache.accessCount := 1 |})]
      = Cache.mapDelete key
       [("a", {| Cache.value := true; Cache.timestamp := 5000; Cache.accessCount := 9 |});
        ("b", {| Cache.value := false; Cache.timestamp := 9000; Cache.accessCount := 1 |})] /\
    (forall k e,
       In (k, e)
          [("a", {| Cache.value := true; Cache.timestamp := 5000; Cache.accessCount := 9 |});
           ("b", {| Cache.value := false; Cache.timestamp := 9000; Cache.accessCount := 1 |})] ->
       Cache.score entry <= Cache.score e) /\
    List.length
      (Cache.evictLRU
         [("a", {| Cache.value := true; Cache.timestamp := 5000; Cache.accessCount := 9 |});
          ("b", {| Cache.value := false; Cache.timestamp := 9000; Cache.accessCount := 1 |})])
      = pred 2 /\
    Cache.mapGet key
      (Cache.evictLRU
         [("a", {| Cache.value := true; Cache.timestamp := 5000; Cache.accessCount := 9 |});
          ("b", {| Cache.value := false; Cache.timestamp := 9000; Cache.accessCount := 1 |})])
      = None.
Proof.
  apply (cache_evicts_lowest_score
           [("a", {| Cache.value := true; Cache.timestamp := 5000; Cache.accessCount := 9 |});
            ("b", {| Cache.value := false; Cache.timestamp := 9000; Cache.accessCount := 1 |})]).
  - split.
    + cbn. repeat constructor; cbn; intros H; inversion H; subst;
        try discriminate;
        match goal with H' : _ ∈ _ |- _ => inversion H' end.
    + repeat constructor; cbn; discriminate.
  - discriminate.
Defined.

(** X13. Forms and cache keys.  On forms whose fields do not contain the
    separator [|], [generateKey] is injective: two such forms with the same
    key are the same form, so a result is never served for another form's
    fields.  The fields of a sanitized form never contain the separator. *)
Theorem cache_key_injective :
  (forall a b : Form.CandleFormData,
     (forall field, Cache.barFree (Form.get field a) = true) ->
     (forall field, Cache.barFree (Form.get field b) = true) ->
     Cache.generateKey a = Cache.generateKey b -> a = b) /\
  (forall data field,
     Cache.barFree (Form.get field (Security.sanitizeFormData data)) = true).
Proof.
  split; [|apply CacheFacts.sanitized_barFree].
  intros a b A B E. unfold Cache.generateKey in E.
  pose proof (A Form.Open) as Ao. pose proof (A Form.High) as Ah.
  pose proof (A Form.Low) as Al. pose proof (A Form.Close) as Ac.
  pose proof (B Form.Open) as Bo. pose proof (B Form.High) as Bh.
  pose proof (B Form.Low) as Bl. pose proof (B Form.Close) as Bc.
  cbn [Form.get] in *.
  destruct a as [ao ah al ac av], b as [bo bh bl bc bv].
  cbn [Form.open Form.high Form.low Form.close Form.volume] in *.
  apply CacheFacts.split_bar in E; [|assumption..]. destruct E as [-> E].
  apply CacheFacts.split_bar in E; [|assumption..]. destruct E as [-> E].
  apply CacheFacts.split_bar in E; [|assumption..]. destruct E as [-> E].
  apply CacheFacts.split_bar in E; [|assumption..]. destruct E as [-> ->].
  reflexivity.
Qed.

(** * The validation service beyond the scenarios *)

Module SchemaFacts.
Import JsNum Validation.

Lemma check_issues holds path message code :
  issues (check holds path message code) = [] <-> holds = true.
Proof. unfold check. destruct holds; cbn; split; congruence. Qed.

Lemma check_aborted holds path message code :
  aborted (check holds path message code) = false.
Proof. destruct holds; reflexivity. Qed.

Lemma andThen_issues p q :
  issues (andThen p q) = [] <-> issues p = [] /\ issues q = [].
Proof.
  cbn [andThen issues]. split.
  - intros H. apply List.app_eq_nil in H. exact H.
  - intros [-> ->]. reflexivity.
Qed.

Lemma andThen_aborted p q :
  aborted p = false -> aborted q = false -> aborted (andThen p q) = false.
Proof. cbn [andThen aborted]. intros -> ->. reflexivity. Qed.

Lemma refine_aborted {A : Type} (inner : Schema A) holds message path v :
  aborted (inner v) = false -> aborted (refine inner holds message path v) = false.
Proof.
  intros H. unfold refine. rewrite H. apply andThen_aborted; [exact H|apply check_aborted].
Qed.

Lemma refine_issues {A : Type} (inner : Schema A) holds message path v :
  aborted (inner v) = false ->
  (issues (refine inner holds message path v) = [] <->
   issues (inner v) = [] /\ holds v = true).
Proof.
  intros H. unfold refine. rewrite H, andThen_issues, check_issues. reflexivity.
Qed.

Lemma length_zero {A : Type} (l : list A) : (List.length l =? 0)%nat = true <-> l = [].
Proof. destruct l; cbn; split; congruence. Qed.

Ltac not_aborted :=
  repeat first [ apply refine_aborted | apply andThen_aborted | apply check_aborted ].

(** *** The schemas of the five fields *)

Lemma openSchema_issues val :
  issues (openSchema val) = [] <->
  (1 <=? String.length val)%nat = true /\
  isNaN (parseFloat val) = false /\
  gtb (parseFloat val) (ofZ 0) = true /\
  ltb (parseFloat val) (ofZ 1000000) = true.
Proof.
  unfold openSchema.
  rewrite !refine_issues by (unfold stringMin1; not_aborted).
  unfold stringMin1. rewrite check_issues, negb_true_iff. tauto.
Qed.

Lemma highSchema_issues val :
  issues (highSchema val) = [] <->
  (1 <=? String.length val)%nat = true /\
  isNaN (parseFloat val) = false /\
  gtb (parseFloat val) (ofZ 0) = true /\
  ltb (parseFloat val) (ofZ 1000000) = true.
Proof.
  unfold highSchema.
  rewrite !refine_issues by (unfold stringMin1; not_aborted).
  unfold stringMin1. rewrite check_issues, negb_true_iff. tauto.
Qed.

Lemma lowSchema_issues val :
  issues (lowSchema val) = [] <->
  (1 <=? String.length val)%nat = true /\
  isNaN (parseFloat val) = false /\
  gtb (parseFloat val) (ofZ 0) = true /\
  ltb (parseFloat val) (ofZ 1000000) = true.
Proof.
  unfold lowSchema.
  rewrite !refine_issues by (unfold stringMin1; not_aborted).
  unfold stringMin1. rewrite check_issues, negb_true_iff. tauto.
Qed.

Lemma closeSchema_issues val :
  issues (closeSchema val) = [] <->
  (1 <=? String.length val)%nat = true /\
  isNaN (parseFloat val) = false /\
  gtb (parseFloat val) (ofZ 0) = true /\
  ltb (parseFloat val) (ofZ 1000000) = true.
Proof.
  unfold closeSchema.
  rewrite !refine_issues by (unfold stringMin1; not_aborted).
  unfold stringMin1. rewrite check_issues, negb_true_iff. tauto.
Qed.

Lemma volumeSchema_issues val :
  issues (volumeSchema val) = [] <->
  (1 <=? String.length val)%nat = true /\
  isNaN (parseFloat val) = false /\
  gtb (parseFloat val) (ofZ 0) = true /\
  ltb (parseFloat val) (ofZ 999999999) = true /\
  isInteger (parseFloat val) = true.
Proof.
  unfold volumeSchema.
  rewrite !refine_issues by (unfold stringMin1; not_aborted).
  unfold stringMin1. rewrite check_issues, negb_true_iff. tauto.
Qed.

Lemma formObject_aborted data : aborted (formObject data) = false.
Proof.
  unfold formObject, openSchema, highSchema, lowSchema, closeSchema, volumeSchema,
    stringMin1.
  not_aborted.
Qed.

Lemma formObject_issues data :
  issues (formObject data) = [] <->
  issues (openSchema (Form.open data)) = [] /\
  issues (highSchema (Form.high data)) = [] /\
  issues (lowSchema (Form.low data)) = [] /\
  issues (closeSchema (Form.close data)) = [] /\
  issues (volumeSchema (Form.volume data)) = [].
Proof. unfold formObject. rewrite !andThen_issues. tauto. Qed.

Lemma schema_issues data :
  issues (CandleFormDataSchema data) = [] <->
  issues (formObject data) = [] /\
  rule1 data = true /\ rule2 data = true /\ rule3 data = true /\ rule4 data = true.
Proof.
  unfold CandleFormDataSchema.
  rewrite !refine_issues by (not_aborted; apply formObject_aborted).
  tauto.
Qed.

Lemma isValid_form data :
  isValid (validateFormData data) = true <-> issues (CandleFormDataSchema data) = [].
Proof. unfold validateFormData. cbn [isValid]. apply length_zero. Qed.

(** *** From the tests to the numbers *)

Lemma Qltb_lt a b : Qltb a b = true <-> (a < b)%Q.
Proof.
  unfold Qltb. rewrite negb_true_iff. split.
  - intros H. apply Qnot_le_lt. intros L. apply Qle_bool_iff in L. congruence.
  - intros H. destruct (Qle_bool b a) eqn:E; [|reflexivity].
    apply Qle_bool_iff in E. apply Qlt_not_le in H. contradiction.
Qed.

Lemma positive_below v bound :
  gtb v (ofZ 0) = true -> ltb v (ofZ bound) = true ->
  exists q, v = Fin q /\ (0 < q)%Q /\ (q < inject_Z bound)%Q.
Proof.
  destruct v as [| | |q]; cbn; try discriminate.
  intros P B. exists q. split; [reflexivity|].
  apply Qltb_lt in P. apply Qltb_lt in B. auto.
Qed.

Lemma max_below o c h :
  geb (Fin h) (max2 (Fin o) (Fin c)) = true -> (o <= h)%Q /\ (c <= h)%Q.
Proof.
  unfold geb. cbn [max2 ltb].
  destruct (Qltb o c) eqn:E; cbn [leb]; intros H; apply Qle_bool_iff in H.
  - apply Qltb_lt in E. split; lra.
  - assert (~ (o < c)%Q) by (rewrite <- Qltb_lt; congruence).
    split; lra.
Qed.

Lemma min_above o c l :
  leb (Fin l) (min2 (Fin o) (Fin c)) = true -> (l <= o)%Q /\ (l <= c)%Q.
Proof.
  cbn [min2 ltb].
  destruct (Qltb c o) eqn:E; cbn [leb]; intros H; apply Qle_bool_iff in H.
  - apply Qltb_lt in E. split; lra.
  - assert (~ (c < o)%Q) by (rewrite <- Qltb_lt; congruence).
    split; lra.
Qed.

(** the numbers of a valid form *)
Lemma valid_numbers data :
  isValid (validateFormData data) = true ->
  exists o h l c v : Q,
    (parseFloat (Form.open data) = Fin o /\
     parseFloat (Form.high data) = Fin h /\
     parseFloat (Form.low data) = Fin l /\
     parseFloat (Form.close data) = Fin c /\
     parseFloat (Form.volume data) = Fin v) /\
    ((0 < o)%Q /\ (0 < h)%Q /\ (0 < l)%Q /\ (0 < c)%Q /\ (0 < v)%Q) /\
    ((o < 1000000)%Q /\ (h < 1000000)%Q /\ (l < 1000000)%Q /\ (c < 1000000)%Q /\
     (v < 999999999)%Q) /\
    isInteger (Fin v) = true.
Proof.
  intros V. apply isValid_form in V. apply schema_issues in V.
  destruct V as (F & _).
  apply formObject_issues in F. destruct F as (Fo & Fh & Fl & Fc & Fv).
  apply openSchema_issues in Fo. destruct Fo as (_ & _ & Po & Bo).
  apply highSchema_issues in Fh. destruct Fh as (_ & _ & Ph & Bh).
  apply lowSchema_issues in Fl. destruct Fl as (_ & _ & Pl & Bl).
  apply closeSchema_issues in Fc. destruct Fc as (_ & _ & Pc & Bc).
  apply volumeSchema_issues in Fv. destruct Fv as (_ & _ & Pv & Bv & Iv).
  destruct (positive_below _ _ Po Bo) as (o & Eo & Lo & Uo).
  destruct (positive_below _ _ Ph Bh) as (h & Eh & Lh & Uh).
  destruct (positive_below _ _ Pl Bl) as (l & El & Ll & Ul).
  destruct (positive_below _ _ Pc Bc) as (c & Ec & Lc & Uc).
  destruct (positive_below _ _ Pv Bv) as (v & Ev & Lv & Uv).
  rewrite Ev in Iv.
  exists o, h, l, c, v. repeat split; assumption.
Qed.

Lemma valid_rules data :
  isValid (validateFormData data) = true ->
  rule1 data = true /\ rule2 data = true /\ rule3 data = true /\ rule4 data = true.
Proof.
  intros V. apply isValid_form in V. apply schema_issues in V. tauto.
Qed.

Lemma eqb_zero_not_positive w : eqb w (ofZ 0) = true -> gtb w (ofZ 0) = false.
Proof.
  destruct w as [| | |q]; cbn; try discriminate.
  change (inject_Z 0) with 0%Q.
  intros E. apply Qeq_bool_iff in E.
  destruct (Qltb 0 q) eqn:L; [|reflexivity].
  apply Qltb_lt in L. lra.
Qed.

(** *** Where the issues are *)

(** at most [n] issues, each with a property *)
Definition within (n : nat) (P : ValidationError.t -> Prop) (p : Parsed) : Prop :=
  (List.length (issues p) <= n)%nat /\ List.Forall P (issues p).

Lemma check_within P holds path message code :
  P (issue path message code) -> within 1 P (check holds path message code).
Proof.
  intros H. unfold within, check. destruct holds; cbn; split; auto.
Qed.

Lemma refine_within {A : Type} n P (inner : Schema A) holds message path v :
  within n P (inner v) -> P (issue path message "custom") ->
  within (S n) P (refine inner holds message path v).
Proof.
  intros [L F] H. unfold within, refine.
  destruct (aborted (inner v)); [split; [lia|exact F]|].
  destruct (check_within P (holds v) path message "custom" H) as [L' F'].
  cbn [andThen issues]. rewrite List.length_app. split; [lia|].
  apply List.Forall_app. auto.
Qed.

Lemma andThen_within n m P p q :
  within n P p -> within m P q -> within (n + m) P (andThen p q).
Proof.
  intros [L F] [L' F']. unfold within. cbn [andThen issues].
  rewrite List.length_app. split; [lia|]. apply List.Forall_app. auto.
Qed.

(** an issue of the form schema: on one of the five fields, raised by
    the length check or by a refinement *)
Definition located (e : ValidationError.t) : Prop :=
  In (ValidationError.field e) ["open"; "high"; "low"; "close"; "volume"] /\
  In (ValidationError.code e) ["too_small"; "custom"].

Ltac locate := split; cbn; tauto.

Lemma schema_within data : within 25 located (CandleFormDataSchema data).
Proof.
  unfold CandleFormDataSchema.
  repeat (apply refine_within; [|locate]).
  unfold formObject.
  change 21%nat with (4 + (4 + (4 + (4 + 5))))%nat.
  repeat apply andThen_within;
    unfold openSchema, highSchema, lowSchema, closeSchema, volumeSchema, stringMin1;
    repeat (apply refine_within; [|locate]);
    apply check_within; locate.
Qed.

(** the two warnings about the spread exclude each other *)
Lemma formWarnings_few parsed :
  (List.length (formWarnings parsed) <= 2)%nat /\
  List.Forall (fun w => In (ValidationWarning.field w) ["spread"; "volume"])
    (formWarnings parsed).
Proof.
  unfold formWarnings, when.
  destruct (spreadPercentOf _ _) as [| | |q]; cbn [ltb gtb ofZ].
  - destruct (ltb _ _); cbn; split; try lia; repeat constructor; cbn; tauto.
  - destruct (ltb _ _); cbn; split; try lia; repeat constructor; cbn; tauto.
  - destruct (ltb _ _); cbn; split; try lia; repeat constructor; cbn; tauto.
  - destruct (Qltb q (1 # 100)) eqn:Small, (Qltb (inject_Z 5) q) eqn:Big.
    + apply Qltb_lt in Small. apply Qltb_lt in Big.
      change (inject_Z 5) with 5%Q in Big. lra.
    + destruct (ltb _ _); cbn; split; try lia; repeat constructor; cbn; tauto.
    + destruct (ltb _ _); cbn; split; try lia; repeat constructor; cbn; tauto.
    + destruct (ltb _ _); cbn; split; try lia; repeat constructor; cbn; tauto.
Qed.
End SchemaFacts.

(** X14. A form that validates is a consistent candle.  When
    [validateFormData] returns valid, the five fields parse to finite
    numbers: the four prices are above 0 and below 1,000,000, the volume is a
    whole number above 0 and below 999,999,999, low <= open <= high and
    low <= close <= high.  (The bound of rule 4 on the spread is the result
    of a division and a product and is left out: it holds of the computed
    value.) *)
Theorem valid_form_is_ohlc_consistent (data : Form.CandleFormData) :
  Validation.isValid (Validation.validateFormData data) = true ->
  exists o h l c v : Q,
    (JsNum.parseFloat (Form.open data) = JsNum.Fin o /\
     JsNum.parseFloat (Form.high data) = JsNum.Fin h /\
     JsNum.parseFloat (Form.low data) = JsNum.Fin l /\
     JsNum.parseFloat (Form.close data) = JsNum.Fin c /\
     JsNum.parseFloat (Form.volume data) = JsNum.Fin v) /\
    ((0 < o)%Q /\ (0 < h)%Q /\ (0 < l)%Q /\ (0 < c)%Q /\ (0 < v)%Q) /\
    ((o < 1000000)%Q /\ (h < 1000000)%Q /\ (l < 1000000)%Q /\ (c < 1000000)%Q /\
     (v < 999999999)%Q) /\
    JsNum.isInteger (JsNum.Fin v) = true /\
    ((l <= o)%Q /\ (o <= h)%Q /\ (l <= c)%Q /\ (c <= h)%Q /\ (l <= h)%Q).
Proof.
  intros V.
  destruct (SchemaFacts.valid_numbers data V)
    as (o & h & l & c & v & (Eo & Eh & El & Ec & Ev) & (Lo & Lh & Ll & Lc & Lv) & (Uo & Uh & Ul & Uc & Uv) & Iv).
  destruct (SchemaFacts.valid_rules data V) as (R1 & R2 & R3 & _).
  unfold Validation.rule1, Validation.rule2, Validation.rule3 in *.
  cbv zeta in *. rewrite ?Eo, ?Eh, ?El, ?Ec in *.
  destruct (SchemaFacts.max_below _ _ _ R1) as [A1 A2].
  destruct (SchemaFacts.min_above _ _ _ R2) as [A3 A4].
  unfold JsNum.geb in R3. cbn [JsNum.leb] in R3. apply Qle_bool_iff in R3.
  exists o, h, l, c, v. repeat split; assumption.
Qed.

Lemma valid_form_is_ohlc_consistent_witness :
  exists o h l c v : Q,
    (JsNum.parseFloat (Form.open Samples.formB) = JsNum.Fin o /\
     JsNum.parseFloat (Form.high Samples.formB) = JsNum.Fin h /\
     JsNum.parseFloat (Form.low Samples.formB) = JsNum.Fin l /\
     JsNum.parseFloat (Form.close Samples.formB) = JsNum.Fin c /\
     JsNum.parseFloat (Form.volume Samples.formB) = JsNum.Fin v) /\
    ((0 < o)%Q /\ (0 < h)%Q /\ (0 < l)%Q /\ (0 < c)%Q /\ (0 < v)%Q) /\
    ((o < 1000000)%Q /\ (h < 1000000)%Q /\ (l < 1000000)%Q /\ (c < 1000000)%Q /\
     (v < 999999999)%Q) /\
    JsNum.isInteger (JsNum.Fin v) = true /\
    ((l <= o)%Q /\ (o <= h)%Q /\ (l <= c)%Q /\ (c <= h)%Q /\ (l <= h)%Q).
Proof.
  apply (valid_form_is_ohlc_consistent Samples.formB). vm_compute. reflexivity.
Defined.

(** X15. The result of [validateFormData] is well formed.  It says valid
    exactly when it has no error, and then it carries the form; a result
    that is not valid carries no form and no warning.  There are at most 25
    errors, each on one of the five fields and raised by the length check or
    by a refinement, and at most two warnings, on the spread or the
    volume. *)
Theorem form_result_is_well_formed (data : Form.CandleFormData) :
  let r := Validation.validateFormData data in
  (Validation.isValid r = true <-> Validation.errors r = []) /\
  (Validation.isValid r = true -> Validation.data r = Some data) /\
  (Validation.isValid r = false ->
   Validation.data r = None /\ Validation.warnings r = []) /\
  (List.length (Validation.errors r) <= 25)%nat /\
  List.Forall
    (fun e =>
       In (ValidationError.field e) ["open"; "high"; "low"; "close"; "volume"] /\
       In (ValidationError.code e) ["too_small"; "custom"])
    (Validation.errors r) /\
  (List.length (Validation.warnings r) <= 2)%nat /\
  List.Forall (fun w => In (ValidationWarning.field w) ["spread"; "volume"])
    (Validation.warnings r).
Proof.
  cbv zeta. unfold Validation.validateFormData, Validation.success.
  cbn [Validation.isValid Validation.data Validation.errors Validation.warnings].
  destruct (SchemaFacts.schema_within data) as [L F].
  destruct (SchemaFacts.formWarnings_few data) as [LW FW].
  split; [apply SchemaFacts.length_zero|].
  destruct (Validation.issues (Validation.CandleFormDataSchema data)) as [|e l].
  - repeat split; auto; discriminate.
  - split; [discriminate|]. split; [auto|]. split; [exact L|]. split; [exact F|].
    split; [cbn; lia|constructor].
Qed.

(** X16. The two warnings of [validateTradingRanges] exclude each other.
    The warning for a candle without movement needs high - low = 0 and the
    warning for long wicks needs high - low > 0, so for all five numbers,
    NaN and the infinities included, at most one warning is returned. *)
Theorem trading_range_warnings_exclusive (open high low close volume : JsNum.num) :
  (List.length (Validation.validateTradingRanges open high low close volume) <= 1)%nat.
Proof.
  unfold Validation.validateTradingRanges. cbv zeta.
  destruct (JsNum.eqb (JsNum.abs (JsNum.sub close open)) (JsNum.ofZ 0) &&
            JsNum.eqb (JsNum.sub high low) (JsNum.ofZ 0)) eqn:A;
    destruct (JsNum.gtb (JsNum.sub high low) (JsNum.ofZ 0) &&
              JsNum.ltb (JsNum.div (JsNum.abs (JsNum.sub close open)) (JsNum.sub high low))
                        (JsNum.Fin (5 # 100))) eqn:B;
    cbn; try lia.
  apply andb_true_iff in A. destruct A as [_ A].
  apply andb_true_iff in B. destruct B as [B _].
  rewrite (SchemaFacts.eqb_zero_not_positive _ A) in B. discriminate.
Qed.

(** * From a valid form to a saved record *)

Module RecordFacts.
Import JsNum Validation SchemaFacts.

Section WithFormats.
Variable zodUuid : string -> bool.
Variable zodDatetime : string -> bool.

Lemma runCheck_aborted path v c : aborted (runCheck path v c) = false.
Proof. destruct c; cbn [runCheck]; apply check_aborted. Qed.

Lemma checks_fold path v checks : forall acc,
  aborted acc = false ->
  aborted (fold_left (fun acc c => andThen acc (runCheck path v c)) checks acc) = false /\
  (issues (fold_left (fun acc c => andThen acc (runCheck path v c)) checks acc) = [] <->
   issues acc = [] /\ Forall (fun c => issues (runCheck path v c) = []) checks).
Proof.
  induction checks as [|c checks IH]; intros acc A; cbn [fold_left].
  - split; [exact A|]. split; [intros H; split; [exact H|constructor]|tauto].
  - destruct (IH (andThen acc (runCheck path v c))) as [B I].
    { apply andThen_aborted; [exact A|apply runCheck_aborted]. }
    split; [exact B|]. rewrite I, andThen_issues. split.
    + intros [[X Y] Z]. split; [exact X|constructor; assumption].
    + intros [X Y]. inversion Y; subst. tauto.
Qed.

Lemma numberSchema_spec path checks v :
  isNaN v = false ->
  aborted (numberSchema path checks v) = false /\
  (issues (numberSchema path checks v) = [] <->
   Forall (fun c => issues (runCheck path v c) = []) checks).
Proof.
  intros N. unfold numberSchema. rewrite N.
  destruct (checks_fold path v checks clean eq_refl) as [A I].
  split; [exact A|]. rewrite I. cbn [clean issues]. tauto.
Qed.

Lemma numberSchema_nan path checks :
  aborted (numberSchema path checks NaN) = true /\
  issues (numberSchema path checks NaN) <> [].
Proof. unfold numberSchema. cbn. split; [reflexivity|discriminate]. Qed.

Ltac each_check :=
  repeat (apply List.Forall_cons; [cbn [runCheck positive]; apply check_issues|]);
  try apply List.Forall_nil.

Lemma price_passes path q :
  (0 < q)%Q ->
  aborted (numberSchema path [positive; IsFinite] (Fin q)) = false /\
  issues (numberSchema path [positive; IsFinite] (Fin q)) = [].
Proof.
  intros P. destruct (numberSchema_spec path [positive; IsFinite] (Fin q) eq_refl) as [A I].
  split; [exact A|]. apply I. each_check.
  - cbn. apply Qltb_lt. exact P.
  - reflexivity.
Qed.

(** the issues of the record [save] builds from a valid form *)
Lemma built_issues c createdAt formData candleIndex candleDateTime :
  isValid (validateFormData (Core.sanitize formData)) = true ->
  (issues (CandleDataSchema zodUuid zodDatetime
             (Core.built c createdAt formData candleIndex candleDateTime)) = [] <->
   zodUuid (Session.id (Core.session c)) = true /\
   zodDatetime candleDateTime = true /\
   isInteger candleIndex = true /\
   geb candleIndex (ofZ 0) = true).
Proof.
  intros V.
  pose proof V as V'. apply isValid_form in V'. apply schema_issues in V'.
  destruct V' as (F & R1 & R2 & R3 & R4).
  apply formObject_issues in F. destruct F as (_ & _ & _ & _ & Fv).
  apply volumeSchema_issues in Fv. destruct Fv as (_ & _ & _ & _ & Iv).
  destruct (valid_numbers _ V)
    as (o & h & l & cl & v & (Eo & Eh & El & Ec & Ev) & (Lo & Lh & Ll & Lc & Lv) &
        _ & _).
  assert (A5 : (l <= h)%Q).
  { pose proof R3 as R. unfold rule3, geb in R. cbv zeta in R.
    rewrite Eh, El in R. cbn [leb] in R. apply Qle_bool_iff in R. exact R. }
  unfold Core.built, Core.formDataToCandleData.
  set (d := {| Candle.id := None |}).
  assert (Hmax : highIsMax d = true).
  { unfold highIsMax, d. cbn [Candle.high Candle.open Candle.close Candle.low].
    unfold rule1, rule3 in *. cbv zeta in *. rewrite R1. exact R3. }
  assert (Hmin : lowIsMin d = true).
  { unfold lowIsMin, d. cbn [Candle.high Candle.open Candle.close Candle.low].
    unfold rule2, rule3, geb in *. cbv zeta in *. rewrite R2. exact R3. }
  assert (Parts :
    issues (dataObject zodUuid zodDatetime d) = [] <->
    zodUuid (Session.id (Core.session c)) = true /\
    issues (numberSchema "candle_index"
              [IsInt; Min 0 true "Индекс свечи должен быть неотрицательным"]
              candleIndex) = [] /\
    zodDatetime candleDateTime = true).
  { unfold dataObject, d.
    cbn [Candle.session_id Candle.candle_index Candle.open Candle.high Candle.low
         Candle.close Candle.volume Candle.candle_datetime Candle.spread
         Candle.prediction_direction Candle.prediction_probability
         Candle.prediction_confidence optional].
    rewrite Eo, Eh, El, Ec, Ev.
    rewrite !andThen_issues, !check_issues.
    destruct (price_passes "open" o Lo) as [_ ->].
    destruct (price_passes "high" h Lh) as [_ ->].
    destruct (price_passes "low" l Ll) as [_ ->].
    destruct (price_passes "close" cl Lc) as [_ ->].
    assert (Vol : issues (numberSchema "volume" [positive; IsInt; IsFinite] (Fin v)) = []).
    { apply (numberSchema_spec "volume" [positive; IsInt; IsFinite] (Fin v) eq_refl).
      each_check.
      - cbn. apply Qltb_lt. exact Lv.
      - rewrite <- Ev. exact Iv.
      - reflexivity. }
    rewrite Vol.
    assert (Spr : issues (numberSchema "spread"
                            [Min 0 true "Number must be greater than or equal to 0"]
                            (sub (Fin h) (Fin l))) = []).
    { apply (numberSchema_spec "spread" _ (sub (Fin h) (Fin l)) eq_refl).
      each_check.
      cbn. apply Qle_bool_iff. change (inject_Z 0) with 0%Q. lra. }
    rewrite Spr. cbn [clean issues]. tauto. }
  destruct (isNaN candleIndex) eqn:N.
  - destruct candleIndex; try discriminate.
    assert (Ab : aborted (dataObject zodUuid zodDatetime d) = true).
    { unfold dataObject. cbn [andThen aborted d Candle.candle_index].
      destruct (numberSchema_nan "candle_index"
                  [IsInt; Min 0 true "Индекс свечи должен быть неотрицательным"])
        as [-> _].
      rewrite check_aborted. reflexivity. }
    unfold CandleDataSchema, refine. rewrite Ab. cbn iota. rewrite Ab.
    rewrite Parts.
    destruct (numberSchema_nan "candle_index"
                [IsInt; Min 0 true "Индекс свечи должен быть неотрицательным"])
      as [_ Hn].
    cbn [isInteger]. split; [tauto|]. intros (_ & _ & X & _). discriminate.
  - assert (Ab : aborted (dataObject zodUuid zodDatetime d) = false).
    { unfold dataObject, d.
      cbn [Candle.session_id Candle.candle_index Candle.open Candle.high Candle.low
           Candle.close Candle.volume Candle.candle_datetime Candle.spread
           Candle.prediction_direction Candle.prediction_probability
           Candle.prediction_confidence optional].
      rewrite Eo, Eh, El, Ec, Ev.
      repeat first
        [ apply andThen_aborted
        | apply check_aborted
        | reflexivity
        | apply numberSchema_spec; first [exact N | reflexivity] ]. }
    unfold CandleDataSchema.
    rewrite !refine_issues by (first [exact Ab | apply refine_aborted; exact Ab]).
    rewrite Hmax, Hmin, Parts.
    destruct (numberSchema_spec "candle_index"
                [IsInt; Min 0 true "Индекс свечи должен быть неотрицательным"]
                candleIndex N) as [_ ->].
    split.
    + intros (((U & I & D) & _) & _). inversion I as [|? ? I1 I2]; subst.
      inversion I2 as [|? ? I3 _]; subst.
      cbn [runCheck] in I1, I3. apply check_issues in I1. apply check_issues in I3.
      auto.
    + intros (U & D & I1 & I3).
      split; [split; [|reflexivity]|reflexivity].
      split; [exact U|]. split; [|exact D].
      each_check; assumption.
Qed.

Lemma validate_valid c now (limits : gmap string Security.Window) data :
  isValid (Core.validate c now limits data).2 = true ->
  (Core.validate c now limits data).2 = validateFormData (Core.sanitize data).
Proof.
  unfold Core.validate.
  pose proof (RangeFacts.performSecurityCheck_passed data
                (Security.generateIdentifier (Session.id (Core.session c)) None)
                now limits) as P.
  destruct (Security.performSecurityCheck data
              (Security.generateIdentifier (Session.id (Core.session c)) None)
              now limits) as [limits' o].
  cbn [snd] in P.
  destruct (Security.Outcome.passed o) eqn:E; cbn [negb snd].
  - rewrite (P eq_refl). cbn [Security.Outcome.sanitizedData validateUnknown].
    reflexivity.
  - cbn. discriminate.
Qed.
End WithFormats.
End RecordFacts.

Section SavedRecords.
Variable zodUuid : string -> bool.
Variable zodDatetime : string -> bool.

(** X17. The record of a valid form fails only on what the form does not
    hold.  When the sanitized form validates, the record [save] builds
    from it passes [validateCandleData] if and only if the session
    identifier is a UUID, the date-time of the candle is well formed, and
    the candle index is a whole number that is not negative: the prices,
    the volume, the spread and the two OHLC rules of the record schema
    cannot fail. *)
Theorem valid_form_gives_valid_record (c : Core.CandleInputCore) (createdAt : string)
    (formData : Form.CandleFormData) (candleIndex : JsNum.num)
    (candleDateTime : string) :
  Validation.isValid (Validation.validateFormData (Core.sanitize formData)) = true ->
  (Validation.isValid
     (Validation.validateCandleData zodUuid zodDatetime
        (Core.built c createdAt formData candleIndex candleDateTime)) = true <->
   zodUuid (Session.id (Core.session c)) = true /\
   zodDatetime candleDateTime = true /\
   JsNum.isInteger candleIndex = true /\
   JsNum.geb candleIndex (JsNum.ofZ 0) = true).
Proof.
  intros V. unfold Validation.validateCandleData. cbn [Validation.isValid].
  rewrite SchemaFacts.length_zero.
  apply RecordFacts.built_issues. exact V.
Qed.

(** X18. When a save succeeds.  [save] returns success if and only if
    the validation of the form passes (security check and form schema),
    the session identifier is a UUID, the date-time is well formed, the
    candle index is a whole number that is not negative, and the
    persistence callback, if there is one, resolves. *)
Theorem save_succeeds_iff (c : Core.CandleInputCore) (now : Z) (createdAt : string)
    (limits : gmap string Security.Window) (formData : Form.CandleFormData)
    (candleIndex : JsNum.num) (candleDateTime : string)
    (previousCandle : option Candle.CandleData) :
  Core.succeeded (Core.save zodUuid zodDatetime c now createdAt limits formData
                    candleIndex candleDateTime previousCandle) = true <->
  Validation.isValid (Core.validate c now limits formData).2 = true /\
  zodUuid (Session.id (Core.session c)) = true /\
  zodDatetime candleDateTime = true /\
  JsNum.isInteger candleIndex = true /\
  JsNum.geb candleIndex (JsNum.ofZ 0) = true /\
  Core.persisted c (Core.built c createdAt formData candleIndex candleDateTime) = None.
Proof.
  rewrite SaveFacts.save_succeeds.
  pose proof (RecordFacts.validate_valid c now limits formData) as VV.
  split.
  - intros (V & D & P). specialize (VV V). rewrite VV in V.
    unfold Validation.validateCandleData in D. cbn [Validation.isValid] in D.
    apply SchemaFacts.length_zero in D.
    apply (RecordFacts.built_issues zodUuid zodDatetime c createdAt formData
             candleIndex candleDateTime V) in D.
    rewrite VV. tauto.
  - intros (V & U & D & I & G & P). split; [exact V|]. split; [|exact P].
    specialize (VV V). rewrite VV in V.
    unfold Validation.validateCandleData. cbn [Validation.isValid].
    apply SchemaFacts.length_zero.
    apply (RecordFacts.built_issues zodUuid zodDatetime c createdAt formData
             candleIndex candleDateTime V). auto.
Qed.
End SavedRecords.

Lemma valid_form_gives_valid_record_witness :
  Validation.isValid
    (Validation.validateCandleData Reference.zodUuid Reference.zodDatetime
       (Core.built (Core.create Samples.session None None) Samples.createdAt
          Samples.formA (JsNum.ofZ 0) Samples.datetime)) = true <->
  Reference.zodUuid (Session.id (Core.session (Core.create Samples.session None None))) = true /\
  Reference.zodDatetime Samples.datetime = true /\
  JsNum.isInteger (JsNum.ofZ 0) = true /\
  JsNum.geb (JsNum.ofZ 0) (JsNum.ofZ 0) = true.
Proof.
  apply (valid_form_gives_valid_record Reference.zodUuid Reference.zodDatetime
           (Core.create Samples.session None None) Samples.createdAt
           Samples.formA (JsNum.ofZ 0) Samples.datetime).
  vm_compute. reflexivity.
Defined.

(** * The history beyond undo-then-redo *)

Module GuardFacts.
Import Core.

Lemma push_length {A : Type} (x : A) (l : list A) :
  (0 <? List.length (Stack.push x l))%nat = true.
Proof.
  unfold Stack.push. rewrite List.length_app. cbn [List.length].
  apply Nat.ltb_lt. lia.
Qed.

Lemma undo_guard c :
  UndoRedoResult.success (undo c).2 = canUndo c /\
  (canUndo c = false -> undo c = (c, nothingTo "Нет операций для отмены")).
Proof.
  unfold undo, canUndo.
  destruct (Stack.pop (undoStack c)) as [[rest x]|] eqn:E.
  - apply StackFacts.pop_some in E. rewrite E, push_length. cbn [snd moved UndoRedoResult.success].
    split; [reflexivity|discriminate].
  - apply StackFacts.pop_none in E. rewrite E. cbn. auto.
Qed.

Lemma redo_guard c :
  UndoRedoResult.success (redo c).2 = canRedo c /\
  (canRedo c = false -> redo c = (c, nothingTo "Нет операций для повтора")).
Proof.
  unfold redo, canRedo.
  destruct (Stack.pop (redoStack c)) as [[rest x]|] eqn:E.
  - apply StackFacts.pop_some in E. rewrite E, push_length. cbn [snd moved UndoRedoResult.success].
    split; [reflexivity|discriminate].
  - apply StackFacts.pop_none in E. rewrite E. cbn. auto.
Qed.

Lemma empty_cannot c : undoStack c = [] -> canUndo c = false.
Proof. unfold canUndo. intros ->. reflexivity. Qed.

Lemma empty_cannot_redo c : redoStack c = [] -> canRedo c = false.
Proof. unfold canRedo. intros ->. reflexivity. Qed.
End GuardFacts.

(** X19. The guards predict the operations.  [undo] succeeds exactly
    when [canUndo] says so and [redo] exactly when [canRedo] does; an
    operation that is refused returns its message and leaves the core as it
    was. *)
Theorem history_guards_predict (c : Core.CandleInputCore) :
  Core.UndoRedoResult.success (Core.undo c).2 = Core.canUndo c /\
  Core.UndoRedoResult.success (Core.redo c).2 = Core.canRedo c /\
  (Core.canUndo c = false ->
   Core.undo c = (c, Core.nothingTo "Нет операций для отмены")) /\
  (Core.canRedo c = false ->
   Core.redo c = (c, Core.nothingTo "Нет операций для повтора")).
Proof.
  destruct (GuardFacts.undo_guard c) as [A B].
  destruct (GuardFacts.redo_guard c) as [C D].
  auto.
Qed.

(** X20. Undo is a left inverse of redo.  On a history whose redo stack
    is not empty, [redo] followed at once by [undo] both succeed, both
    return the same candle, and the core is left as it was before the
    [redo]. *)
Theorem redo_then_undo_restores (c : Core.CandleInputCore) :
  Core.redoStack c <> [] ->
  Core.UndoRedoResult.success (Core.redo c).2 = true /\
  Core.UndoRedoResult.success (Core.undo (Core.redo c).1).2 = true /\
  Core.UndoRedoResult.candle (Core.redo c).2 =
    Core.UndoRedoResult.candle (Core.undo (Core.redo c).1).2 /\
  (Core.undo (Core.redo c).1).1 = c.
Proof.
  intros H. destruct (StackFacts.pop_nonempty _ H) as (rest & x & E).
  rewrite (HistoryFacts.redo_pops c rest x E). cbn [fst snd].
  rewrite HistoryFacts.undo_after_push. cbn [fst snd Core.moved
    Core.UndoRedoResult.success Core.UndoRedoResult.candle].
  repeat split.
  apply StackFacts.pop_some in E. rewrite <- E. apply HistoryFacts.withStacks_same.
Qed.

Lemma redo_then_undo_restores_witness :
  let c := Core.withStacks (Core.create Samples.session None None)
             [Samples.candleA] [Samples.candleB] in
  Core.UndoRedoResult.success (Core.redo c).2 = true /\
  Core.UndoRedoResult.success (Core.undo (Core.redo c).1).2 = true /\
  Core.UndoRedoResult.candle (Core.redo c).2 =
    Core.UndoRedoResult.candle (Core.undo (Core.redo c).1).2 /\
  (Core.undo (Core.redo c).1).1 = c.
Proof.
  cbv zeta.
  apply (redo_then_undo_restores
           (Core.withStacks (Core.create Samples.session None None)
              [Samples.candleA] [Samples.candleB])).
  cbn. discriminate.
Defined.

(** X21. Undo and redo only move the cursor.  The records of the undo
    stack followed by those of the redo stack from its top down form one
    line of records in commit order; [undo] and [redo], successful or not,
    leave that line as it is: no record is lost, duplicated or reordered. *)
Theorem history_timeline_preserved (c : Core.CandleInputCore) :
  Timeline.timeline (Core.undo c).1 = Timeline.timeline c /\
  Timeline.timeline (Core.redo c).1 = Timeline.timeline c.
Proof.
  unfold Timeline.timeline, Core.undo, Core.redo. split.
  - destruct (Stack.pop (Core.undoStack c)) as [[rest x]|] eqn:E; [|reflexivity].
    apply StackFacts.pop_some in E. rewrite E. unfold Stack.push.
    cbn [fst Core.withStacks Core.undoStack Core.redoStack].
    rewrite List.rev_app_distr. cbn [List.rev List.app].
    rewrite <- List.app_assoc. reflexivity.
  - destruct (Stack.pop (Core.redoStack c)) as [[rest x]|] eqn:E; [|reflexivity].
    apply StackFacts.pop_some in E. rewrite E. unfold Stack.push.
    cbn [fst Core.withStacks Core.undoStack Core.redoStack].
    rewrite List.rev_app_distr. cbn [List.rev List.app].
    rewrite <- List.app_assoc. reflexivity.
Qed.

(** * The engine's notifications *)

Section Notifications.
Variable zodUuid : string -> bool.
Variable zodDatetime : string -> bool.

(** a call of an optional callback is at most one event, of the kind
    asked for *)
Lemma notify_calls callback event message :
  (Core.notify callback event message).1 = [] \/
  (Core.notify callback event message).1 = [event message] /\ callback <> None.
Proof.
  unfold Core.notify. cbn [fst].
  destruct callback; [right; split; [reflexivity|discriminate]|].
  left. reflexivity.
Qed.

Lemma notify_silent callback event message :
  (Core.notify callback event message).2 = Core.thrownBy callback message.
Proof. reflexivity. Qed.

(** the notifications of the core's [save]: none from a save that
    succeeds, and from one that does not, at most two calls of the error
    callback, the second only when the first threw *)
Lemma core_save_events (c : Core.CandleInputCore) (now : Z) (createdAt : string)
    (limits : gmap string Security.Window) (formData : Form.CandleFormData)
    (candleIndex : JsNum.num) (candleDateTime : string)
    (previousCandle : option Candle.CandleData) :
  let r := Core.save zodUuid zodDatetime c now createdAt limits formData
             candleIndex candleDateTime previousCandle in
  (Core.succeeded r = true /\ Core.events r = []) \/
  (Core.succeeded r = false /\
   (List.length (Core.events r) <= 2)%nat /\
   (forall event, In event (Core.events r) -> exists m, event = Core.ErrorReported m) /\
   ((forall m, Core.thrownBy (Core.onError c) m = None) ->
    (List.length (Core.events r) <= 1)%nat /\
    exists result, Core.outcome r = Js.Returned result)).
Proof.
  cbv zeta.
  assert (Handled : forall limits' before thrown,
            (List.length before <= 1)%nat ->
            (forall event, In event before -> exists m, event = Core.ErrorReported m) ->
            ((forall m, Core.thrownBy (Core.onError c) m = None) -> before = []) ->
            let r := Core.handler c limits' before thrown in
            Core.succeeded r = false /\
            (List.length (Core.events r) <= 2)%nat /\
            (forall event, In event (Core.events r) ->
               exists m, event = Core.ErrorReported m) /\
            ((forall m, Core.thrownBy (Core.onError c) m = None) ->
             (List.length (Core.events r) <= 1)%nat /\
             exists result, Core.outcome r = Js.Returned result)).
  { intros limits' before thrown L F Q. cbv zeta.
    split; [apply SaveFacts.handler_core|].
    rewrite SaveFacts.handler_events, SaveFacts.handler_outcome.
    unfold Core.report.
    destruct (notify_calls (Core.onError c) Core.ErrorReported
                (Core.errorMessageOf thrown)) as [E|[E _]]; rewrite E.
    - rewrite List.app_nil_r. split; [lia|]. split; [exact F|].
      intros N. rewrite (Q N), N. cbn. split; [lia|eauto].
    - rewrite List.length_app. cbn [List.length]. split; [lia|]. split.
      + intros event H. apply List.in_app_or in H as [H|[<-|[]]]; eauto.
      + intros N. rewrite (Q N), N. cbn. split; [lia|eauto]. }
  unfold Core.save.
  destruct (Core.validate c now limits formData) as [limits' v].
  destruct (negb (Validation.isValid v)).
  - right. unfold Core.report.
    pose proof (notify_calls (Core.onError c) Core.ErrorReported
                  (String.concat ", "
                     (List.map ValidationError.message (Validation.errors v)))) as C.
    pose proof (notify_silent (Core.onError c) Core.ErrorReported
                  (String.concat ", "
                     (List.map ValidationError.message (Validation.errors v)))) as S.
    destruct (Core.notify _ _ _) as [calls [thrown|]]; cbn [fst snd] in *.
    + apply Handled.
      * destruct C as [->|[-> _]]; cbn; lia.
      * intros event H. destruct C as [->|[-> _]]; [destruct H|].
        destruct H as [<-|[]]. eauto.
      * intros N. rewrite N in S. discriminate.
    + unfold Core.succeeded. cbn [Core.outcome Core.events Core.failed
                                  Core.SaveCandleResult.success].
      split; [reflexivity|].
      destruct C as [->|[-> _]]; cbn [List.length In].
      * split; [lia|]. split; [intros event []|]. intros _. split; [lia|eauto].
      * split; [lia|]. split; [intros event [<-|[]]; eauto|].
        intros _. split; [lia|eauto].
  - destruct (negb (Validation.isValid _)).
    + right. unfold Core.succeeded. cbn [Core.outcome Core.events Core.failed
                                         Core.SaveCandleResult.success List.length In].
      split; [reflexivity|]. split; [lia|]. split; [intros event []|].
      intros _. split; [lia|eauto].
    + destruct (match Core.onSave c with Some callback => _ | None => None end).
      * right. apply Handled; [cbn; lia|intros event []|reflexivity].
      * left. split; reflexivity.
Qed.

(** X22. The notifications of [saveCandle] agree with how it ends.  A
    call makes at most three notifications.  The success callback is
    called only after the core saved the record, with its fixed message;
    a call that made an error notification does not return success; and
    a call that returns success made no other notification than the
    success one.  When no callback throws there is at most one
    notification, and the call returns success exactly when the core
    saved the record. *)
Theorem engine_notifications_match_result (e : Engine.CandleInputEngine) (now : Z)
    (createdAt : string) (limits : gmap string Security.Window)
    (formData : Form.CandleFormData) (candleIndex : JsNum.num)
    (candleDateTime : string) (previousCandle : option Candle.CandleData) :
  let r := Engine.saveCandle zodUuid zodDatetime e now createdAt limits formData
             candleIndex candleDateTime previousCandle in
  let saved :=
    Core.succeeded
      (Core.save zodUuid zodDatetime (Engine.core e) now createdAt limits formData
         candleIndex candleDateTime previousCandle) in
  (List.length (Engine.events r) <= 3)%nat /\
  (forall m, In (Core.SuccessReported m) (Engine.events r) ->
     m = "Свеча успешно сохранена" /\ saved = true /\ Engine.onSuccess e <> None) /\
  (forall m result,
     In (Core.ErrorReported m) (Engine.events r) ->
     Engine.outcome r = Js.Returned result ->
     Core.SaveCandleResult.success result = false) /\
  (forall result,
     Engine.outcome r = Js.Returned result ->
     Core.SaveCandleResult.success result = true ->
     saved = true /\
     Engine.events r = (Engine.reportSuccess e "Свеча успешно сохранена").1) /\
  ((forall m, Core.thrownBy (Core.onError (Engine.core e)) m = None) ->
   Core.thrownBy (Engine.onSuccess e) "Свеча успешно сохранена" = None ->
   (List.length (Engine.events r) <= 1)%nat /\
   exists result,
     Engine.outcome r = Js.Returned result /\
     Core.SaveCandleResult.success result = saved).
Proof.
  cbv zeta.
  assert (Caught : forall e' limits' before,
            Engine.events (Engine.caught e' limits' before) = before \/
            Engine.events (Engine.caught e' limits' before) =
              before ++ [Core.ErrorReported "Ошибка сохранения свечи"]).
  { intros e' limits' before. unfold Engine.caught, Engine.reportError.
    destruct (notify_calls (Engine.onError e') Core.ErrorReported
                "Ошибка сохранения свечи") as [E|[E _]];
      destruct (Core.notify _ _ _) as [calls [escaping|]]; cbn [fst] in E; subst calls;
      cbn [Engine.events]; rewrite ?List.app_nil_r; auto. }
  assert (Failing : forall e' limits' before result,
            Engine.outcome (Engine.caught e' limits' before) = Js.Returned result ->
            Core.SaveCandleResult.success result = false).
  { intros e' limits' before result. rewrite SaveFacts.caught_outcome.
    destruct (Core.thrownBy _ _); [discriminate|].
    intros H. inversion H. reflexivity. }
  pose proof (core_save_events (Engine.core e) now createdAt limits formData
                candleIndex candleDateTime previousCandle) as C. cbv zeta in C.
  unfold Engine.saveCandle.
  destruct C as [[S E]|(S & L & F & Q)]; rewrite S.
  - unfold Core.succeeded in S. rewrite E.
    destruct (Core.outcome _) as [inner|escaping]; [|discriminate]. rewrite S.
    cbn [List.app].
    pose proof (notify_calls (Engine.onSuccess e) Core.SuccessReported
                  "Свеча успешно сохранена") as N.
    pose proof (notify_silent (Engine.onSuccess e) Core.SuccessReported
                  "Свеча успешно сохранена") as T.
    unfold Engine.reportSuccess.
    destruct (Core.notify _ _ _) as [calls [thrown|]]; cbn [fst snd] in *.
    + destruct (Caught (Engine.began e "save" (Core.core
                 (Core.save zodUuid zodDatetime (Engine.core e) now createdAt limits
                    formData candleIndex candleDateTime previousCandle)))
                 (Core.limits
                 (Core.save zodUuid zodDatetime (Engine.core e) now createdAt limits
                    formData candleIndex candleDateTime previousCandle)) calls) as [K|K];
        rewrite K; clear K.
      * split; [destruct N as [->|[-> _]]; cbn; lia|]. split.
        { intros m H. destruct N as [->|[-> N]]; [destruct H|].
          destruct H as [H|[]]. inversion H. auto. }
        split.
        { intros m result _. apply Failing. }
        split.
        { intros result H R. apply Failing in H. congruence. }
        intros _ X. congruence.
      * rewrite List.length_app. cbn [List.length].
        split; [destruct N as [->|[-> _]]; cbn; lia|]. split.
        { intros m H. apply List.in_app_or in H as [H|[H|[]]]; [|discriminate].
          destruct N as [->|[-> N]]; [destruct H|].
          destruct H as [H|[]]. inversion H. auto. }
        split.
        { intros m result _. apply Failing. }
        split.
        { intros result H R. apply Failing in H. congruence. }
        intros _ X. congruence.
    + cbn [Engine.events Engine.outcome].
      split; [destruct N as [->|[-> _]]; cbn; lia|]. split.
      { intros m H. destruct N as [->|[-> N]]; [destruct H|].
        destruct H as [H|[]]. inversion H. auto. }
      split.
      { intros m result H. destruct N as [->|[-> N]]; [destruct H|].
        destruct H as [H|[]]. discriminate. }
      split; [auto|].
      intros _ _. split; [destruct N as [->|[-> _]]; cbn; lia|].
      exists inner. auto.
  - unfold Core.succeeded in S.
    destruct (Core.outcome _) as [inner|escaping] eqn:O.
    + rewrite S. cbn [Engine.events Engine.outcome].
      split; [lia|]. split.
      { intros m H. apply F in H as [m' H]. discriminate. }
      split.
      { intros m result _ H. inversion H; subst result. exact S. }
      split.
      { intros result H. inversion H; subst result. congruence. }
      intros X _. destruct (Q X) as [L1 _]. split; [exact L1|].
      exists inner. auto.
    + destruct (Caught (Engine.began e "save" (Core.core
                 (Core.save zodUuid zodDatetime (Engine.core e) now createdAt limits
                    formData candleIndex candleDateTime previousCandle)))
                 (Core.limits
                 (Core.save zodUuid zodDatetime (Engine.core e) now createdAt limits
                    formData candleIndex candleDateTime previousCandle))
                 (Core.events
                 (Core.save zodUuid zodDatetime (Engine.core e) now createdAt limits
                    formData candleIndex candleDateTime previousCandle))) as [K|K];
        rewrite K; clear K.
      * split; [lia|]. split.
        { intros m H. apply F in H as [m' H]. discriminate. }
        split.
        { intros m result _. apply Failing. }
        split.
        { intros result H R. apply Failing in H. congruence. }
        intros X _. destruct (Q X) as [_ [result H]]. discriminate.
      * rewrite List.length_app. cbn [List.length]. split; [lia|]. split.
        { intros m H. apply List.in_app_or in H as [H|[H|[]]]; [|discriminate].
          apply F in H as [m' H]. discriminate. }
        split.
        { intros m result _. apply Failing. }
        split.
        { intros result H R. apply Failing in H. congruence. }
        intros X _. destruct (Q X) as [_ [result H]]. discriminate.
Qed.
End Notifications.

(** X23. A refused history operation is still an operation.  On an
    engine whose history is empty, [undo] and [redo] leave the core as it
    was, and the engine counts the call and records it as the last
    operation.  The error callback, when there is one, is called once, with
    the core's message: the engine's own fallback messages are not used.  The
    result is the core's refusal when that call returns, or when there is no
    callback, and the result of the engine's handler when the call
    throws. *)
Theorem engine_counts_refused_operations (e : Engine.CandleInputEngine) :
  Core.undoStack (Engine.core e) = [] -> Core.redoStack (Engine.core e) = [] ->
  ((Engine.undo e).1.1 = Engine.began e "undo" (Engine.core e) /\
   (Engine.undo e).1.2 = (Engine.reportError e "Нет операций для отмены").1 /\
   (Core.thrownBy (Engine.onError e) "Нет операций для отмены" = None ->
    (Engine.undo e).2 = Core.nothingTo "Нет операций для отмены") /\
   (Core.thrownBy (Engine.onError e) "Нет операций для отмены" <> None ->
    (Engine.undo e).2 = Engine.critical "Критическая ошибка при отмене")) /\
  ((Engine.redo e).1.1 = Engine.began e "redo" (Engine.core e) /\
   (Engine.redo e).1.2 = (Engine.reportError e "Нет операций для повтора").1 /\
   (Core.thrownBy (Engine.onError e) "Нет операций для повтора" = None ->
    (Engine.redo e).2 = Core.nothingTo "Нет операций для повтора") /\
   (Core.thrownBy (Engine.onError e) "Нет операций для повтора" <> None ->
    (Engine.redo e).2 = Engine.critical "Критическая ошибка при повторе")) /\
  Engine.operationCount (Engine.undo e).1.1 = Engine.operationCount e + 1 /\
  Engine.operationCount (Engine.redo e).1.1 = Engine.operationCount e + 1.
Proof.
  intros U R.
  destruct (GuardFacts.undo_guard (Engine.core e)) as [_ A].
  destruct (GuardFacts.redo_guard (Engine.core e)) as [_ B].
  specialize (A (GuardFacts.empty_cannot _ U)).
  specialize (B (GuardFacts.empty_cannot_redo _ R)).
  unfold Engine.undo, Engine.redo. rewrite A, B.
  unfold Engine.notified, Engine.reportError, Core.notify, Core.thrownBy.
  cbn [Core.nothingTo Core.UndoRedoResult.success Core.UndoRedoResult.error
       Engine.orElse String.eqb Ascii.eqb].
  destruct (Engine.onError e) as [call|]; cbn [fst snd].
  - destruct (call "Нет операций для отмены"), (call "Нет операций для повтора");
      cbn [fst snd Engine.began Engine.operationCount];
      repeat split; intros; first [reflexivity | congruence].
  - cbn [fst snd Engine.began Engine.operationCount].
    repeat split; intros; first [reflexivity | congruence].
Qed.

Lemma engine_counts_refused_operations_witness :
  let e := Engine.create Samples.session None (Some Samples.brokenToast)
             (Some Samples.toast) in
  (Engine.undo e).1.2 = [Core.ErrorReported "Нет операций для отмены"] /\
  (Engine.undo e).2 = Engine.critical "Критическая ошибка при отмене" /\
  (Engine.redo e).1.2 = [Core.ErrorReported "Нет операций для повтора"] /\
  (Engine.redo e).2 = Engine.critical "Критическая ошибка при повторе" /\
  Engine.operationCount (Engine.undo e).1.1 = 1.
Proof.
  cbv zeta.
  destruct (engine_counts_refused_operations
              (Engine.create Samples.session None (Some Samples.brokenToast)
                 (Some Samples.toast)))
    as ((_ & Eu & _ & Cu) & (_ & Er & _ & Cr) & Nu & _); try reflexivity.
  split; [exact Eu|]. split; [apply Cu; discriminate|].
  split; [exact Er|]. split; [apply Cr; discriminate|].
  exact Nu.
Defined.

(** * The store: the operation history and the candles *)

Module StoreRunFacts.
Import Store.

Lemma skipn_tl {A : Type} (n : nat) (l : list A) : skipn (S n) l = List.tl (skipn n l).
Proof.
  revert n. induction l as [|x l IH]; intros [|n]; try reflexivity.
  cbn [skipn]. apply IH.
Qed.

Lemma lastN_length {A : Type} (n : nat) (l : list A) :
  List.length (Autocomplete.lastN n l) = Nat.min n (List.length l).
Proof. unfold Autocomplete.lastN. rewrite List.length_skipn. lia. Qed.

(** recording onto the last 50 of a run gives the last 50 of the longer
    run *)
Lemma record_step (operations : list CandleOperation) (operation : CandleOperation) :
  recordOperation operation
    {| operationHistory := Autocomplete.lastN 50 operations;
       currentOperationIndex :=
         Z.of_nat (List.length (Autocomplete.lastN 50 operations)) - 1 |} =
  {| operationHistory := Autocomplete.lastN 50 (operations ++ [operation]);
     currentOperationIndex :=
       Z.of_nat (List.length (Autocomplete.lastN 50 (operations ++ [operation]))) - 1 |}.
Proof.
  unfold recordOperation, sliceTo. cbn [operationHistory currentOperationIndex].
  set (h := Autocomplete.lastN 50 operations).
  replace (Z.of_nat (List.length h) - 1 + 1) with (Z.of_nat (List.length h)) by lia.
  destruct (Z.ltb_spec (Z.of_nat (List.length h)) 0); [lia|].
  rewrite Nat2Z.id, List.firstn_all.
  assert (E : (if (50 <? List.length (h ++ [operation]))%nat
               then shift (h ++ [operation]) else h ++ [operation]) =
              Autocomplete.lastN 50 (operations ++ [operation])).
  { pose proof (lastN_length 50 operations) as L. fold h in L.
    rewrite List.length_app. cbn [List.length].
    unfold Autocomplete.lastN in *. rewrite List.length_app. cbn [List.length].
    destruct (Nat.ltb_spec 50 (List.length h + 1)) as [Full|Room].
    - assert (Hl : (50 <= List.length operations)%nat) by lia.
      replace (List.length operations + 1 - 50)%nat
        with (S (List.length operations - 50)) by lia.
      rewrite skipn_tl, List.skipn_app.
      replace (List.length operations - 50 - List.length operations)%nat with 0%nat by lia.
      reflexivity.
    - assert (Hl : (List.length operations < 50)%nat) by lia.
      replace (List.length operations + 1 - 50)%nat with 0%nat by lia.
      subst h. replace (List.length operations - 50)%nat with 0%nat by lia.
      reflexivity. }
  rewrite E. reflexivity.
Qed.

Lemma run_history (operations : list CandleOperation) :
  fold_left (fun state operation => recordOperation operation state)
    operations initialState =
  {| operationHistory := Autocomplete.lastN 50 operations;
     currentOperationIndex :=
       Z.of_nat (List.length (Autocomplete.lastN 50 operations)) - 1 |}.
Proof.
  induction operations as [|operation operations IH] using List.rev_ind.
  - reflexivity.
  - rewrite List.fold_left_app. cbn [fold_left]. rewrite IH. apply record_step.
Qed.
End StoreRunFacts.

(** X24. The operation history of the store is the last 50 operations.
    After any number of [recordOperation] calls on the initial state, the
    history holds the operations recorded, the oldest dropped beyond 50;
    the current index is that of the last one, so [canRedo] is false, and
    [canUndo] is true as soon as one operation was recorded. *)
Theorem store_history_is_last_50 (operations : list Store.CandleOperation) :
  let state :=
    fold_left (fun state operation => Store.recordOperation operation state)
      operations Store.initialState in
  Store.operationHistory state = Autocomplete.lastN 50 operations /\
  (List.length (Store.operationHistory state) <= 50)%nat /\
  Store.currentOperationIndex state =
    Z.of_nat (List.length (Store.operationHistory state)) - 1 /\
  Store.canRedo state = false /\
  Store.canUndo state = negb (List.length operations =? 0)%nat.
Proof.
  cbv zeta. rewrite StoreRunFacts.run_history.
  cbn [Store.operationHistory Store.currentOperationIndex].
  pose proof (StoreRunFacts.lastN_length 50 operations) as L.
  split; [reflexivity|]. split; [lia|]. split; [reflexivity|].
  unfold Store.canRedo, Store.canUndo.
  cbn [Store.operationHistory Store.currentOperationIndex].
  split.
  - apply Z.ltb_irrefl.
  - rewrite L. destruct operations as [|o l]; [reflexivity|].
    cbn [List.length Nat.eqb negb]. rewrite Z.geb_leb. apply Z.leb_le. lia.
Qed.

Module StoreCandleFacts.
Import StoreCandles.

Lemma find_none_filter candleId (l : list Candle.CandleData) :
  List.find (Index.hasId candleId) l = None ->
  List.filter (fun c => negb (Index.hasId candleId c)) l = l.
Proof.
  induction l as [|c l IH]; cbn [List.find List.filter]; [reflexivity|].
  destruct (Index.hasId candleId c); [discriminate|].
  intros H. cbn [negb]. rewrite (IH H). reflexivity.
Qed.

Lemma find_none_all candleId (l : list Candle.CandleData) :
  List.find (Index.hasId candleId) l = None <->
  forall c, In c l -> Index.hasId candleId c = false.
Proof.
  induction l as [|c l IH]; cbn [List.find In].
  - split; [intros _ ? []|reflexivity].
  - destruct (Index.hasId candleId c) eqn:E.
    + split; [discriminate|]. intros H. rewrite (H c) in E by auto. discriminate.
    + rewrite IH. split.
      * intros H x [<-|Hin]; auto.
      * intros H x Hin. apply H. auto.
Qed.

Lemma candles_removed candleId now state :
  candles (removeCandle candleId now state) =
    List.filter (fun c => negb (Index.hasId candleId c)) (candles state).
Proof.
  unfold removeCandle.
  destruct (List.find (Index.hasId candleId) (candles state)) eqn:F; [reflexivity|].
  symmetry. apply find_none_filter. exact F.
Qed.

Lemma hasId_of candleId candle :
  Candle.id candle = Some candleId -> Index.hasId candleId candle = true.
Proof. unfold Index.hasId. intros ->. apply String.eqb_refl. Qed.
End StoreCandleFacts.

(** X25. What [removeCandle] removes.  After [removeCandle] no candle of
    the store has the identifier, and the other candles are kept in their
    order; when no candle has the identifier the store is left as it is and
    nothing is recorded; otherwise one operation of type remove is recorded
    for the first candle that has it. *)
Theorem store_remove_candle (candleId : string) (now : Z) (state : StoreCandles.State) :
  let state' := StoreCandles.removeCandle candleId now state in
  StoreCandles.candles state' =
    List.filter (fun c => negb (Index.hasId candleId c)) (StoreCandles.candles state) /\
  (forall c, In c (StoreCandles.candles state') -> Index.hasId candleId c = false) /\
  ((forall c, In c (StoreCandles.candles state) -> Index.hasId candleId c = false) ->
   state' = state) /\
  (forall candle,
     List.find (Index.hasId candleId) (StoreCandles.candles state) = Some candle ->
     StoreCandles.history state' =
       Store.recordOperation
         {| Store.type := Store.remove; Store.candle := candle;
            Store.timestamp := now; Store.sessionId := Candle.session_id candle |}
         (StoreCandles.history state)).
Proof.
  cbv zeta. split; [apply StoreCandleFacts.candles_removed|]. split; [|split].
  - rewrite StoreCandleFacts.candles_removed. intros c Hin.
    apply List.filter_In in Hin. destruct Hin as [_ H].
    apply negb_true_iff in H. exact H.
  - intros H. apply StoreCandleFacts.find_none_all in H.
    unfold StoreCandles.removeCandle. rewrite H. reflexivity.
  - intros candle F. unfold StoreCandles.removeCandle. rewrite F. reflexivity.
Qed.

(** X26. Adding a candle and removing it again.  When a candle whose
    identifier no candle of the store has is added and then removed by that
    identifier, the candles of the store are the ones before; the last
    saved candle is still the removed one and the open field of the form is
    still filled from its close; and the history has recorded both
    operations, so it does not return to what it was. *)
Theorem store_add_then_remove (candle : Candle.CandleData) (candleId : string)
    (now now' : Z) (state : StoreCandles.State) :
  Candle.id candle = Some candleId ->
  (forall c, In c (StoreCandles.candles state) -> Index.hasId candleId c = false) ->
  let state' :=
    StoreCandles.removeCandle candleId now' (StoreCandles.addCandle candle now state) in
  StoreCandles.candles state' = StoreCandles.candles state /\
  StoreCandles.lastSavedCandle state' = Some candle /\
  StoreCandles.open (StoreCandles.formData state') = [Text.Str (Candle.close candle)] /\
  StoreCandles.history state' =
    Store.recordOperation
      {| Store.type := Store.remove; Store.candle := candle;
         Store.timestamp := now'; Store.sessionId := Candle.session_id candle |}
      (Store.recordOperation
         {| Store.type := Store.add; Store.candle := candle;
            Store.timestamp := now; Store.sessionId := Candle.session_id candle |}
         (StoreCandles.history state)).
Proof.
  intros I Fresh. cbv zeta.
  pose proof (StoreCandleFacts.hasId_of _ _ I) as H.
  apply StoreCandleFacts.find_none_all in Fresh.
  assert (F : List.find (Index.hasId candleId)
                (StoreCandles.candles (StoreCandles.addCandle candle now state)) =
              Some candle).
  { cbn [StoreCandles.addCandle StoreCandles.candles].
    revert Fresh. generalize (StoreCandles.candles state) as l.
    induction l as [|c l IH]; cbn [List.find List.app].
    - rewrite H. reflexivity.
    - destruct (Index.hasId candleId c); [discriminate|]. exact IH. }
  unfold StoreCandles.removeCandle. rewrite F.
  cbn [StoreCandles.candles StoreCandles.lastSavedCandle StoreCandles.formData
       StoreCandles.history StoreCandles.addCandle StoreCandles.open].
  repeat split.
  rewrite List.filter_app. cbn [List.filter]. rewrite H. cbn [negb].
  rewrite List.app_nil_r. apply StoreCandleFacts.find_none_filter. exact Fresh.
Qed.

Lemma store_add_then_remove_witness :
  let state' :=
    StoreCandles.removeCandle "b" 2000
      (StoreCandles.addCandle Samples.storedB 1000
         (StoreCandles.addCandle Samples.storedA 0 StoreCandles.initialState)) in
  StoreCandles.candles state' = [Samples.storedA] /\
  StoreCandles.lastSavedCandle state' = Some Samples.storedB /\
  StoreCandles.open (StoreCandles.formData state') =
    [Text.Str (Candle.close Samples.storedB)] /\
  StoreCandles.history state' =
    Store.recordOperation
      {| Store.type := Store.remove; Store.candle := Samples.storedB;
         Store.timestamp := 2000; Store.sessionId := Candle.session_id Samples.storedB |}
      (Store.recordOperation
         {| Store.type := Store.add; Store.candle := Samples.storedB;
            Store.timestamp := 1000; Store.sessionId := Candle.session_id Samples.storedB |}
         (StoreCandles.history
            (StoreCandles.addCandle Samples.storedA 0 StoreCandles.initialState))).
Proof.
  cbv zeta.
  apply (store_add_then_remove Samples.storedB "b" 1000 2000
           (StoreCandles.addCandle Samples.storedA 0 StoreCandles.initialState)).
  - reflexivity.
  - intros c [<-|[]]. vm_compute. reflexivity.
Defined.

(** * The suggestions beyond their order *)

Module SortingFacts.
Import Autocomplete.

Lemma insertSorted_perm {A : Type} (after : A -> A -> bool) (x : A) (l : list A) :
  Permutation (insertSorted after x l) (x :: l).
Proof.
  induction l as [|y l IH]; cbn [insertSorted]; [reflexivity|].
  destruct (after x y); [|reflexivity].
  rewrite IH. apply perm_swap.
Qed.

Lemma sort_perm {A : Type} (after : A -> A -> bool) (l : list A) :
  Permutation (sort after l) l.
Proof.
  induction l as [|x l IH]; [reflexivity|].
  cbn [sort List.fold_right]. fold (sort after l).
  rewrite insertSorted_perm. constructor. exact IH.
Qed.

Lemma sort_length {A : Type} (after : A -> A -> bool) (l : list A) :
  List.length (sort after l) = List.length l.
Proof. apply Permutation_length. apply sort_perm. Qed.

Lemma sort_Forall {A : Type} (after : A -> A -> bool) (P : A -> Prop) (l : list A) :
  List.Forall P l -> List.Forall P (sort after l).
Proof.
  intros H. apply List.Forall_forall. intros x Hin.
  rewrite List.Forall_forall in H. apply H.
  apply (Permutation_in x (sort_perm after l)). exact Hin.
Qed.

Ltac few :=
  cbv zeta;
  repeat match goal with
         | |- context [if ?b then _ else _] => destruct b; cbv zeta
         end;
  cbn [List.app List.length];
  (split; [lia|]);
  repeat (apply List.Forall_cons; [cbn [confidence]; lia|]);
  apply List.Forall_nil.

(** the candidates of a field, in the order they are pushed *)
Lemma pushed_few field formData previousCandles :
  (List.length (pushed field formData previousCandles) <= 4)%nat /\
  List.Forall (fun o => 50 <= confidence o <= 90)
    (pushed field formData previousCandles).
Proof.
  destruct field; cbn [pushed].
  - unfold getSuggestionsForOpen.
    destruct (List.last (List.map Some previousCandles) None);
      [|split; [cbn; lia|constructor]].
    few.
  - unfold getSuggestionsForHigh. few.
  - unfold getSuggestionsForLow. few.
  - unfold closeCandidates. few.
  - unfold volumeCandidates.
    destruct (List.last (List.map Some previousCandles) None);
      [|split; [cbn; lia|constructor]].
    few.
Qed.
End SortingFacts.

(** X27. The candidates are few and their confidence is in range.  For
    every field, every partial form and every history, [getSuggestions]
    returns at most four candidates, and the confidence of each is between
    50 and 90, within the 0 to 100 the interface documents. *)
Theorem suggestions_few_and_confident (field : Form.fieldName)
    (formData : Autocomplete.PartialForm)
    (previousCandles : list Candle.CandleData) :
  (List.length (Autocomplete.getSuggestions field formData previousCandles) <= 4)%nat /\
  List.Forall (fun o => 50 <= Autocomplete.confidence o <= 90)
    (Autocomplete.getSuggestions field formData previousCandles).
Proof.
  pose proof (SortingFacts.pushed_few field formData previousCandles) as [L F].
  destruct field; cbn [Autocomplete.getSuggestions Autocomplete.pushed] in *;
    try (split; assumption).
  - unfold Autocomplete.getSuggestionsForClose.
    rewrite SortingFacts.sort_length. split; [exact L|].
    apply SortingFacts.sort_Forall. exact F.
  - unfold Autocomplete.getSuggestionsForVolume.
    rewrite SortingFacts.sort_length. split; [exact L|].
    apply SortingFacts.sort_Forall. exact F.
Qed.

Module OrderFacts.
Import JsNum.

Lemma Qle_bool_total x y : Qltb x y = false -> Qle_bool y x = true.
Proof. unfold Qltb. intros H. apply negb_false_iff in H. exact H. Qed.

Lemma Qltb_le x y : Qltb x y = true -> Qle_bool x y = true.
Proof.
  intros H. apply SchemaFacts.Qltb_lt in H. apply Qle_bool_iff. lra.
Qed.

Lemma Qle_bool_refl x : Qle_bool x x = true.
Proof. apply Qle_bool_iff. lra. Qed.

Lemma leb_trans a b c : leb a b = true -> leb b c = true -> leb a c = true.
Proof.
  destruct a as [| | |x], b as [| | |y], c as [| | |z]; cbn;
    try discriminate; try reflexivity.
  intros H1 H2. apply Qle_bool_iff in H1. apply Qle_bool_iff in H2.
  apply Qle_bool_iff. lra.
Qed.

Lemma max2_not_nan a b :
  isNaN (max2 a b) = false -> isNaN a = false /\ isNaN b = false.
Proof. destruct a, b; cbn; try discriminate; auto. Qed.

Lemma min2_not_nan a b :
  isNaN (min2 a b) = false -> isNaN a = false /\ isNaN b = false.
Proof. destruct a, b; cbn; try discriminate; auto. Qed.

Lemma max2_above a b :
  isNaN (max2 a b) = false ->
  leb a (max2 a b) = true /\ leb b (max2 a b) = true.
Proof.
  destruct a as [| | |x], b as [| | |y]; cbn; try discriminate; intros _;
    try (split; first [reflexivity | apply Qle_bool_refl]).
  destruct (Qltb x y) eqn:E; cbn; split;
    first [apply Qle_bool_refl | apply Qltb_le; exact E | apply Qle_bool_total; exact E].
Qed.

Lemma min2_below a b :
  isNaN (min2 a b) = false ->
  leb (min2 a b) a = true /\ leb (min2 a b) b = true.
Proof.
  destruct a as [| | |x], b as [| | |y]; cbn; try discriminate; intros _;
    try (split; first [reflexivity | apply Qle_bool_refl]).
  destruct (Qltb y x) eqn:E; cbn; split;
    first [apply Qle_bool_refl | apply Qltb_le; exact E | apply Qle_bool_total; exact E].
Qed.

(** [Math.max] and [Math.min] of three numbers *)
Lemma maxOf3_above a b c :
  isNaN (maxOf [a; b; c]) = false ->
  leb a (maxOf [a; b; c]) = true /\ leb c (maxOf [a; b; c]) = true.
Proof.
  unfold maxOf. cbn [fold_left]. intros N.
  destruct (max2_above _ _ N) as [H1 H2].
  destruct (max2_not_nan _ _ N) as [N1 _].
  destruct (max2_above _ _ N1) as [H3 _].
  destruct (max2_not_nan _ _ N1) as [N2 _].
  destruct (max2_above _ _ N2) as [_ H4].
  split; [|exact H2].
  eapply leb_trans; [exact H4|]. eapply leb_trans; [exact H3|exact H1].
Qed.

Lemma minOf3_below a b c :
  isNaN (minOf [a; b; c]) = false ->
  leb (minOf [a; b; c]) a = true /\ leb (minOf [a; b; c]) c = true.
Proof.
  unfold minOf. cbn [fold_left]. intros N.
  destruct (min2_below _ _ N) as [H1 H2].
  destruct (min2_not_nan _ _ N) as [N1 _].
  destruct (min2_below _ _ N1) as [H3 _].
  destruct (min2_not_nan _ _ N1) as [N2 _].
  destruct (min2_below _ _ N2) as [_ H4].
  split; [|exact H2].
  eapply leb_trans; [exact H1|]. eapply leb_trans; [exact H3|exact H4].
Qed.
End OrderFacts.

(** X28. The candle [autoFillAllFields] proposes is consistent.  When
    the operation proposes a candle, the history is not empty and the five
    texts it returns print the proposed numbers, the prices with five
    decimals; and when the proposed high and low are numbers (not NaN) they
    bound the proposed open and close: low <= open <= high and
    low <= close <= high. *)
Theorem autofill_is_ohlc_consistent (previousCandles : list Candle.CandleData)
    (p : AutoFill.Proposal) :
  AutoFill.proposal previousCandles = Some p ->
  JsNum.isNaN (AutoFill.high p) = false ->
  JsNum.isNaN (AutoFill.low p) = false ->
  previousCandles <> [] /\
  AutoFill.autoFillAllFields previousCandles =
    Some {| AutoFill.openText := [Text.Fixed 5 (AutoFill.open p)];
            AutoFill.highText := [Text.Fixed 5 (AutoFill.high p)];
            AutoFill.lowText := [Text.Fixed 5 (AutoFill.low p)];
            AutoFill.closeText := [Text.Fixed 5 (AutoFill.close p)];
            AutoFill.volumeText := [Text.Str (AutoFill.volume p)] |} /\
  JsNum.leb (AutoFill.low p) (AutoFill.open p) = true /\
  JsNum.leb (AutoFill.open p) (AutoFill.high p) = true /\
  JsNum.leb (AutoFill.low p) (AutoFill.close p) = true /\
  JsNum.leb (AutoFill.close p) (AutoFill.high p) = true /\
  JsNum.leb (AutoFill.low p) (AutoFill.high p) = true.
Proof.
  intros E Nh Nl. split.
  - intros ->. discriminate.
  - unfold AutoFill.autoFillAllFields. rewrite E.
    split; [reflexivity|].
    unfold AutoFill.proposal in E.
    destruct (List.last (List.map Some previousCandles) None) as [lastCandle|];
      [|discriminate].
    inversion E as [P]. subst p. clear E.
    cbn [AutoFill.open AutoFill.high AutoFill.low AutoFill.close] in *.
    destruct (OrderFacts.maxOf3_above _ _ _ Nh) as [H1 H2].
    destruct (OrderFacts.minOf3_below _ _ _ Nl) as [L1 L2].
    repeat split; try assumption.
    eapply OrderFacts.leb_trans; [exact L1|exact H1].
Qed.

Lemma autofill_is_ohlc_consistent_witness :
  let previousCandles := [Samples.candleA; Samples.candleB] in
  let p :=
    default {| AutoFill.open := JsNum.NaN; AutoFill.high := JsNum.NaN;
               AutoFill.low := JsNum.NaN; AutoFill.close := JsNum.NaN;
               AutoFill.volume := JsNum.NaN |}
            (AutoFill.proposal previousCandles) in
  previousCandles <> [] /\
  AutoFill.autoFillAllFields previousCandles =
    Some {| AutoFill.openText := [Text.Fixed 5 (AutoFill.open p)];
            AutoFill.highText := [Text.Fixed 5 (AutoFill.high p)];
            AutoFill.lowText := [Text.Fixed 5 (AutoFill.low p)];
            AutoFill.closeText := [Text.Fixed 5 (AutoFill.close p)];
            AutoFill.volumeText := [Text.Str (AutoFill.volume p)] |} /\
  JsNum.leb (AutoFill.low p) (AutoFill.open p) = true /\
  JsNum.leb (AutoFill.open p) (AutoFill.high p) = true /\
  JsNum.leb (AutoFill.low p) (AutoFill.close p) = true /\
  JsNum.leb (AutoFill.close p) (AutoFill.high p) = true /\
  JsNum.leb (AutoFill.low p) (AutoFill.high p) = true.
Proof.
  cbv zeta.
  apply (autofill_is_ohlc_consistent [Samples.candleA; Samples.candleB]);
    vm_compute; reflexivity.
Defined.

(** * The queries of the index *)

Module QueryFacts.
Import JsNum Index IndexQuery.

Lemma lowerIndex_true a b :
  isFinite (Candle.candle_index a) = true -> isFinite (Candle.candle_index b) = true ->
  lowerIndex a b = true -> indexDescending b a.
Proof.
  unfold lowerIndex, indexDescending.
  destruct (Candle.candle_index a) as [| | |x]; try discriminate.
  destruct (Candle.candle_index b) as [| | |y]; try discriminate.
  intros _ _. unfold gtb. cbn [sub neg add ltb leb ofZ].
  change (inject_Z 0) with 0%Q.
  intros H. apply SchemaFacts.Qltb_lt in H. apply Qle_bool_iff. lra.
Qed.

Lemma lowerIndex_false a b :
  isFinite (Candle.candle_index a) = true -> isFinite (Candle.candle_index b) = true ->
  lowerIndex a b = false -> indexDescending a b.
Proof.
  unfold lowerIndex, indexDescending.
  destruct (Candle.candle_index a) as [| | |x]; try discriminate.
  destruct (Candle.candle_index b) as [| | |y]; try discriminate.
  intros _ _. unfold gtb. cbn [sub neg add ltb leb ofZ].
  change (inject_Z 0) with 0%Q.
  intros H. apply OrderFacts.Qle_bool_total in H. apply Qle_bool_iff in H.
  apply Qle_bool_iff. lra.
Qed.

Lemma indexDescending_trans a b c :
  indexDescending a b -> indexDescending b c -> indexDescending a c.
Proof.
  unfold indexDescending. intros H1 H2. eapply OrderFacts.leb_trans; eassumption.
Qed.

Lemma insertSorted_finite x l :
  isFinite (Candle.candle_index x) = true ->
  List.Forall (fun c => isFinite (Candle.candle_index c) = true) l ->
  StronglySorted indexDescending l ->
  StronglySorted indexDescending (Autocomplete.insertSorted lowerIndex x l).
Proof.
  intros Fx Fl S. induction S as [|y l Sl IH Hy]; cbn [Autocomplete.insertSorted].
  - repeat constructor.
  - inversion Fl as [|? ? Fy Fl']; subst.
    destruct (lowerIndex x y) eqn:E.
    + constructor; [exact (IH Fl')|].
      apply List.Forall_forall. intros z Hz.
      apply (Permutation_in z (SortingFacts.insertSorted_perm lowerIndex x l)) in Hz.
      destruct Hz as [<-|Hz].
      * apply lowerIndex_true; assumption.
      * rewrite List.Forall_forall in Hy. exact (Hy z Hz).
    + pose proof (lowerIndex_false x y Fx Fy E) as Hxy.
      constructor; [constructor; assumption|].
      constructor; [exact Hxy|].
      rewrite List.Forall_forall in *. intros z Hz.
      apply (indexDescending_trans x y z); [exact Hxy|exact (Hy z Hz)].
Qed.

Lemma sort_finite l :
  List.Forall (fun c => isFinite (Candle.candle_index c) = true) l ->
  StronglySorted indexDescending (Autocomplete.sort lowerIndex l).
Proof.
  induction 1 as [|x l Fx Fl IH]; [constructor|].
  cbn [Autocomplete.sort List.fold_right]. fold (Autocomplete.sort lowerIndex l).
  apply insertSorted_finite; [exact Fx| |exact IH].
  apply SortingFacts.sort_Forall. exact Fl.
Qed.
End QueryFacts.

(** X29. The query for the latest candles reorders the index.
    [getLatestCandles] sorts the array the index holds for the session:
    when the candle indices of the session are finite numbers, the list the
    index gives for the session afterwards has the same candles sorted by
    descending candle index, no longer in the order they were added, and the
    result of the query is its first [count] candles.  The other two maps
    and the lists of the other sessions are as before. *)
Theorem latest_candles_sorts_the_index (sessionId : string) (count : JsNum.num)
    (indices : Index.CandleIndex) (bucket : list Candle.CandleData) :
  Index.bySessionId indices !! sessionId = Some bucket ->
  List.Forall (fun c => JsNum.isFinite (Candle.candle_index c) = true) bucket ->
  Permutation
    (Index.getCandlesBySessionId sessionId
       (IndexQuery.getLatestCandles sessionId count indices).1) bucket /\
  StronglySorted IndexQuery.indexDescending
    (Index.getCandlesBySessionId sessionId
       (IndexQuery.getLatestCandles sessionId count indices).1) /\
  (IndexQuery.getLatestCandles sessionId count indices).2 =
    IndexQuery.sliceCount count
      (Index.getCandlesBySessionId sessionId
         (IndexQuery.getLatestCandles sessionId count indices).1) /\
  Index.byId (IndexQuery.getLatestCandles sessionId count indices).1 = Index.byId indices /\
  Index.byTimestamp (IndexQuery.getLatestCandles sessionId count indices).1 =
    Index.byTimestamp indices /\
  (forall s, s <> sessionId ->
     Index.getCandlesBySessionId s (IndexQuery.getLatestCandles sessionId count indices).1 =
     Index.getCandlesBySessionId s indices).
Proof.
  intros B F. unfold IndexQuery.getLatestCandles. rewrite B. cbn [fst snd].
  unfold Index.getCandlesBySessionId. cbn [Index.bySessionId Index.byId Index.byTimestamp].
  rewrite lookup_insert_eq.
  split; [apply SortingFacts.sort_perm|].
  split; [apply QueryFacts.sort_finite; exact F|].
  repeat split.
  intros s N. rewrite lookup_insert_ne by congruence. reflexivity.
Qed.

Lemma latest_candles_sorts_the_index_witness :
  let sessionId := Session.id Samples.session in
  let indices := Index.buildIndices Reference.getTime [Samples.candleA; Samples.candleB] in
  Permutation
    (Index.getCandlesBySessionId sessionId
       (IndexQuery.getLatestCandles sessionId (JsNum.ofZ 1) indices).1)
    [Samples.candleA; Samples.candleB] /\
  StronglySorted IndexQuery.indexDescending
    (Index.getCandlesBySessionId sessionId
       (IndexQuery.getLatestCandles sessionId (JsNum.ofZ 1) indices).1) /\
  (IndexQuery.getLatestCandles sessionId (JsNum.ofZ 1) indices).2 =
    IndexQuery.sliceCount (JsNum.ofZ 1)
      (Index.getCandlesBySessionId sessionId
         (IndexQuery.getLatestCandles sessionId (JsNum.ofZ 1) indices).1) /\
  Index.byId (IndexQuery.getLatestCandles sessionId (JsNum.ofZ 1) indices).1 =
    Index.byId indices /\
  Index.byTimestamp (IndexQuery.getLatestCandles sessionId (JsNum.ofZ 1) indices).1 =
    Index.byTimestamp indices /\
  (forall s, s <> sessionId ->
     Index.getCandlesBySessionId s
       (IndexQuery.getLatestCandles sessionId (JsNum.ofZ 1) indices).1 =
     Index.getCandlesBySessionId s indices).
Proof.
  cbv zeta.
  apply (latest_candles_sorts_the_index (Session.id Samples.session) (JsNum.ofZ 1)
           (Index.buildIndices Reference.getTime [Samples.candleA; Samples.candleB])
           [Samples.candleA; Samples.candleB]).
  - vm_compute. reflexivity.
  - repeat constructor.
Defined.

(** X30. The range queries give the records in the range.  On an index
    kept by a rebuild followed by any additions and removals that leave the
    identifiers of the records distinct,
    [getCandlesByIndexRange] returns the records of the session whose candle
    index is within the two bounds, and [getCandlesInRange] those whose
    instant is within the two dates, both in the order of the record set;
    an index or a date that is NaN selects nothing. *)
Theorem range_queries_filter_records (getTime : string -> option Z)
    (initial : list Candle.CandleData) (operations : list Index.Operation)
    (sessionId : string) (startIndex endIndex : JsNum.num)
    (startTimestamp endTimestamp : option Z) :
  Index.throughout Index.distinctIds initial operations ->
  IndexQuery.getCandlesByIndexRange sessionId startIndex endIndex
    (fold_left (Index.apply getTime) operations (Index.buildIndices getTime initial)) =
  List.filter (IndexQuery.inIndexRange startIndex endIndex)
    (Index.ofSession sessionId (fold_left Index.applyToRecords operations initial)) /\
  IndexQuery.getCandlesInRange getTime sessionId startTimestamp endTimestamp
    (fold_left (Index.apply getTime) operations (Index.buildIndices getTime initial)) =
  List.filter (IndexQuery.inTimeRange getTime startTimestamp endTimestamp)
    (Index.ofSession sessionId (fold_left Index.applyToRecords operations initial)) /\
  (JsNum.isNaN startIndex = true \/ JsNum.isNaN endIndex = true ->
   IndexQuery.getCandlesByIndexRange sessionId startIndex endIndex
     (fold_left (Index.apply getTime) operations (Index.buildIndices getTime initial)) = []) /\
  (startTimestamp = None \/ endTimestamp = None ->
   IndexQuery.getCandlesInRange getTime sessionId startTimestamp endTimestamp
     (fold_left (Index.apply getTime) operations (Index.buildIndices getTime initial)) = []).
Proof.
  intros Hadm.
  destruct (IndexFacts.agrees_run getTime operations _ _ Hadm
              (IndexFacts.agrees_build getTime initial)) as (_ & Hs & _).
  unfold IndexQuery.getCandlesByIndexRange, IndexQuery.getCandlesInRange.
  rewrite Hs. split; [reflexivity|]. split; [reflexivity|]. split.
  - intros N.
    assert (E : forall c, IndexQuery.inIndexRange startIndex endIndex c = false).
    { intros c. unfold IndexQuery.inIndexRange, JsNum.geb.
      destruct N as [N|N].
      - destruct startIndex; try discriminate.
        destruct (Candle.candle_index c); reflexivity.
      - destruct endIndex; try discriminate.
        destruct (Candle.candle_index c), startIndex; cbn;
          rewrite ?andb_false_r; reflexivity. }
    induction (Index.ofSession sessionId _) as [|c l IH]; [reflexivity|].
    cbn [List.filter]. rewrite E. exact IH.
  - intros N.
    assert (E : forall c,
               IndexQuery.inTimeRange getTime startTimestamp endTimestamp c = false).
    { intros c. unfold IndexQuery.inTimeRange.
      destruct (getTime (Candle.candle_datetime c)); [|reflexivity].
      destruct N as [->| ->]; [reflexivity|].
      destruct startTimestamp; reflexivity. }
    induction (Index.ofSession sessionId _) as [|c l IH]; [reflexivity|].
    cbn [List.filter]. rewrite E. exact IH.
Qed.

Lemma range_queries_filter_records_witness :
  let getTime := Reference.getTime in
  let initial := [Samples.storedA; Samples.storedB] in
  let operations := [Index.addOne Samples.storedC; Index.removeOne "a"] in
  let indices :=
    fold_left (Index.apply getTime) operations (Index.buildIndices getTime initial) in
  let final := fold_left Index.applyToRecords operations initial in
  IndexQuery.getCandlesByIndexRange "s1" (JsNum.ofZ 0) (JsNum.ofZ 10) indices =
  List.filter (IndexQuery.inIndexRange (JsNum.ofZ 0) (JsNum.ofZ 10))
    (Index.ofSession "s1" final) /\
  IndexQuery.getCandlesInRange getTime "s1" (Some 0) (getTime "2024-01-01T00:05:00Z") indices =
  List.filter (IndexQuery.inTimeRange getTime (Some 0) (getTime "2024-01-01T00:05:00Z"))
    (Index.ofSession "s1" final) /\
  (JsNum.isNaN (JsNum.ofZ 0) = true \/ JsNum.isNaN (JsNum.ofZ 10) = true ->
   IndexQuery.getCandlesByIndexRange "s1" (JsNum.ofZ 0) (JsNum.ofZ 10) indices = []) /\
  (Some 0 = None \/ getTime "2024-01-01T00:05:00Z" = None ->
   IndexQuery.getCandlesInRange getTime "s1" (Some 0) (getTime "2024-01-01T00:05:00Z")
     indices = []).
Proof.
  cbv zeta.
  apply (range_queries_filter_records Reference.getTime
           [Samples.storedA; Samples.storedB]
           [Index.addOne Samples.storedC; Index.removeOne "a"]
           "s1" (JsNum.ofZ 0) (JsNum.ofZ 10) (Some 0)
           (Reference.getTime "2024-01-01T00:05:00Z")).
  repeat split; apply (bool_decide_unpack _); vm_compute; exact I.
Defined.
